(** * LinkedIn automation tool: scheduler, session lifecycle and store

    A shallow embedding of the core of the repository:
    - [Database]           (src/utils/database.js: the SQLite store)
    - [LinkedInAuth]       (src/services/linkedinAuth.js)
    - [JobScraper]         (src/services/jobScraper.js)
    - [ApplicationTracker] (src/services/applicationTracker.js)
    - [AutoApplicant]      (src/services/autoApplicant.js)
    - [Routes]             (src/routes/applications.js, POST /)
    - [Scheduler]          (src/services/scheduler.js)

    Asynchronous methods are functions in a state-and-exception monad; a
    promise either resolves, rejects with an [Error] (kept by its message) or
    never settles.  The browser and the remote site are not part of the
    program: every answer they give is read from an explicit world record. *)

From Stdlib Require Import ZArith List Bool Lia Sorted.
From stdpp Require Import gmap strings pretty.
Import ListNotations.
Local Open Scope string_scope.
Local Open Scope list_scope.
Local Open Scope Z_scope.

(* ===================================================================== *)
(** ** Promises: a state monad with rejection and non-settlement *)
(* ===================================================================== *)

Inductive Outcome (A : Type) : Type :=
| Ok (a : A)            (* the promise resolves *)
| Throw (msg : string)  (* the promise rejects with [new Error(msg)] *)
| Hang.                 (* the promise never settles *)
Arguments Ok {A} a.
Arguments Throw {A} msg.
Arguments Hang {A}.

Definition M (S A : Type) : Type := S -> Outcome A * S.

Definition ret {S A} (a : A) : M S A := fun s => (Ok a, s).

Definition throw {S A} (msg : string) : M S A := fun s => (Throw msg, s).

Definition bind {S A B} (m : M S A) (k : A -> M S B) : M S B :=
  fun s =>
    match m s with
    | (Ok a, s') => k a s'
    | (Throw e, s') => (Throw e, s')
    | (Hang, s') => (Hang, s')
    end.

(** [try { m } catch (error) { h error }]: only a rejection reaches the
    handler; a promise that never settles is not caught. *)
Definition try_catch {S A} (m : M S A) (h : string -> M S A) : M S A :=
  fun s =>
    match m s with
    | (Throw e, s') => h e s'
    | r => r
    end.

Definition get_state {S} : M S S := fun s => (Ok s, s).
Definition modify {S} (f : S -> S) : M S unit := fun s => (Ok tt, f s).

Notation "'let*' x ':=' m 'in' k" := (bind m (fun x => k))
  (at level 10, x name, m at level 100, k at level 200).
Notation "m '>>' k" := (bind m (fun _ => k))
  (at level 90, right associativity).

(** [for (const x of xs) { body x }], threading an accumulator. *)
Fixpoint for_of {S A B} (xs : list A) (acc : B) (body : A -> B -> M S B) : M S B :=
  match xs with
  | [] => ret acc
  | x :: rest => let* acc' := body x acc in for_of rest acc' body
  end.

(** One day in milliseconds; SQLite's [date(t)] is the UTC day of [t]. *)
Definition day_ms : Z := 86400000.
Definition date (t : Z) : Z := t / day_ms.

(* ===================================================================== *)
(** ** The store (class Database) *)
(* ===================================================================== *)

Module JobData.
  (** The object a scrape produces and [insertJob] receives; an absent
      property is [None]. *)
Record t := mk {
    jobId : option string;
    title : option string;
    company : option string;
    location : option string;
    jobType : option string;
    description : option string;
    requirements : option string;
    postedDate : option string;
    url : option string;
    salaryRange : option string;
    experienceLevel : option string;
    matchScore : option Z;
    keywordsMatched : option (list string)
  }.
End JobData.

Module JobRow.
  (** Table [jobs].  The AUTOINCREMENT [id] is not read by any modelled
      statement other than as a sign of existence and is left out. *)
Record t := mk {
    job_id : string;                   (* TEXT UNIQUE NOT NULL *)
    title : string;                    (* TEXT NOT NULL *)
    company : string;                  (* TEXT NOT NULL *)
    location : option string;
    job_type : option string;
    description : option string;
    requirements : option string;
    posted_date : option string;
    scraped_at : Z;                    (* DEFAULT CURRENT_TIMESTAMP *)
    url : option string;
    salary_range : option string;
    experience_level : option string;
    is_applied : bool;                 (* DEFAULT FALSE *)
    match_score : option Z;
    keywords_matched : list string     (* JSON.stringify(keywordsMatched || []) *)
  }.
End JobRow.

Module HistoryEntry.
Record t := mk {
    status : string;
    timestamp : Z;
    previousStatus : option string
  }.
End HistoryEntry.

(** Contents of the TEXT column [status_history]: either what
    [JSON.stringify] wrote for a list of entries, or text [JSON.parse]
    rejects.  [JSON.parse (JSON.stringify h)] is [h]. *)
Inductive JsonText : Type :=
| Stringified (h : list HistoryEntry.t)
| Unparsable (raw : string).

Module ApplicationData.
Record t := mk {
    jobId : option string;
    applicationId : option string;
    status : option string;
    appliedAt : option Z;
    recruiterContact : option string;
    notes : option string
  }.
End ApplicationData.

Module AppRow.
  (** Table [applications]. *)
Record t := mk {
    job_id : string;                     (* TEXT NOT NULL *)
    application_id : option string;      (* TEXT UNIQUE *)
    status : option string;
    applied_at : option Z;
    last_checked : Z;                    (* DEFAULT CURRENT_TIMESTAMP *)
    status_history : option JsonText;
    recruiter_contact : option string;
    notes : option string
  }.
End AppRow.

Module LogRow.
  (** Table [scraping_logs]: one row is one RunOutcome. *)
Record t := mk {
    type : string;
    status : string;
    items_processed : Z;
    errors_count : Z;
    duration_ms : Z;
    started_at : Z;                      (* DEFAULT CURRENT_TIMESTAMP *)
    completed_at : Z;
    error_message : option string
  }.
End LogRow.

Module Database.

Record t := mk {
    db : bool;                           (* [this.db] is not null *)
    clock : Z;                           (* wall clock, ms since the epoch *)
    jobs : list JobRow.t;
    applications : list AppRow.t;
    scraping_logs : list LogRow.t
  }.

Definition set_jobs (f : list JobRow.t -> list JobRow.t) (d : t) : t :=
    mk (db d) (clock d) (f (jobs d)) (applications d) (scraping_logs d).
Definition set_applications (f : list AppRow.t -> list AppRow.t) (d : t) : t :=
    mk (db d) (clock d) (jobs d) (f (applications d)) (scraping_logs d).
Definition set_scraping_logs (f : list LogRow.t -> list LogRow.t) (d : t) : t :=
    mk (db d) (clock d) (jobs d) (applications d) (f (scraping_logs d)).
Definition elapse (ms : Z) (d : t) : t :=
    mk (db d) (clock d + ms) (jobs d) (applications d) (scraping_logs d).

  (** [run], [get] and [all] reject when the handle is missing. *)
Definition handle : M t unit :=
    fun d => if db d then (Ok tt, d) else (Throw "Database not initialized", d).

Definition now : M t Z := fun d => (Ok (clock d), d).

Definition same_key (k : string) (k' : option string) : bool :=
    match k' with
    | Some s => String.eqb k s
    | None => false
    end.

  (** The row the VALUES list of [insertJob] makes at time [ts]. *)
Definition job_row (key ttl comp : string) (jobData : JobData.t) (ts : Z) : JobRow.t :=
  JobRow.mk key ttl comp
    (JobData.location jobData)
    (JobData.jobType jobData)
    (JobData.description jobData)
    (JobData.requirements jobData)
    (JobData.postedDate jobData)
    ts
    (JobData.url jobData)
    (JobData.salaryRange jobData)
    (JobData.experienceLevel jobData)
    false
    (JobData.matchScore jobData)
    (default [] (JobData.keywordsMatched jobData)).

(** [INSERT OR REPLACE INTO jobs (job_id, title, company, ...)]: a NULL
      in a NOT NULL column without default aborts; a row with the same
      [job_id] is deleted before the new row is appended.  [is_applied] and
      [scraped_at] are not in the column list and take their defaults. *)
Definition insertJob (jobData : JobData.t) : M t unit :=
    handle >>
    match JobData.jobId jobData, JobData.title jobData, JobData.company jobData with
    | None, _, _ => throw "SQLITE_CONSTRAINT: NOT NULL constraint failed: jobs.job_id"
    | Some _, None, _ => throw "SQLITE_CONSTRAINT: NOT NULL constraint failed: jobs.title"
    | Some _, Some _, None => throw "SQLITE_CONSTRAINT: NOT NULL constraint failed: jobs.company"
    | Some key, Some ttl, Some comp =>
        let* ts := now in
        modify (set_jobs (fun rows =>
          List.filter (fun r => negb (String.eqb (JobRow.job_id r) key)) rows
          ++ [job_row key ttl comp jobData ts]))
    end.

  (** [INSERT OR REPLACE INTO applications (job_id, application_id, status,
      applied_at, recruiter_contact, notes)]: only [application_id] is
      UNIQUE, and NULL never conflicts. *)
Definition insertApplication (applicationData : ApplicationData.t) : M t unit :=
    handle >>
    match ApplicationData.jobId applicationData with
    | None => throw "SQLITE_CONSTRAINT: NOT NULL constraint failed: applications.job_id"
    | Some jid =>
        let* ts := now in
        let aid := ApplicationData.applicationId applicationData in
        let row :=
          AppRow.mk jid aid
            (ApplicationData.status applicationData)
            (ApplicationData.appliedAt applicationData)
            ts
            None
            (ApplicationData.recruiterContact applicationData)
            (ApplicationData.notes applicationData) in
        let clash (r : AppRow.t) : bool :=
          match aid with
          | Some k => same_key k (AppRow.application_id r)
          | None => false
          end in
        modify (set_applications (fun rows =>
          List.filter (fun r => negb (clash r)) rows ++ [row]))
    end.

  (** [SELECT ... FROM jobs WHERE job_id = ?] through [get]: the first row. *)
Definition get_job (key : string) : M t (option JobRow.t) :=
    handle >>
    let* d := get_state in
    ret (find (fun r => String.eqb (JobRow.job_id r) key) (jobs d)).

  (** [SELECT * FROM applications WHERE job_id = ?] through [get]. *)
Definition get_application_by_job (key : string) : M t (option AppRow.t) :=
    handle >>
    let* d := get_state in
    ret (find (fun r => String.eqb (AppRow.job_id r) key) (applications d)).

  (** [UPDATE jobs SET is_applied = TRUE WHERE job_id = ?]. *)
Definition mark_applied (key : string) : M t unit :=
    handle >>
    modify (set_jobs (map (fun r =>
      if String.eqb (JobRow.job_id r) key
      then JobRow.mk (JobRow.job_id r) (JobRow.title r) (JobRow.company r)
             (JobRow.location r) (JobRow.job_type r) (JobRow.description r)
             (JobRow.requirements r) (JobRow.posted_date r) (JobRow.scraped_at r)
             (JobRow.url r) (JobRow.salary_range r) (JobRow.experience_level r)
             true (JobRow.match_score r) (JobRow.keywords_matched r)
      else r))).

  (** [INSERT INTO scraping_logs (type, status, items_processed,
      errors_count, duration_ms, completed_at, error_message)
      VALUES (?, ?, ?, ?, ?, CURRENT_TIMESTAMP, ?)]. *)
Definition insert_log (type status : string) (itemsProcessed errorsCount duration : Z)
      (errorMessage : option string) : M t unit :=
    handle >>
    let* ts := now in
    modify (set_scraping_logs (fun rows =>
      rows ++ [LogRow.mk type status itemsProcessed errorsCount duration ts ts errorMessage])).

  (** [SELECT COUNT( * ) FROM applications WHERE date(applied_at) = date('now')]. *)
Definition applied_today (today : Z) (r : AppRow.t) : bool :=
    match AppRow.applied_at r with
    | Some ts => date ts =? today
    | None => false
    end.

Definition count_today_applications : M t nat :=
    handle >>
    let* d := get_state in
    ret (length (List.filter (applied_today (date (clock d))) (applications d))).

End Database.

(* ===================================================================== *)
(** ** Process environment, the run state and the observable trace *)
(* ===================================================================== *)

Module Env.
(** [process.env]: a variable is unset ([None]) or holds a string.  For
    the numeric settings the field is the result of [parseInt], with
    [None] for [NaN]. *)
Record t := mk {
  HEADLESS_MODE : option string;
  AUTO_APPLY_ENABLED : option string;
  LINKEDIN_EMAIL : option string;
  LINKEDIN_PASSWORD : option string;
  MAX_APPLICATIONS_PER_DAY : option Z;
  APPLICATION_DELAY_MS : option Z;
  MAX_JOBS_PER_SCRAPE : option Z
}.

(** A string in a condition: unset and the empty string are falsy. *)
Definition truthy (v : option string) : bool :=
  match v with
  | Some s => negb (String.eqb s EmptyString)
  | None => false
  end.

(** [v === s]. *)
Definition equals (v : option string) (s : string) : bool :=
  match v with
  | Some s' => String.eqb s' s
  | None => false
  end.

(** [parseInt(v) || d]: [NaN] and [0] fall back to [d]. *)
Definition int_or (v : option Z) (d : Z) : Z :=
  match v with
  | Some n => if n =? 0 then d else n
  | None => d
  end.
End Env.

Inductive Event : Type :=
| EvDelay (who : string) (min max : Z)  (* humanLikeDelay(min, max), by calling method *)
| EvStdin (who : string)                (* awaiting process.stdin.once('data') *)
| EvLaunch                              (* browserManager.launch() *)
| EvClose                               (* browserManager.close() *)
| EvGoto (url : string)                 (* page.goto(url) *)
| EvScreenshot (name : string)          (* takeScreenshot(name) *)
| EvCookies                             (* saveCookies() *)
| EvApply (job_id : string).            (* applyToJob(job) drives the page *)

Module Sys.
(** State of one service object during a run: the shared store, the
    service's own [LinkedInAuth], what the operator will still type, and
    what the run did to the outside so far.  [logins] counts the calls of
    [login()]. *)
Record t := mk {
  store : Database.t;
  isLoggedIn : bool;
  logins : nat;
  stdin : nat;
  trace : list Event
}.

Definition set_store (d : Database.t) (s : t) : t :=
  mk d (isLoggedIn s) (logins s) (stdin s) (trace s).
Definition set_isLoggedIn (b : bool) (s : t) : t :=
  mk (store s) b (logins s) (stdin s) (trace s).
Definition count_login (s : t) : t :=
  mk (store s) (isLoggedIn s) (S (logins s)) (stdin s) (trace s).
Definition set_stdin (n : nat) (s : t) : t :=
  mk (store s) (isLoggedIn s) (logins s) n (trace s).
Definition emit (e : Event) (s : t) : t :=
  mk (store s) (isLoggedIn s) (logins s) (stdin s) (trace s ++ [e]).
End Sys.

(** A store operation performed from a service. *)
Definition database {A} (m : M Database.t A) : M Sys.t A :=
  fun s =>
    let (r, d) := m (Sys.store s) in
    (r, Sys.set_store d s).

Definition emit (e : Event) : M Sys.t unit := modify (Sys.emit e).

(** An action on the page that either goes through or rejects. *)
Definition page_action (e : Event) (err : option string) : M Sys.t unit :=
  emit e >>
  match err with
  | Some msg => throw msg
  | None => ret tt
  end.

(** [await new Promise(resolve => process.stdin.once('data', resolve))]:
    resumes when the operator types, and otherwise never. *)
Definition await_operator (who : string) : M Sys.t unit :=
  emit (EvStdin who) >>
  let* s := get_state in
  match Sys.stdin s with
  | O => fun s' => (Hang, s')
  | S n => modify (Sys.set_stdin n)
  end.

(* ===================================================================== *)
(** ** The remote site as one run meets it *)
(* ===================================================================== *)

Module ChallengeView.
(** What the selectors of [handleLoginChallenges] find on the page. *)
Record t := mk {
  verificationText : bool;   (* text="Let's do a quick verification" *)
  verificationPage : bool;   (* input[placeholder*="Enter code"], ... *)
  emailChallenge : bool;     (* .challenge-form, .verification-page, ... *)
  captchaExists : bool;      (* .captcha-container, .challenge-page *)
  phoneChallenge : bool;     (* .phone-verification *)
  pinChallenge : bool        (* .challenge-pin *)
}.

Definition detected (v : t) : bool :=
  verificationText v || verificationPage v || emailChallenge v
  || captchaExists v || phoneChallenge v || pinChallenge v.

Definition none : t := mk false false false false false false.
End ChallengeView.

Module LoginWorld.
(** What one call of [login()] meets, step by step. *)
Record t := mk {
  launch_error : option string;     (* launch() / setupPage() rejects *)
  goto_failures : nat;              (* failing page.goto(loginUrl) in a row *)
  goto_error : string;
  already_in : bool;                (* first checkIfLoggedIn() *)
  form_error : option string;       (* typing, click or waitForNavigation rejects *)
  challenges : ChallengeView.t;
  home_error : option string;       (* page.goto(homeUrl) rejects *)
  verified : bool                   (* second checkIfLoggedIn() *)
}.
End LoginWorld.

Module Card.
(** A job card of the result list: evaluating it may reject (caught per
    card); otherwise it carries its [data-job-id] and what [scrapeJobCard]
    returns for it ([None] for [null]). *)
Inductive t : Type :=
| Broken
| Shown (data_job_id : string) (details : option JobData.t).
End Card.

Inductive NextButton : Type := NoNext | NextEnabled | NextDisabled.

Module BatchView.
(** What one pass of the listing loop sees. *)
Record t := mk {
  cards : list Card.t;
  page_error : option string;   (* reload or scrolling rejects *)
  next_button : NextButton
}.
End BatchView.

Module StatusCard.
(** An element of the applications page. *)
Record t := mk {
  innerText : string;
  shownStatus : option string;        (* extractApplicationStatus(element) *)
  recruiterContact : option string;   (* extractApplicationDetails(element) *)
  notes : option string
}.
End StatusCard.

Module ApplyResult.
(** The object [applyToJob] resolves with. *)
Record t := mk {
  success : bool;
  applicationId : option string;
  method : option string;
  reason : option string
}.
End ApplyResult.

Module Site.
Record t := mk {
  page_ready : bool;                          (* ensurePageReady() *)
  session_alive : bool;                       (* checkIfLoggedIn() probe *)
  login_world : nat -> LoginWorld.t;          (* the n-th login() *)
  jobs_nav_error : option string;             (* navigateToJobs: page.goto rejects *)
  search_error : option string;               (* searchByKeywords rejects *)
  applications_nav_error : option string;     (* navigateToApplicationsPage rejects *)
  application_cards : AppRow.t -> list StatusCard.t;
  apply_result : JobRow.t -> ApplyResult.t    (* applyToJob(job) *)
}.
End Site.

(* ===================================================================== *)
(** ** class BrowserManager (the parts the services call) *)
(* ===================================================================== *)

Module BrowserManager.

(** [!process.env.HEADLESS_MODE || process.env.HEADLESS_MODE === 'false']:
    the guard in front of every wait for the operator. *)
Definition operator_expected (env : Env.t) : bool :=
  negb (Env.truthy (Env.HEADLESS_MODE env)) || Env.equals (Env.HEADLESS_MODE env) "false".

(** [launch]: [const isHeadless = process.env.HEADLESS_MODE === 'true']. *)
Definition isHeadless (env : Env.t) : bool :=
  Env.equals (Env.HEADLESS_MODE env) "true".

Definition humanLikeDelay (who : string) (min max : Z) : M Sys.t unit :=
  emit (EvDelay who min max).

Definition handleCaptcha (env : Env.t) (captchaExists : bool) : M Sys.t unit :=
  try_catch
    (if captchaExists then
       if operator_expected env
       then await_operator "handleCaptcha"
       else throw "CAPTCHA detected in headless mode - cannot proceed"
     else ret tt)
    (fun error => throw error).

Definition close : M Sys.t unit := emit EvCookies >> emit EvClose.

End BrowserManager.

(* ===================================================================== *)
(** ** class LinkedInAuth *)
(* ===================================================================== *)

Module LinkedInAuth.

Definition loginUrl : string := "https://www.linkedin.com/login".
Definition homeUrl : string := "https://www.linkedin.com/feed/".
Definition maxAttempts : nat := 3.

(** One challenge block: wait for the operator, or reject when nobody is
    expected at the keyboard. *)
Definition challenge (env : Env.t) (present : bool) (msg : string) : M Sys.t unit :=
  if present then
    if BrowserManager.operator_expected env
    then await_operator "handleLoginChallenges"
    else throw msg
  else ret tt.

Definition handleLoginChallenges (env : Env.t) (v : ChallengeView.t) : M Sys.t unit :=
  try_catch
    (BrowserManager.humanLikeDelay "handleLoginChallenges" 2000 3000 >>
     challenge env (ChallengeView.verificationText v || ChallengeView.verificationPage v)
       "Email verification required" >>
     challenge env (ChallengeView.emailChallenge v) "Email verification required" >>
     BrowserManager.handleCaptcha env (ChallengeView.captchaExists v) >>
     challenge env (ChallengeView.phoneChallenge v) "Phone verification required" >>
     challenge env (ChallengeView.pinChallenge v) "PIN verification required" >>
     BrowserManager.humanLikeDelay "handleLoginChallenges" 3000 5000)
    (fun error => throw error).

(** [let retries = 3; while (retries > 0) { try { goto; break } catch
    { retries--; if (retries === 0) throw error; delay } }]. *)
Fixpoint goto_login (retries failures : nat) (error : string) : M Sys.t unit :=
  match retries with
  | O => ret tt
  | S retries' =>
      emit (EvGoto loginUrl) >>
      match failures with
      | O => ret tt
      | S failures' =>
          match retries' with
          | O => throw error
          | S _ =>
              BrowserManager.humanLikeDelay "login" 2000 4000 >>
              goto_login retries' failures' error
          end
      end
  end.

Definition login (env : Env.t) (w : LoginWorld.t) : M Sys.t bool :=
  modify Sys.count_login >>
  try_catch
    (if negb (Env.truthy (Env.LINKEDIN_EMAIL env)) || negb (Env.truthy (Env.LINKEDIN_PASSWORD env))
     then throw "LinkedIn credentials not provided"
     else
       page_action EvLaunch (LoginWorld.launch_error w) >>
       goto_login 3 (LoginWorld.goto_failures w) (LoginWorld.goto_error w) >>
       BrowserManager.humanLikeDelay "login" 2000 4000 >>
       if LoginWorld.already_in w then
         modify (Sys.set_isLoggedIn true) >> ret true
       else
         match LoginWorld.form_error w with
         | Some msg => throw msg
         | None =>
             BrowserManager.humanLikeDelay "login" 1000 2000 >>
             BrowserManager.humanLikeDelay "login" 1000 2000 >>
             BrowserManager.humanLikeDelay "login" 3000 5000 >>
             handleLoginChallenges env (LoginWorld.challenges w) >>
             page_action (EvGoto homeUrl) (LoginWorld.home_error w) >>
             BrowserManager.humanLikeDelay "login" 2000 4000 >>
             if LoginWorld.verified w then
               modify (Sys.set_isLoggedIn true) >> emit EvCookies >> ret true
             else throw "Login verification failed"
         end)
    (fun error => emit (EvScreenshot "login_error") >> throw error).

(** One pass of the retry loop of [ensureLoggedIn], when [rest] attempts
    remain after it ([attempts + 1 = maxAttempts - rest]): [Some true] is
    [return true], [None] is "go round again". *)
Definition attempt (env : Env.t) (site : Site.t) (rest : nat) : M Sys.t (option bool) :=
  let* s := get_state in
  try_catch
    (login env (Site.login_world site (Sys.logins s)) >>
     let* s' := get_state in
     if Sys.isLoggedIn s' then ret (Some true)
     else
       (match rest with
        | O => ret tt
        | S _ => BrowserManager.humanLikeDelay "ensureLoggedIn" 5000 10000
        end) >> ret None)
    (fun _ =>
       (match rest with
        | O => ret tt
        | S _ =>
            BrowserManager.humanLikeDelay "ensureLoggedIn" 10000 15000 >>
            try_catch
              (BrowserManager.close >> emit EvLaunch)
              (fun _ => ret tt)
        end) >> ret None).

(** [while (attempts < maxAttempts) { ... }], by the attempts that remain:
    [attempts = maxAttempts - remaining]. *)
Fixpoint login_attempts (env : Env.t) (site : Site.t) (remaining : nat) : M Sys.t bool :=
  match remaining with
  | O => ret false
  | S rest =>
      let* r := attempt env site rest in
      match r with
      | Some b => ret b
      | None => login_attempts env site rest
      end
  end.

Definition ensureLoggedIn (env : Env.t) (site : Site.t) : M Sys.t bool :=
  try_catch
    (if negb (Site.page_ready site) then ret false
     else
       let* s := get_state in
       if Sys.isLoggedIn s && Site.session_alive site then ret true
       else login_attempts env site maxAttempts)
    (fun _ => ret false).

(** The two navigations (feed, then jobs) are one step of the site. *)
Definition navigateToJobs (site : Site.t) : M Sys.t bool :=
  try_catch
    (let* s := get_state in
     if negb (Sys.isLoggedIn s) then throw "Not logged in to LinkedIn"
     else
       page_action (EvGoto "https://www.linkedin.com/jobs/") (Site.jobs_nav_error site) >>
       BrowserManager.humanLikeDelay "navigateToJobs" 3000 5000 >>
       ret true)
    (fun error => throw error).

End LinkedInAuth.

(* ===================================================================== *)
(** ** class JobScraper *)
(* ===================================================================== *)

Module SearchFilters.
Record t := mk {
  keywords : list string;
  locations : list string;
  jobTypes : list string;
  maxJobs : option Z          (* a custom filter object may lack it *)
}.
End SearchFilters.

(** A value passed where [scrapeJobListings] expects its [page]. *)
Inductive PageArg : Type :=
| PageObject (views : nat -> BatchView.t)   (* a puppeteer page *)
| NumberArg (n : Z)
| UndefinedArg.

Module JobScraper.

Definition maxConsecutiveNoNewJobs : nat := 3.

(** The local variables of [scrapeJobListings]; [batches] counts the
    passes of the [while] loop made so far. *)
Record Listing := mkListing {
  jobs : list JobData.t;
  processedJobIds : gset string;
  consecutiveNoNewJobs : nat;
  batches : nat
}.

(** [jobData && jobData.title && jobData.company]. *)
Definition valid (details : option JobData.t) : bool :=
  match details with
  | Some jobData => Env.truthy (JobData.title jobData) && Env.truthy (JobData.company jobData)
  | None => false
  end.

(** Body of the [for] loop over the cards, on [(jobs, processedJobIds,
    newJobsInThisBatch)]. *)
Definition visit (card : Card.t)
    (st : list JobData.t * gset string * list JobData.t)
    : list JobData.t * gset string * list JobData.t :=
  let '(jobs, seen, newJobsInThisBatch) := st in
  match card with
  | Card.Broken => st
  | Card.Shown jobId details =>
      if bool_decide (jobId ∈ seen) then st
      else
        match details with
        | Some jobData =>
            if valid details
            then (jobs ++ [jobData], {[jobId]} ∪ seen, newJobsInThisBatch ++ [jobData])
            else st
        | None => st
        end
  end.

(** [for (let i = 0; i < Math.min(jobCards.length, maxJobs - jobs.length);
    i++)]: the bound is evaluated again before every card. *)
Fixpoint scan_cards (maxJobs i : Z) (rest : list Card.t)
    (st : list JobData.t * gset string * list JobData.t)
    : list JobData.t * gset string * list JobData.t :=
  match rest with
  | [] => st
  | card :: rest' =>
      if i <? maxJobs - Z.of_nat (length (fst (fst st)))
      then scan_cards maxJobs (i + 1) rest' (visit card st)
      else st
  end.

(** The [while] loop, one pass per unit of fuel; [None] when the fuel
    runs out before the loop ends. *)
Fixpoint listing_loop (fuel : nat) (views : nat -> BatchView.t) (maxJobs : Z)
    (st : Listing) : option (Outcome Listing) :=
  match fuel with
  | O => None
  | S fuel' =>
      if (Z.of_nat (length (jobs st)) <? maxJobs)
         && (consecutiveNoNewJobs st <? maxConsecutiveNoNewJobs)%nat
      then
        let view := views (batches st) in
        match BatchView.cards view with
        | [] =>
            (* no cards: reload, count, continue *)
            match BatchView.page_error view with
            | Some msg => Some (Throw msg)
            | None =>
                listing_loop fuel' views maxJobs
                  (mkListing (jobs st) (processedJobIds st)
                     (S (consecutiveNoNewJobs st)) (S (batches st)))
            end
        | jobCards =>
            let '(jobs', seen', newJobsInThisBatch) :=
              scan_cards maxJobs 0 jobCards (jobs st, processedJobIds st, []) in
            let consecutive' :=
              match newJobsInThisBatch with
              | [] => S (consecutiveNoNewJobs st)
              | _ => O
              end in
            let st' := mkListing jobs' seen' consecutive' (S (batches st)) in
            let safety_check :=
              if (maxConsecutiveNoNewJobs <=? consecutive')%nat
              then Some (Ok st')
              else listing_loop fuel' views maxJobs st' in
            if Z.of_nat (length jobs') <? maxJobs then
              match BatchView.page_error view with
              | Some msg => Some (Throw msg)
              | None =>
                  match BatchView.next_button view with
                  | NextDisabled => Some (Ok st')   (* reached end of results *)
                  | _ => safety_check
                  end
              end
            else safety_check
        end
      else Some (Ok st)
  end.

Definition start : Listing := mkListing [] ∅ O O.

(** Passes that always suffice: each pass adds a job or an idle count. *)
Definition enough_fuel (maxJobs : Z) : nat := (3 * Z.to_nat maxJobs + 4)%nat.

(** [async scrapeJobListings(page, maxJobs = 100)].  The first statement
    of the loop body calls [page.waitForSelector], a TypeError on
    anything but a page. *)
Definition scrapeJobListings (page : PageArg) (maxJobs : Z) : Outcome (list JobData.t) :=
  match page with
  | PageObject views =>
      match listing_loop (enough_fuel maxJobs) views maxJobs start with
      | Some (Ok st) => Ok (jobs st)
      | Some (Throw msg) => Throw msg
      | Some Hang => Hang
      | None => Hang
      end
  | NumberArg _ =>
      if 0 <? maxJobs then Throw "page.waitForSelector is not a function" else Ok []
  | UndefinedArg =>
      if 0 <? maxJobs
      then Throw "Cannot read properties of undefined (reading 'waitForSelector')"
      else Ok []
  end.

Definition logScrapingSession (type status : string) (itemsProcessed errorsCount : Z)
    (startTime : Z) (errorMessage : option string) : M Sys.t unit :=
  try_catch
    (let* t := database Database.now in
     database (Database.insert_log type status itemsProcessed errorsCount (t - startTime)
                 errorMessage))
    (fun _ => ret tt).

Definition processAndSaveJob (jobData : JobData.t) : M Sys.t unit :=
  try_catch
    (let* existingJob :=
       match JobData.jobId jobData with
       | Some key => database (Database.get_job key)
       | None => database Database.handle >> ret None   (* job_id = NULL matches no row *)
       end in
     match existingJob with
     | Some _ => ret tt
     | None => database (Database.insertJob jobData)
     end)
    (fun error => throw error).

Definition applySearchFilters (site : Site.t) (filters : SearchFilters.t) : M Sys.t unit :=
  try_catch
    (match SearchFilters.keywords filters with
     | [] => ret tt
     | _ :: _ =>
         match Site.search_error site with
         | Some msg => throw msg
         | None => BrowserManager.humanLikeDelay "searchByKeywords" 1000 2000
         end
     end)
    (fun error => throw error).

(** What [this.scrapeJobListings(filters.maxJobs)] binds to [page]. *)
Definition page_argument (filters : SearchFilters.t) : PageArg :=
  match SearchFilters.maxJobs filters with
  | Some n => NumberArg n
  | None => UndefinedArg
  end.

Definition scrapeJobs (env : Env.t) (site : Site.t) (searchFilters : SearchFilters.t)
    (customFilters : option SearchFilters.t) : M Sys.t (list JobData.t) :=
  let* startTime := database Database.now in
  try_catch
    (LinkedInAuth.ensureLoggedIn env site >>
     LinkedInAuth.navigateToJobs site >>
     let filters := default searchFilters customFilters in
     applySearchFilters site filters >>
     (* this.scrapeJobListings(filters.maxJobs): one argument, bound to [page] *)
     let* scrapedJobs := (fun s => (scrapeJobListings (page_argument filters) 100, s)) in
     let* errorsCount :=
       for_of scrapedJobs 0 (fun job errorsCount =>
         try_catch (processAndSaveJob job >> ret errorsCount)
                   (fun _ => ret (errorsCount + 1))) in
     logScrapingSession "job_scrape" "success" (Z.of_nat (length scrapedJobs)) errorsCount
       startTime None >>
     ret scrapedJobs)
    (fun error =>
       (* nothing was assigned to [scrapedJobs] or counted before a rejection *)
       logScrapingSession "job_scrape" "error" 0 0 startTime (Some error) >>
       throw error).

End JobScraper.

(* ===================================================================== *)
(** ** Small pieces of SQL and JavaScript used below *)
(* ===================================================================== *)

(** [a || b] on strings that may be absent. *)
Definition js_or (a : option string) (b : option string) : option string :=
  if Env.truthy a then a else b.

Definition lower_char (c : Ascii.ascii) : Ascii.ascii :=
  let n := Ascii.nat_of_ascii c in
  if (65 <=? n)%nat && (n <=? 90)%nat then Ascii.ascii_of_nat (n + 32) else c.

Fixpoint lower (s : string) : string :=
  match s with
  | EmptyString => EmptyString
  | String c rest => String (lower_char c) (lower rest)
  end.

(** [s.includes(sub)]. *)
Definition includes (s sub : string) : bool :=
  match String.index 0 sub s with
  | Some _ => true
  | None => false
  end.

(** [ORDER BY]: a stable insertion sort for a "comes first" test. *)
Fixpoint insert_by {A} (first : A -> A -> bool) (x : A) (l : list A) : list A :=
  match l with
  | [] => [x]
  | y :: rest => if first x y then x :: l else y :: insert_by first x rest
  end.

Fixpoint order_by {A} (first : A -> A -> bool) (l : list A) : list A :=
  match l with
  | [] => []
  | x :: rest => insert_by first x (order_by first rest)
  end.

(** [DESC] on a nullable number: NULL sorts last. *)
Definition desc (a b : option Z) : bool :=
  match a, b with
  | Some x, Some y => y <=? x
  | Some _, None => true
  | None, Some _ => false
  | None, None => true
  end.

(** [LIMIT n]: a negative [n] is no limit. *)
Definition limit {A} (n : Z) (l : list A) : list A :=
  if n <? 0 then l else firstn (Z.to_nat n) l.

(* ===================================================================== *)
(** ** class ApplicationTracker *)
(* ===================================================================== *)

Module StatusUpdate.
(** [{ status, ...additionalDetails, lastChecked }]. *)
Record t := mk {
  status : string;
  recruiterContact : option string;
  notes : option string;
  lastChecked : Z
}.
End StatusUpdate.

Module ApplicationTracker.

(** [JSON.parse] of the stored history, [[]] when absent or rejected. *)
Definition parse_history (column : option JsonText) : list HistoryEntry.t :=
  match column with
  | Some (Stringified h) => h
  | Some (Unparsable _) => []
  | None => []
  end.

(** [UPDATE applications SET status = ?, last_checked = ?, status_history
    = ?, recruiter_contact = ?, notes = ? WHERE application_id = ?]. *)
Definition update_row (aid : option string) (status : string) (lastChecked : Z)
    (history : list HistoryEntry.t) (recruiter notes : option string)
    (r : AppRow.t) : AppRow.t :=
  match aid with
  | Some k =>
      if Database.same_key k (AppRow.application_id r)
      then AppRow.mk (AppRow.job_id r) (AppRow.application_id r) (Some status)
             (AppRow.applied_at r) lastChecked (Some (Stringified history)) recruiter notes
      else r
  | None => r    (* application_id = NULL is true of no row *)
  end.

Definition updateApplicationStatus (application : AppRow.t) (statusUpdate : StatusUpdate.t)
    : M Sys.t unit :=
  try_catch
    (let statusHistory := parse_history (AppRow.status_history application) in
     let statusHistory :=
       statusHistory ++
       [HistoryEntry.mk (StatusUpdate.status statusUpdate)
          (StatusUpdate.lastChecked statusUpdate)
          (AppRow.status application)] in
     database
       (Database.handle >>
        modify (Database.set_applications (map
          (update_row (AppRow.application_id application)
             (StatusUpdate.status statusUpdate)
             (StatusUpdate.lastChecked statusUpdate)
             statusHistory
             (js_or (StatusUpdate.recruiterContact statusUpdate)
                    (AppRow.recruiter_contact application))
             (js_or (StatusUpdate.notes statusUpdate) (AppRow.notes application)))))))
    (fun error => throw error).

(** The first candidate element whose text names the job's title and
    company; any rejection inside gives [null]. *)
Definition findApplicationElement (site : Site.t) (application : AppRow.t)
    : M Sys.t (option StatusCard.t) :=
  try_catch
    (match Site.application_cards site application with
     | [] => ret None
     | elements =>
         let* job := database (Database.get_job (AppRow.job_id application)) in
         match job with
         | Some j =>
             ret (find (fun el =>
                    includes (StatusCard.innerText el) (JobRow.title j)
                    && includes (StatusCard.innerText el) (JobRow.company j)) elements)
         | None => ret None
         end
     end)
    (fun _ => ret None).

(** [UPDATE applications SET last_checked = CURRENT_TIMESTAMP WHERE
    application_id = ?]. *)
Definition touch (aid : option string) : M Database.t unit :=
  Database.handle >>
  let* ts := Database.now in
  modify (Database.set_applications (map (fun r =>
    match aid with
    | Some k =>
        if Database.same_key k (AppRow.application_id r)
        then AppRow.mk (AppRow.job_id r) (AppRow.application_id r) (AppRow.status r)
               (AppRow.applied_at r) ts (AppRow.status_history r)
               (AppRow.recruiter_contact r) (AppRow.notes r)
        else r
    | None => r
    end))).

Definition changed (currentStatus : option string) (stored : option string) : bool :=
  Env.truthy currentStatus
  && negb (match currentStatus, stored with
           | Some a, Some b => String.eqb a b
           | None, None => true
           | _, _ => false
           end).

Definition checkApplicationStatus (site : Site.t) (application : AppRow.t)
    : M Sys.t (option StatusUpdate.t) :=
  try_catch
    (let* applicationElement := findApplicationElement site application in
     match applicationElement with
     | None => ret None
     | Some el =>
         let currentStatus := StatusCard.shownStatus el in
         if changed currentStatus (AppRow.status application) then
           let* t := database Database.now in
           ret (Some (StatusUpdate.mk (default EmptyString currentStatus)
                        (StatusCard.recruiterContact el) (StatusCard.notes el) t))
         else
           database (touch (AppRow.application_id application)) >> ret None
     end)
    (fun error => throw error).

Definition logTrackingSession (type status : string) (itemsProcessed errorsCount updatedCount : Z)
    (startTime : Z) (errorMessage : option string) : M Sys.t unit :=
  try_catch
    (let* t := database Database.now in
     database (Database.insert_log type status itemsProcessed errorsCount (t - startTime)
                 errorMessage))
    (fun _ => ret tt).

Definition navigateToApplicationsPage (site : Site.t) : M Sys.t bool :=
  try_catch
    (page_action (EvGoto "https://www.linkedin.com/my-items/saved-jobs/")
       (Site.applications_nav_error site) >>
     ret true)
    (fun error => throw error).

Record Counts := mkCounts { checkedCount : Z; updatedCount : Z; errorsCount : Z }.

(** [SELECT * FROM applications ORDER BY applied_at DESC]. *)
Definition all_applications : M Database.t (list AppRow.t) :=
  Database.handle >>
  let* d := get_state in
  ret (order_by (fun a b => desc (AppRow.applied_at a) (AppRow.applied_at b))
         (Database.applications d)).

Definition trackApplications (env : Env.t) (site : Site.t) : M Sys.t Counts :=
  let* startTime := database Database.now in
  try_catch
    (LinkedInAuth.ensureLoggedIn env site >>
     navigateToApplicationsPage site >>
     let* applications := database all_applications in
     let* c :=
       for_of applications (mkCounts 0 0 0) (fun application c =>
         try_catch
           (let* statusUpdate := checkApplicationStatus site application in
            let* updated :=
              match statusUpdate with
              | Some u => updateApplicationStatus application u >> ret (updatedCount c + 1)
              | None => ret (updatedCount c)
              end in
            BrowserManager.humanLikeDelay "trackApplications" 2000 4000 >>
            ret (mkCounts (checkedCount c + 1) updated (errorsCount c)))
           (fun _ => ret (mkCounts (checkedCount c) (updatedCount c) (errorsCount c + 1)))) in
     logTrackingSession "application_check" "success" (checkedCount c) (errorsCount c)
       (updatedCount c) startTime None >>
     ret c)
    (fun error =>
       (* a rejection reaches here only before the loop: the counters are 0 *)
       logTrackingSession "application_check" "error" 0 0 0 startTime (Some error) >>
       throw error).

(** [addManualApplication(jobId, applicationData)]; the [jobId] field of
    [applicationData] is not read. *)
Definition addManualApplication (jobId : option string) (applicationData : ApplicationData.t)
    : M Sys.t string :=
  try_catch
    (let* t := database Database.now in
     let applicationId :=
       default ("manual_" +:+ pretty t)
         (js_or (ApplicationData.applicationId applicationData) None) in
     database (Database.insertApplication
       (ApplicationData.mk jobId (Some applicationId)
          (js_or (ApplicationData.status applicationData) (Some "Applied"))
          (match ApplicationData.appliedAt applicationData with
           | Some a => Some a
           | None => Some t
           end)
          (ApplicationData.recruiterContact applicationData)
          (ApplicationData.notes applicationData))) >>
     match jobId with
     | Some key => database (Database.mark_applied key)
     | None => database Database.handle
     end >>
     ret applicationId)
    (fun error => throw error).

End ApplicationTracker.

(* ===================================================================== *)
(** ** class AutoApplicant *)
(* ===================================================================== *)

Module ApplyFilters.
Record t := mk {
  minMatchScore : option Z;
  keywords : option (list string);
  excludeCompanies : option (list string)
}.
End ApplyFilters.

Module AutoApplicant.

Record t := mk {
  maxApplicationsPerDay : Z;
  applicationDelay : Z;
  autoApplyEnabled : bool
}.

Definition constructor (env : Env.t) : t :=
  mk (Env.int_or (Env.MAX_APPLICATIONS_PER_DAY env) 20)
     (Env.int_or (Env.APPLICATION_DELAY_MS env) 5000)
     (Env.equals (Env.AUTO_APPLY_ENABLED env) "true").

Record Result := mkResult { appliedCount : Z; skippedCount : Z; errorsCount : Z }.

Definition getTodayApplicationsCount : M Sys.t Z :=
  try_catch
    (let* n := database Database.count_today_applications in ret (Z.of_nat n))
    (fun _ => ret 0).

(** [LOWER(title || " " || description) LIKE LOWER('%k%')]; a NULL
    description makes the test NULL.  Keywords are taken without the LIKE
    wildcards [%] and [_]. *)
Definition like_keyword (r : JobRow.t) (k : string) : bool :=
  match JobRow.description r with
  | Some d => includes (lower (JobRow.title r +:+ " " +:+ d)) (lower k)
  | None => false
  end.

Definition three_days : Z := 3 * day_ms.

(** The WHERE clause of [getJobsToApply]; [None] when the text built is
    not SQL (an empty list leaves [AND ()]). *)
Definition where_clause (filters : option ApplyFilters.t) (now : Z)
    : option (JobRow.t -> bool) :=
  let base (r : JobRow.t) := negb (JobRow.is_applied r) && (now - three_days <=? JobRow.scraped_at r) in
  match filters with
  | None => Some base
  | Some f =>
      let score (r : JobRow.t) :=
        match ApplyFilters.minMatchScore f with
        | Some m =>
            if m =? 0 then true
            else match JobRow.match_score r with
                 | Some v => m <=? v
                 | None => false
                 end
        | None => true
        end in
      match ApplyFilters.keywords f, ApplyFilters.excludeCompanies f with
      | Some [], _ => None
      | _, Some [] => None
      | ks, cs =>
          Some (fun r =>
            base r && score r
            && match ks with
               | Some l => existsb (like_keyword r) l
               | None => true
               end
            && match cs with
               | Some l => forallb (fun c => negb (String.eqb (JobRow.company r) c)) l
               | None => true
               end)
      end
  end.

(** [ORDER BY match_score DESC, scraped_at DESC]. *)
Definition best_first (a b : JobRow.t) : bool :=
  match JobRow.match_score a, JobRow.match_score b with
  | Some x, Some y => if x =? y then JobRow.scraped_at b <=? JobRow.scraped_at a else y <? x
  | None, None => JobRow.scraped_at b <=? JobRow.scraped_at a
  | sa, sb => desc sa sb
  end.

Definition getJobsToApply (filters : option ApplyFilters.t) (limit_ : Z) : M Sys.t (list JobRow.t) :=
  try_catch
    (database Database.handle >>
     let* s := get_state in
     let d := Sys.store s in
     match where_clause filters (Database.clock d) with
     | None => throw "SQLITE_ERROR: near ')': syntax error"
     | Some keep => ret (limit limit_ (order_by best_first (List.filter keep (Database.jobs d))))
     end)
    (fun _ => ret []).

(** [applyToJob] catches every rejection and resolves with an object. *)
Definition applyToJob (site : Site.t) (job : JobRow.t) : M Sys.t ApplyResult.t :=
  emit (EvApply (JobRow.job_id job)) >> ret (Site.apply_result site job).

Definition recordApplication (job : JobRow.t) (applicationResult : ApplyResult.t) : M Sys.t unit :=
  try_catch
    (let* t := database Database.now in
     database (Database.insertApplication
       (ApplicationData.mk (Some (JobRow.job_id job))
          (ApplyResult.applicationId applicationResult)
          (Some "Applied") (Some t) None
          (Some ("Auto-applied via " +:+ default "undefined" (ApplyResult.method applicationResult))))) >>
     database (Database.mark_applied (JobRow.job_id job)))
    (fun error => throw error).

Definition logApplicationSession (type status : string) (itemsProcessed errorsCount : Z)
    (startTime : Z) (errorMessage : option string) : M Sys.t unit :=
  try_catch
    (let* t := database Database.now in
     database (Database.insert_log type status itemsProcessed errorsCount (t - startTime)
                 errorMessage))
    (fun _ => ret tt).

(** The [try { ... } catch { errorsCount++ }] block of the loop, on the
    three counters. *)
Definition apply_one (this : t) (site : Site.t) (job : JobRow.t) (c : Result) : M Sys.t Result :=
  try_catch
    (let* applicationResult := applyToJob site job in
     let* c1 :=
       if ApplyResult.success applicationResult then
         recordApplication job applicationResult >>
         ret (mkResult (appliedCount c + 1) (skippedCount c) (errorsCount c))
       else ret (mkResult (appliedCount c) (skippedCount c + 1) (errorsCount c)) in
     BrowserManager.humanLikeDelay "autoApplyToJobs"
       (applicationDelay this) (applicationDelay this + 2000) >>
     ret c1)
    (fun _ => ret (mkResult (appliedCount c) (skippedCount c) (errorsCount c + 1))).

(** [for (const job of jobs) { try { ... } catch { errorsCount++ }
    if (appliedCount >= remainingApplications) break; }]. *)
Fixpoint apply_loop (this : t) (site : Site.t) (remainingApplications : Z)
    (jobs : list JobRow.t) (c : Result) : M Sys.t Result :=
  match jobs with
  | [] => ret c
  | job :: rest =>
      let* c' := apply_one this site job c in
      if remainingApplications <=? appliedCount c' then ret c'
      else apply_loop this site remainingApplications rest c'
  end.

Definition autoApplyToJobs (this : t) (env : Env.t) (site : Site.t)
    (filters : option ApplyFilters.t) : M Sys.t Result :=
  if negb (autoApplyEnabled this) then ret (mkResult 0 0 0)
  else
    let* startTime := database Database.now in
    try_catch
      (let* todayApplications := getTodayApplicationsCount in
       if maxApplicationsPerDay this <=? todayApplications then ret (mkResult 0 0 0)
       else
         let remainingApplications := maxApplicationsPerDay this - todayApplications in
         LinkedInAuth.ensureLoggedIn env site >>
         let* jobs := getJobsToApply filters remainingApplications in
         let* c := apply_loop this site remainingApplications jobs (mkResult 0 0 0) in
         logApplicationSession "auto_apply" "success" (appliedCount c) (errorsCount c)
           startTime None >>
         ret c)
      (fun error =>
         (* nothing inside the [try] rejects after a counter has moved *)
         logApplicationSession "auto_apply" "error" 0 0 startTime (Some error) >>
         throw error).

End AutoApplicant.

(* ===================================================================== *)
(** ** The route that creates a manual application (POST /api/applications) *)
(* ===================================================================== *)

Module Routes.

Record Response := mkResponse {
  code : nat;
  message : string;
  applicationId : option string
}.

Definition postApplication (jobId : option string) (status : option string)
    (notes recruiterContact : option string) : M Database.t Response :=
  try_catch
    (match js_or jobId None with
     | None => ret (mkResponse 400 "Job ID is required" None)
     | Some key =>
         let* job := Database.get_job key in
         match job with
         | None => ret (mkResponse 404 "Job not found" None)
         | Some _ =>
             let* existingApplication := Database.get_application_by_job key in
             match existingApplication with
             | Some _ => ret (mkResponse 400 "Application already exists for this job" None)
             | None =>
                 let* t := Database.now in
                 let applicationId := "manual_" +:+ pretty t in
                 Database.insertApplication
                   (ApplicationData.mk (Some key) (Some applicationId)
                      (Some (default "Applied" status)) (Some t) recruiterContact notes) >>
                 Database.mark_applied key >>
                 ret (mkResponse 201 "Application created successfully" (Some applicationId))
             end
         end
     end)
    (fun _ => ret (mkResponse 500 "Internal server error" None)).

End Routes.

(* ===================================================================== *)
(** ** class Scheduler *)
(* ===================================================================== *)

Inductive Task : Type :=
| JobScraping          (* jobScraper.scrapeJobs() *)
| ApplicationTracking  (* applicationTracker.trackApplications() *)
| CompanyScraping      (* companyScraper.scrapeCompanies() *)
| AutoApplication      (* autoApplicant.autoApplyToJobs() *)
| DailyTasks.          (* report, cleanup, counters *)

Definition Task_eqb (a b : Task) : bool :=
  match a, b with
  | JobScraping, JobScraping
  | ApplicationTracking, ApplicationTracking
  | CompanyScraping, CompanyScraping
  | AutoApplication, AutoApplication
  | DailyTasks, DailyTasks => true
  | _, _ => false
  end.

Module Timer.
(** A node-cron task: its schedule, what its callback runs, and whether
    it is started. *)
Record t := mk {
  expression : string;
  task : Task;
  started : bool
}.
End Timer.

Module Scheduler.

(** The scheduler object, and beside it the executions whose promise has
    not settled yet (the event loop's, not a field of the class). *)
Record t := mk {
  jobs : gmap string Timer.t;
  isRunning : bool;
  in_flight : list Task
}.

Definition initial : t := mk ∅ false [].

Definition every (minutes : Z) : string := "*/" +:+ pretty minutes +:+ " * * * *".

Definition schedule (name : string) (expression : string) (task : Task) (s : t) : t :=
  mk (<[name := Timer.mk expression task true]> (jobs s)) (isRunning s) (in_flight s).

Definition scheduleJobScraping (intervalMinutes : Z) : t -> t :=
  schedule "jobScraping" (every intervalMinutes) JobScraping.
Definition scheduleApplicationTracking (intervalMinutes : Z) : t -> t :=
  schedule "applicationTracking" (every intervalMinutes) ApplicationTracking.
Definition scheduleCompanyScraping (intervalMinutes : Z) : t -> t :=
  schedule "companyScraping" (every intervalMinutes) CompanyScraping.
Definition scheduleAutoApplication (intervalMinutes : Z) : t -> t :=
  schedule "autoApplication" (every intervalMinutes) AutoApplication.
Definition scheduleDailyTasks : t -> t :=
  schedule "dailyTasks" "0 2 * * *" DailyTasks.

Definition start (scrapeInterval : Z) (env : Env.t) (s : t) : t :=
  if isRunning s then s
  else
    let s := mk (jobs s) true (in_flight s) in
    let s := scheduleJobScraping scrapeInterval s in
    let s := scheduleApplicationTracking 30 s in
    let s := scheduleCompanyScraping 120 s in
    let s := if Env.equals (Env.AUTO_APPLY_ENABLED env) "true"
             then scheduleAutoApplication 60 s else s in
    scheduleDailyTasks s.

Definition stop (s : t) : t :=
  if isRunning s then mk ∅ false (in_flight s) else s.

Definition set_started (b : bool) (name : string) (s : t) : t :=
  match jobs s !! name with
  | Some timer =>
      mk (<[name := Timer.mk (Timer.expression timer) (Timer.task timer) b]> (jobs s))
         (isRunning s) (in_flight s)
  | None => s
  end.

Definition pauseJob : string -> t -> t := set_started false.
Definition resumeJob : string -> t -> t := set_started true.

(** Calling an [async] method: the execution is in flight from the call
    until its promise settles. *)
Definition launch (task : Task) (s : t) : t :=
  mk (jobs s) (isRunning s) (in_flight s ++ [task]).

(** The callback node-cron runs when the timer [name] fires at local
    hour [hour]. *)
Definition callback (task : Task) (hour : Z) (s : t) : t :=
  match task with
  | AutoApplication => if (9 <=? hour) && (hour <=? 17) then launch task s else s
  | _ => launch task s
  end.

Fixpoint remove_one (task : Task) (l : list Task) : list Task :=
  match l with
  | [] => []
  | x :: rest => if Task_eqb x task then rest else x :: remove_one task rest
  end.

Inductive Input : Type :=
| Start (scrapeInterval : Z) (env : Env.t)   (* scheduler.start() *)
| Stop                                       (* scheduler.stop() *)
| Fire (name : string) (hour : Z)            (* the timer's schedule comes due *)
| Trigger (task : Task)                      (* triggerJobScraping() and its siblings *)
| Pause (name : string)
| Resume (name : string)
| Settle (task : Task).                      (* one execution's promise settles *)

Definition step (s : t) (i : Input) : t :=
  match i with
  | Start scrapeInterval env => start scrapeInterval env s
  | Stop => stop s
  | Fire name hour =>
      match jobs s !! name with
      | Some timer => if Timer.started timer then callback (Timer.task timer) hour s else s
      | None => s
      end
  | Trigger task => launch task s
  | Pause name => pauseJob name s
  | Resume name => resumeJob name s
  | Settle task => mk (jobs s) (isRunning s) (remove_one task (in_flight s))
  end.

Definition run (s : t) (inputs : list Input) : t := fold_left step inputs s.

(** How many executions of [task] are in flight. *)
Definition executing (task : Task) (s : t) : nat :=
  length (List.filter (Task_eqb task) (in_flight s)).

End Scheduler.

(* ===================================================================== *)
(** ** Concrete stores, sites and inputs used in the examples *)
(* ===================================================================== *)

Definition empty_store : Database.t := Database.mk true 0 [] [] [].

Definition fresh (d : Database.t) : Sys.t := Sys.mk d false O O [].

(** The job of the scrape scenario, with a given match score. *)
Definition job_123 (score : Z) : JobData.t :=
  JobData.mk (Some "123") (Some "Engineer") (Some "Acme") None None None None None
    None None None (Some score) None.

Definition manual (aid : string) : ApplicationData.t :=
  ApplicationData.mk None (Some aid) None None None None.

(** The rows of [jobs] with a given natural key. *)
Definition rows_of_job (key : string) (d : Database.t) : list JobRow.t :=
  List.filter (fun r => String.eqb (JobRow.job_id r) key) (Database.jobs d).

(** The rows of [applications] that reference a given job. *)
Definition applications_of_job (key : string) (d : Database.t) : list AppRow.t :=
  List.filter (fun r => String.eqb (AppRow.job_id r) key) (Database.applications d).

(** Time passing between two calls. *)
Definition later (ms : Z) (s : Sys.t) : Sys.t :=
  Sys.set_store (Database.elapse ms (Sys.store s)) s.

(** A store that holds the job of the scenario. *)
Definition store_with_job_123 : Database.t :=
  snd (Database.insertJob (job_123 40) empty_store).

(** [addManualApplication(jobId, {})]. *)
Definition no_details : ApplicationData.t :=
  ApplicationData.mk None None None None None None.

(** The application row the store holds under an [application_id]. *)
Definition stored_application (aid : string) (s : Sys.t) : option AppRow.t :=
  find (fun r => Database.same_key aid (AppRow.application_id r))
    (Database.applications (Sys.store s)).

Definition history_of (aid : string) (s : Sys.t) : list HistoryEntry.t :=
  match stored_application aid s with
  | Some row => ApplicationTracker.parse_history (AppRow.status_history row)
  | None => []
  end.

(** Status updates to one application in sequence, each made from the row
    as the store holds it when the update starts. *)
Fixpoint apply_updates (aid : string) (updates : list StatusUpdate.t) (s : Sys.t) : Sys.t :=
  match updates with
  | [] => s
  | u :: rest =>
      match stored_application aid s with
      | Some row =>
          apply_updates aid rest (snd (ApplicationTracker.updateApplicationStatus row u s))
      | None => s
      end
  end.

(** The entries a run of updates appends after status [previous]. *)
Fixpoint chain (previous : option string) (updates : list StatusUpdate.t) : list HistoryEntry.t :=
  match updates with
  | [] => []
  | u :: rest =>
      HistoryEntry.mk (StatusUpdate.status u) (StatusUpdate.lastChecked u) previous
      :: chain (Some (StatusUpdate.status u)) rest
  end.

(** A store that holds the job of the scenario and one application for
    it, as [insertApplication] wrote it. *)
Definition store_with_application : Database.t :=
  snd (Database.insertApplication
         (ApplicationData.mk (Some "123") (Some "A1") (Some "Applied") (Some 0) None None)
         store_with_job_123).

Definition viewed : StatusUpdate.t := StatusUpdate.mk "Application viewed" None None 1000.
Definition shortlisted : StatusUpdate.t := StatusUpdate.mk "Shortlisted" None None 2000.

(** The applications the store holds that are dated today. *)
Definition today_count (d : Database.t) : nat :=
  length (List.filter (Database.applied_today (date (Database.clock d)))
            (Database.applications d)).

Definition applications_stored (s : Sys.t) : nat :=
  length (Database.applications (Sys.store s)).

Definition runs_logged (s : Sys.t) : nat :=
  length (Database.scraping_logs (Sys.store s)).

(** An environment with auto-apply switched on, a cap of two
    applications a day and a headless browser. *)
Definition env_on : Env.t :=
  Env.mk (Some "true") (Some "true") (Some "me@example.org") (Some "secret")
    (Some 2) None None.

(** The same with auto-apply switched off. *)
Definition env_off : Env.t :=
  Env.mk (Some "true") (Some "false") (Some "me@example.org") (Some "secret")
    (Some 2) None None.

(** A login that goes through without any challenge. *)
Definition smooth_login : LoginWorld.t :=
  LoginWorld.mk None O "net::ERR_TIMED_OUT" false None ChallengeView.none None true.

(** A site where everything works and every application succeeds. *)
Definition friendly_site : Site.t :=
  Site.mk true true (fun _ => smooth_login) None None None (fun _ => [])
    (fun job => ApplyResult.mk true (Some ("easy_apply_" +:+ JobRow.job_id job))
                  (Some "easy_apply") None).

Definition job_numbered (n : string) : JobData.t :=
  JobData.mk (Some n) (Some "Engineer") (Some "Acme") None None (Some "Builds things") None None
    None None None (Some 50) None.

Definition applied_at (jid aid : string) (ts : Z) : ApplicationData.t :=
  ApplicationData.mk (Some jid) (Some aid) (Some "Applied") (Some ts) None None.

(** Five eligible jobs and [k] applications dated today. *)
Definition five_jobs : Database.t :=
  fold_left (fun d n => snd (Database.insertJob (job_numbered n) d))
    ["1"; "2"; "3"; "4"; "5"] empty_store.

Definition five_jobs_one_applied : Database.t :=
  snd (Database.insertApplication (applied_at "x1" "X1" 0) five_jobs).

Definition five_jobs_two_applied : Database.t :=
  snd (Database.insertApplication (applied_at "x2" "X2" 0) five_jobs_one_applied).

(** What the audit trail depends on: the store handle and the rows of
    [scraping_logs]. *)
Definition audit_trail (d : Database.t) : bool * list LogRow.t :=
  (Database.db d, Database.scraping_logs d).

Definition audit (s : Sys.t) : bool * list LogRow.t := audit_trail (Sys.store s).

(** Exactly one RunOutcome of the given type and status was appended
    between [s] and [s']. *)
Definition one_more (type status : string) (s s' : Sys.t) : Prop :=
  exists row,
    Database.scraping_logs (Sys.store s') = Database.scraping_logs (Sys.store s) ++ [row]
    /\ LogRow.type row = type
    /\ LogRow.status row = status.

(** The errors with which a challenge is reported when nobody is
    expected at the keyboard, and the other errors the login path throws
    itself. *)
Definition challenge_errors : list string :=
  ["Email verification required";
   "CAPTCHA detected in headless mode - cannot proceed";
   "Phone verification required";
   "PIN verification required"].

Definition is_challenge_error (msg : string) : bool :=
  existsb (String.eqb msg) challenge_errors.

Definition other_login_errors : list string :=
  ["LinkedIn credentials not provided";
   "Login verification failed";
   "Not logged in to LinkedIn"].

(** A login world in which [login()] gets as far as
    [handleLoginChallenges]. *)
Definition reaches_challenges (env : Env.t) (w : LoginWorld.t) : bool :=
  Env.truthy (Env.LINKEDIN_EMAIL env) && Env.truthy (Env.LINKEDIN_PASSWORD env)
  && match LoginWorld.launch_error w with Some _ => false | None => true end
  && (LoginWorld.goto_failures w <? 3)%nat
  && negb (LoginWorld.already_in w)
  && match LoginWorld.form_error w with Some _ => false | None => true end.

(** The events [login()] has produced when it enters
    [handleLoginChallenges] after [n] failed navigations. *)
Fixpoint navigation_events (n : nat) : list Event :=
  match n with
  | O => [EvGoto LinkedInAuth.loginUrl]
  | S n' =>
      EvGoto LinkedInAuth.loginUrl :: EvDelay "login" 2000 4000 :: navigation_events n'
  end.

Definition is_stdin (e : Event) : bool :=
  match e with
  | EvStdin _ => true
  | _ => false
  end.

(** How often the run has waited for the operator. *)
Definition operator_waits (s : Sys.t) : nat := length (List.filter is_stdin (Sys.trace s)).

(** An environment without [HEADLESS_MODE]: the operator sits at the
    browser. *)
Definition env_desk : Env.t :=
  Env.mk None (Some "true") (Some "me@example.org") (Some "secret") (Some 2) None None.

Definition captcha_only : ChallengeView.t :=
  ChallengeView.mk false false false true false false.

(** A login that meets a verification-code page. *)
Definition challenged_login : LoginWorld.t :=
  LoginWorld.mk None O "net::ERR_TIMED_OUT" false None
    (ChallengeView.mk true true false false false false) None true.

(** A site that answers every login with that challenge. *)
Definition challenging_site : Site.t :=
  Site.mk true false (fun _ => challenged_login) None None None (fun _ => [])
    (fun _ => ApplyResult.mk false None None (Some "No apply button found")).

(** The waits [ensureLoggedIn] itself inserts between login attempts. *)
Definition is_retry_delay (e : Event) : bool :=
  match e with
  | EvDelay who _ _ => String.eqb who "ensureLoggedIn"
  | _ => false
  end.

Definition retry_delays (s : Sys.t) : list Event :=
  List.filter is_retry_delay (Sys.trace s).

(** A result page with one job card and a disabled Next button. *)
Definition last_page : nat -> BatchView.t :=
  fun _ => BatchView.mk [Card.Shown "123" (Some (job_123 40))] None NextDisabled.

(** A result list that keeps showing the same two cards. *)
Definition stale_page : nat -> BatchView.t :=
  fun _ => BatchView.mk [Card.Shown "1" (Some (job_numbered "1"));
                         Card.Shown "2" (Some (job_numbered "2"))] None NextEnabled.

Definition found (st : JobScraper.Listing) : Z := Z.of_nat (length (JobScraper.jobs st)).

(** What bounds the passes of the listing loop that are still to come. *)
Definition passes_left (maxJobs : Z) (st : JobScraper.Listing) : nat :=
  (3 * Z.to_nat (maxJobs - found st) + (3 - JobScraper.consecutiveNoNewJobs st))%nat.

(** The state in which [scrapeJobListings] leaves its loop normally. *)
Definition stopped_because (views : nat -> BatchView.t) (maxJobs : Z)
    (st : JobScraper.Listing) : Prop :=
  maxJobs <= found st
  \/ (JobScraper.consecutiveNoNewJobs st = 3%nat /\ found st < maxJobs)
  \/ (found st < maxJobs
      /\ (JobScraper.consecutiveNoNewJobs st < 3)%nat
      /\ exists n, JobScraper.batches st = S n
                  /\ BatchView.next_button (views n) = NextDisabled).

(** Where the loop ends on the stale result list with a target of 50. *)
Definition stale_result : JobScraper.Listing :=
  match JobScraper.listing_loop (JobScraper.enough_fuel 50) stale_page 50 JobScraper.start with
  | Some (Ok st) => st
  | _ => JobScraper.start
  end.

(** A view of the store, read through the state of a service. *)
Definition through {X} (v : Database.t -> X) (s : Sys.t) : X := v (Sys.store s).

(** What application tracking must leave alone: the rows of [jobs] and
    the number of rows of [applications]. *)
Definition tracked_rows (d : Database.t) : list JobRow.t * nat :=
  (Database.jobs d, length (Database.applications d)).


(** What the three counters of [trackApplications] satisfy after [n]
    applications. *)
Definition counted (n : nat) (c : ApplicationTracker.Counts) : Prop :=
  ApplicationTracker.checkedCount c + ApplicationTracker.errorsCount c = Z.of_nat n
  /\ 0 <= ApplicationTracker.updatedCount c <= ApplicationTracker.checkedCount c
  /\ 0 <= ApplicationTracker.errorsCount c.

(** The rows of [jobs] and of [applications]. *)
Definition job_and_application_rows (d : Database.t) : list JobRow.t * list AppRow.t :=
  (Database.jobs d, Database.applications d).

(* ===================================================================== *)
(** ** LinkedInAuth and JobScraper: closing the session, the fresh start *)
(* ===================================================================== *)

Module Session.

(** [LinkedInAuth.close]: [await this.browserManager.close();
    this.isLoggedIn = false]. *)
Definition close : M Sys.t unit :=
  BrowserManager.close >> modify (Sys.set_isLoggedIn false).

(** [scrapeJobsWithFreshStart(customFilters = null, freshStart = true)]:
    [scrapeJobs] behind [this.auth.close(); this.auth = new LinkedInAuth()]
    (a new object is not logged in), with its own failure row. *)
Definition scrapeJobsWithFreshStart (env : Env.t) (site : Site.t)
    (searchFilters : SearchFilters.t) (customFilters : option SearchFilters.t)
    (freshStart : bool) : M Sys.t (list JobData.t) :=
  let* startTime := database Database.now in
  try_catch
    ((if freshStart then close else ret tt) >>
     LinkedInAuth.ensureLoggedIn env site >>
     LinkedInAuth.navigateToJobs site >>
     let filters := default searchFilters customFilters in
     JobScraper.applySearchFilters site filters >>
     let* scrapedJobs :=
       (fun s => (JobScraper.scrapeJobListings (JobScraper.page_argument filters) 100, s)) in
     let* errorsCount :=
       for_of scrapedJobs 0 (fun job errorsCount =>
         try_catch (JobScraper.processAndSaveJob job >> ret errorsCount)
                   (fun _ => ret (errorsCount + 1))) in
     JobScraper.logScrapingSession "job_scrape" "success" (Z.of_nat (length scrapedJobs))
       errorsCount startTime None >>
     ret scrapedJobs)
    (fun error =>
       JobScraper.logScrapingSession "job_scrape" "failed" 0 1 startTime None >>
       throw error).

End Session.

(* ===================================================================== *)
(** ** Inputs of the scheduler, by what they can start *)
(* ===================================================================== *)

(** Neither [start()] nor a manual trigger. *)
Definition neither_start_nor_trigger (i : Scheduler.Input) : bool :=
  match i with
  | Scheduler.Start _ _ | Scheduler.Trigger _ => false
  | _ => true
  end.

(** Anything but [triggerAutoApplication()] and a [start()] under
    [AUTO_APPLY_ENABLED=true]. *)
Definition auto_apply_not_asked_for (i : Scheduler.Input) : bool :=
  match i with
  | Scheduler.Start _ env => negb (Env.equals (Env.AUTO_APPLY_ENABLED env) "true")
  | Scheduler.Trigger task => negb (Task_eqb task AutoApplication)
  | _ => true
  end.

(* ===================================================================== *)
(** ** JobScraper: the pure helpers of [scrapeJobCard] *)
(* ===================================================================== *)

Module JobCard.

(** [\d] and [[a-z0-9]] on one character. *)
Definition is_digit (c : Ascii.ascii) : bool :=
  let n := Ascii.nat_of_ascii c in (48 <=? n)%nat && (n <=? 57)%nat.

Definition is_lower_or_digit (c : Ascii.ascii) : bool :=
  let n := Ascii.nat_of_ascii c in
  is_digit c || ((97 <=? n)%nat && (n <=? 122)%nat).

(** The longest run of digits a string starts with: what [\d+] takes. *)
Fixpoint digits (s : string) : string :=
  match s with
  | EmptyString => EmptyString
  | String c rest => if is_digit c then String c (digits rest) else EmptyString
  end.

(** [s] without its prefix [p], when it starts with [p]. *)
Fixpoint strip_prefix (p s : string) : option string :=
  match p, s with
  | EmptyString, _ => Some s
  | String a p', String b s' => if Ascii.eqb a b then strip_prefix p' s' else None
  | String _ _, EmptyString => None
  end.

(** [url.match(/jobs\/view\/(\d+)/)]: the capture of the leftmost match. *)
Fixpoint match_job_view (url : string) : option string :=
  match url with
  | EmptyString => None
  | String _ rest =>
      match strip_prefix "jobs/view/" url with
      | Some after =>
          match digits after with
          | EmptyString => match_job_view rest
          | d => Some d
          end
      | None => match_job_view rest
      end
  end.

(** [s.replace(/[^a-z0-9]/g, '')]. *)
Fixpoint keep_lower_or_digit (s : string) : string :=
  match s with
  | EmptyString => EmptyString
  | String c rest =>
      if is_lower_or_digit c then String c (keep_lower_or_digit rest)
      else keep_lower_or_digit rest
  end.

(** [generateJobId(url, title, company)] at time [now] ([Date.now()]). *)
Definition generateJobId (url title company : string) (now : Z) : string :=
  match match_job_view url with
  | Some id => id
  | None =>
      let cleanTitle := keep_lower_or_digit (lower title) in
      let cleanCompany := keep_lower_or_digit (lower company) in
      cleanCompany +:+ "_" +:+ cleanTitle +:+ "_" +:+ pretty now
  end.


End JobCard.

(** The letter [j], with which a match of [jobs/view/] starts. *)
Definition letter_j : Ascii.ascii := Ascii.ascii_of_nat 106.

(** Every character of a string passes a test. *)
Fixpoint all_chars (p : Ascii.ascii -> bool) (s : string) : bool :=
  match s with
  | EmptyString => true
  | String c rest => p c && all_chars p rest
  end.

(** The first character of a string, if any, passes a test. *)
Definition starts_with (p : Ascii.ascii -> bool) (s : string) : bool :=
  match s with
  | EmptyString => false
  | String c _ => p c
  end.

(* ===================================================================== *)
(** ** AutoApplicant: answering the questions of an application form *)
(* ===================================================================== *)

Module Questions.

(** [identifyQuestionType(questionElement)], on the element's [innerText];
    [None] when reading it from the page rejects. *)
Definition identifyQuestionType (innerText : option string) : string :=
  match innerText with
  | None => "general"
  | Some text =>
      let questionText := lower text in
      if includes questionText "experience" || includes questionText "years"
      then "experience"
      else if includes questionText "authorized" || includes questionText "visa"
      then "work_authorization"
      else if includes questionText "relocate" || includes questionText "willing to move"
      then "relocation"
      else if includes questionText "salary" || includes questionText "compensation"
      then "salary"
      else if includes questionText "notice" || includes questionText "start date"
      then "start_date"
      else "general"
  end.

(** The object literal [answers]. *)
Definition answers : list (string * string) :=
  [("experience", "3"); ("work_authorization", "Yes"); ("relocation", "Yes");
   ("salary", "60000"); ("start_date", "2 weeks"); ("general", "Yes")].

(** What a property lookup finds on [Object.prototype]. *)
Definition object_prototype : list string :=
  ["constructor"; "__defineGetter__"; "__defineSetter__"; "hasOwnProperty";
   "__lookupGetter__"; "__lookupSetter__"; "isPrototypeOf"; "propertyIsEnumerable";
   "toString"; "valueOf"; "__proto__"; "toLocaleString"].

(** The value of [answers[questionType] || 'Yes']: a string of the
    literal, or what the name inherits from [Object.prototype] (a function
    or an object, which is truthy). *)
Inductive Answer : Type :=
| Text (s : string)
| Inherited (property : string).

Fixpoint own (table : list (string * string)) (key : string) : option string :=
  match table with
  | [] => None
  | (k, v) :: rest => if String.eqb k key then Some v else own rest key
  end.

Definition getAnswerForQuestionType (questionType : string) : Answer :=
  match own answers questionType with
  | Some answer => Text answer
  | None =>
      if existsb (String.eqb questionType) object_prototype
      then Inherited questionType
      else Text "Yes"
  end.

End Questions.

(* ===================================================================== *)
(** ** BrowserManager: the rotation of proxies *)
(* ===================================================================== *)

Module Proxies.
Section Rotation.
Context {Proxy : Type}.

(** The two fields of [BrowserManager] that [getRandomProxy] uses. *)
Record t := mk {
  proxies : list Proxy;
  currentProxyIndex : nat
}.

Definition constructor (loaded : list Proxy) : t := mk loaded 0.

(** [getRandomProxy()]: [null] without proxies; otherwise the proxy at
    the current index, which then moves on by one, modulo the length. *)
Definition getRandomProxy (this : t) : option Proxy * t :=
  match proxies this with
  | [] => (None, this)
  | _ :: _ =>
      (nth_error (proxies this) (currentProxyIndex this),
       mk (proxies this) ((currentProxyIndex this + 1) mod length (proxies this)))
  end.

(** The object after [n] calls. *)
Fixpoint after_calls (n : nat) (this : t) : t :=
  match n with
  | O => this
  | S n' => after_calls n' (snd (getRandomProxy this))
  end.

End Rotation.
Arguments t : clear implicits.
End Proxies.

(* ===================================================================== *)
(** ** The HTTP routes on jobs and applications *)
(* ===================================================================== *)

Module Api.

(** What a handler sends: a status code with the [error] or [message] of
    its JSON body, or (status 200) a row. *)
Inductive Reply : Type :=
| Sent (code : nat) (text : string)
| SentJob (row : JobRow.t).

Definition set_db (b : bool) (d : Database.t) : Database.t :=
  Database.mk b (Database.clock d) (Database.jobs d) (Database.applications d)
    (Database.scraping_logs d).

(** [database.initialize()]: opens the handle; [CREATE TABLE IF NOT
    EXISTS] leaves existing tables alone. *)
Definition initialize : M Database.t unit := modify (set_db true).

(** [if (!database.db) { await database.initialize(); }], the first
    statement of [POST /scrape], [POST /track] and the two [GET /]. *)
Definition ensure_initialized : M Database.t unit :=
  let* d := get_state in
  if Database.db d then ret tt else initialize.

(** [UPDATE jobs SET is_applied = ? WHERE job_id = ?]. *)
Definition set_applied (b : bool) (key : string) : M Database.t unit :=
  Database.handle >>
  modify (Database.set_jobs (map (fun r =>
    if String.eqb (JobRow.job_id r) key
    then JobRow.mk (JobRow.job_id r) (JobRow.title r) (JobRow.company r)
           (JobRow.location r) (JobRow.job_type r) (JobRow.description r)
           (JobRow.requirements r) (JobRow.posted_date r) (JobRow.scraped_at r)
           (JobRow.url r) (JobRow.salary_range r) (JobRow.experience_level r)
           b (JobRow.match_score r) (JobRow.keywords_matched r)
    else r))).

(** [DELETE FROM applications WHERE job_id = ?]. *)
Definition delete_applications_of_job (key : string) : M Database.t unit :=
  Database.handle >>
  modify (Database.set_applications
            (List.filter (fun r => negb (String.eqb (AppRow.job_id r) key)))).

(** [DELETE FROM jobs WHERE job_id = ?]. *)
Definition delete_job (key : string) : M Database.t unit :=
  Database.handle >>
  modify (Database.set_jobs (List.filter (fun r => negb (String.eqb (JobRow.job_id r) key)))).

(** [SELECT * FROM applications WHERE application_id = ?] through [get]. *)
Definition get_application (aid : string) : M Database.t (option AppRow.t) :=
  Database.handle >>
  let* d := get_state in
  ret (find (fun r => Database.same_key aid (AppRow.application_id r))
         (Database.applications d)).

(** [DELETE FROM applications WHERE application_id = ?]. *)
Definition delete_application (aid : string) : M Database.t unit :=
  Database.handle >>
  modify (Database.set_applications
            (List.filter (fun r => negb (Database.same_key aid (AppRow.application_id r))))).

(** [GET /api/jobs/:id]. *)
Definition getJob (id : string) : M Database.t Reply :=
  try_catch
    (let* job := Database.get_job id in
     match job with
     | None => ret (Sent 404 "Job not found")
     | Some row => ret (SentJob row)
     end)
    (fun _ => ret (Sent 500 "Internal server error")).

(** [PATCH /api/jobs/:id/apply] with body [{ applicationId, notes }]. *)
Definition patchJobApply (jobId : string) (applicationId notes : option string)
    : M Database.t Reply :=
  try_catch
    (let* job := Database.get_job jobId in
     match job with
     | None => ret (Sent 404 "Job not found")
     | Some _ =>
         set_applied true jobId >>
         let* t := Database.now in
         Database.insertApplication
           (ApplicationData.mk (Some jobId)
              (Some (default ("manual_" +:+ pretty t) (js_or applicationId None)))
              (Some "Applied") (Some t) None
              (js_or notes (Some "Manually marked as applied"))) >>
         ret (Sent 200 "Job marked as applied successfully")
     end)
    (fun _ => ret (Sent 500 "Internal server error")).

(** [DELETE /api/jobs/:id]. *)
Definition deleteJob (jobId : string) : M Database.t Reply :=
  try_catch
    (let* job := Database.get_job jobId in
     match job with
     | None => ret (Sent 404 "Job not found")
     | Some _ =>
         delete_applications_of_job jobId >>
         delete_job jobId >>
         ret (Sent 200 "Job deleted successfully")
     end)
    (fun _ => ret (Sent 500 "Internal server error")).

(** [DELETE /api/applications/:id]. *)
Definition deleteApplication (applicationId : string) : M Database.t Reply :=
  try_catch
    (let* application := get_application applicationId in
     match application with
     | None => ret (Sent 404 "Application not found")
     | Some row =>
         delete_application applicationId >>
         set_applied false (AppRow.job_id row) >>
         ret (Sent 200 "Application deleted successfully")
     end)
    (fun _ => ret (Sent 500 "Internal server error")).

End Api.

(** No job has more than one application. *)
Definition one_application_per_job (d : Database.t) : Prop :=
  forall key, (length (applications_of_job key d) <= 1)%nat.

(* ===================================================================== *)
(** ** Database.getJobStats *)
(* ===================================================================== *)

Module Stats.

(** One more row in the group of [key]; a new group goes last. *)
Fixpoint bump (key : option string) (groups : list (option string * nat))
    : list (option string * nat) :=
  match groups with
  | [] => [(key, 1%nat)]
  | (k, n) :: rest =>
      if bool_decide (k = key) then (k, S n) :: rest else (k, n) :: bump key rest
  end.

(** [SELECT status, COUNT( * ) as count FROM applications GROUP BY status]:
    one row for each status that occurs, NULL being a status of its own.
    SQL leaves the order of the groups open; here they come in the order
    in which the statuses first occur. *)
Definition group_by_status (rows : list AppRow.t) : list (option string * nat) :=
  fold_left (fun groups r => bump (AppRow.status r) groups) rows [].

Record t := mk {
  totalJobs : nat;
  appliedJobs : nat;
  todayJobs : nat;
  applicationStats : list (option string * nat)
}.

(** [(await this.get('SELECT COUNT( * ) as count FROM jobs ...')).count]. *)
Definition count_jobs (where_ : Database.t -> JobRow.t -> bool) : M Database.t nat :=
  Database.handle >>
  let* d := get_state in
  ret (length (List.filter (where_ d) (Database.jobs d))).

Definition getJobStats : M Database.t t :=
  let* totalJobs := count_jobs (fun _ _ => true) in
  let* appliedJobs := count_jobs (fun _ r => JobRow.is_applied r) in
  let* todayJobs :=
    count_jobs (fun d r => date (JobRow.scraped_at r) =? date (Database.clock d)) in
  let* applicationStats :=
    (Database.handle >>
     let* d := get_state in
     ret (group_by_status (Database.applications d))) in
  ret (mk totalJobs appliedJobs todayJobs applicationStats).

End Stats.

(** The sum of the counts of a list of groups. *)
Definition total_count (groups : list (option string * nat)) : nat :=
  fold_right (fun g acc => (snd g + acc)%nat) 0%nat groups.

(** The applications with a given status (or with none). *)
Definition applications_with_status (status : option string) (d : Database.t) : list AppRow.t :=
  List.filter (fun r => bool_decide (AppRow.status r = status)) (Database.applications d).

(* ===================================================================== *)
(** ** Scheduler.cleanupOldData (the daily task) *)
(* ===================================================================== *)

Module Daily.

Definition seconds (t : Z) : Z := t / 1000.

(** [column < datetime('now', '-N days')] for a column that
    CURRENT_TIMESTAMP filled: both sides are text to the second. *)
Definition older_than (days now column : Z) : bool :=
  seconds column <? seconds now - days * 86400.

(** [history.slice(-5)]. *)
Definition last_five {A} (history : list A) : list A :=
  skipn (length history - 5) history.

Definition with_history (history : list HistoryEntry.t) (r : AppRow.t) : AppRow.t :=
  AppRow.mk (AppRow.job_id r) (AppRow.application_id r) (AppRow.status r)
    (AppRow.applied_at r) (AppRow.last_checked r) (Some (Stringified history))
    (AppRow.recruiter_contact r) (AppRow.notes r).

(** [UPDATE applications SET status_history = ? WHERE application_id = ?]. *)
Definition set_history (aid : option string) (history : list HistoryEntry.t) (r : AppRow.t)
    : AppRow.t :=
  match aid with
  | Some k => if Database.same_key k (AppRow.application_id r) then with_history history r else r
  | None => r
  end.

Definition has_history (r : AppRow.t) : bool :=
  match AppRow.status_history r with
  | Some _ => true
  | None => false
  end.

(** [cleanupOldData()].  [stale] is what SQLite's comparison
    [last_checked < datetime('now', '-60 days')] gives for a row: the
    column holds text in two formats (CURRENT_TIMESTAMP's and
    [toISOString]'s), which the store compares as text. *)
Definition cleanupOldData (stale : AppRow.t -> bool) : M Database.t unit :=
  try_catch
    (let* now := Database.now in
     (Database.handle >>
      modify (Database.set_jobs (List.filter (fun r =>
        negb (older_than 30 now (JobRow.scraped_at r) && negb (JobRow.is_applied r)))))) >>
     (Database.handle >>
      modify (Database.set_scraping_logs (List.filter (fun r =>
        negb (older_than 90 now (LogRow.started_at r)))))) >>
     let* oldApplications :=
       (Database.handle >>
        let* d := get_state in
        ret (List.filter (fun r => stale r && has_history r) (Database.applications d))) in
     for_of oldApplications tt (fun app _ =>
       try_catch
         (match AppRow.status_history app with
          | Some (Stringified history) =>
              let recentHistory := last_five history in
              Database.handle >>
              modify (Database.set_applications
                        (map (set_history (AppRow.application_id app) recentHistory)))
          | Some (Unparsable _) => throw "Unexpected token in JSON"
          | None => throw "Cannot read properties of null (reading 'slice')"
          end)
         (fun _ => ret tt)))
    (fun _ => ret tt).

End Daily.

(** An application row after the cleanup, against the row it was: the
    same row, or the same but for a history cut to the last five entries
    of a history the table held. *)
Definition trimmed (before : list AppRow.t) (r r' : AppRow.t) : Prop :=
  r' = r
  \/ exists history,
       In (Some (Stringified history)) (map AppRow.status_history before)
       /\ r' = Daily.with_history (Daily.last_five history) r.

(* ===================================================================== *)
(** ** routes/settings.js: the [application_settings] routes *)
(* ===================================================================== *)

Module Settings.

(** The router's own [const database = new Database()] and the table
    [application_settings] behind it: [setting_key] is UNIQUE, a row holds
    [setting_value] and [updated_at]. *)
Record Store := mkStore {
  db : bool;
  clock : Z;
  application_settings : gmap string (string * Z)
}.

(** [new Database()]: [this.db = null]. *)
Definition constructor (clock : Z) (rows : gmap string (string * Z)) : Store :=
  mkStore false clock rows.

Definition handle : M Store unit :=
  fun s => if db s then (Ok tt, s) else (Throw "Database not initialized", s).

Definition set_rows (f : gmap string (string * Z) -> gmap string (string * Z)) (s : Store)
    : Store :=
  mkStore (db s) (clock s) (f (application_settings s)).

Inductive Reply : Type :=
| Sent (code : nat) (text : string)
| SettingsObject (settings : gmap string string)
| Setting (key value : string) (updatedAt : Z).

(** [INSERT OR REPLACE INTO application_settings (setting_key,
    setting_value, updated_at) VALUES (?, ?, CURRENT_TIMESTAMP)]. *)
Definition replace_setting (key value : string) : M Store unit :=
  handle >>
  let* s := get_state in
  modify (set_rows (fun rows => <[key := (value, clock s)]> rows)).

(** [GET /]. *)
Definition getSettings : M Store Reply :=
  try_catch
    (let* settings := (handle >> let* s := get_state in ret (application_settings s)) in
     ret (SettingsObject (fst <$> settings)))
    (fun _ => ret (Sent 500 "Internal server error")).

(** [GET /:key]. *)
Definition getSetting (key : string) : M Store Reply :=
  try_catch
    (let* setting := (handle >> let* s := get_state in ret (application_settings s !! key)) in
     match setting with
     | None => ret (Sent 404 "Setting not found")
     | Some (value, updatedAt) => ret (Setting key value updatedAt)
     end)
    (fun _ => ret (Sent 500 "Internal server error")).

(** [POST /]; the body is [None] when it is not an object, and else its
    entries, each value as [String(value)] gives it. *)
Definition postSettings (body : option (list (string * string))) : M Store Reply :=
  try_catch
    (match body with
     | None => ret (Sent 400 "Settings object is required")
     | Some entries =>
         for_of entries tt (fun entry _ => replace_setting (fst entry) (snd entry)) >>
         ret (Sent 200 "Settings updated successfully")
     end)
    (fun _ => ret (Sent 500 "Internal server error")).

(** [PUT /:key]; [value] is [None] when the body has no [value]. *)
Definition putSetting (key : string) (value : option string) : M Store Reply :=
  try_catch
    (match value with
     | None => ret (Sent 400 "Value is required")
     | Some v =>
         replace_setting key v >>
         ret (Sent 200 "Setting updated successfully")
     end)
    (fun _ => ret (Sent 500 "Internal server error")).

(** [DELETE /:key]; [result.changes] is the number of rows deleted. *)
Definition deleteSetting (key : string) : M Store Reply :=
  try_catch
    (let* changes :=
       (handle >>
        let* s := get_state in
        modify (set_rows (delete key)) >>
        ret (match application_settings s !! key with
             | Some _ => 1%nat
             | None => 0%nat
             end)) in
     if Nat.eqb changes 0
     then ret (Sent 404 "Setting not found")
     else ret (Sent 200 "Setting deleted successfully"))
    (fun _ => ret (Sent 500 "Internal server error")).

Inductive Request : Type :=
| GetSettings
| GetSetting (key : string)
| PostSettings (body : option (list (string * string)))
| PutSetting (key : string) (value : option string)
| DeleteSetting (key : string).

Definition serve (request : Request) : M Store Reply :=
  match request with
  | GetSettings => getSettings
  | GetSetting key => getSetting key
  | PostSettings body => postSettings body
  | PutSetting key value => putSetting key value
  | DeleteSetting key => deleteSetting key
  end.

(** The requests of a session, served in order. *)
Fixpoint serve_all (requests : list Request) : M Store (list Reply) :=
  match requests with
  | [] => ret []
  | request :: rest =>
      let* reply := serve request in
      let* replies := serve_all rest in
      ret (reply :: replies)
  end.

(** What a request is answered while the handle is missing. *)
Definition refused (request : Request) : Reply :=
  match request with
  | PostSettings None => Sent 400 "Settings object is required"
  | PostSettings (Some []) => Sent 200 "Settings updated successfully"
  | PutSetting _ None => Sent 400 "Value is required"
  | _ => Sent 500 "Internal server error"
  end.

End Settings.

(* ===================================================================== *)
(** * Properties *)
(* ===================================================================== *)

(** ** Lists and the monad *)

Lemma filter_negb_filter {A} (p : A -> bool) (l : list A) :
  List.filter p (List.filter (fun x => negb (p x)) l) = [].
Proof.
  induction l as [|x l IH]; simpl; [reflexivity|].
  destruct (p x) eqn:E; simpl; [exact IH|].
  rewrite E. exact IH.
Qed.

Lemma filter_negb_idem {A} (p : A -> bool) (l : list A) :
  List.filter (fun x => negb (p x)) (List.filter (fun x => negb (p x)) l)
  = List.filter (fun x => negb (p x)) l.
Proof.
  induction l as [|x l IH]; simpl; [reflexivity|].
  destruct (p x) eqn:E; simpl; [exact IH|].
  rewrite E. simpl. f_equal. exact IH.
Qed.

Lemma find_none_filter {A} (p : A -> bool) (l : list A) :
  find p l = None -> List.filter p l = [].
Proof.
  induction l as [|x l IH]; simpl; [reflexivity|].
  destruct (p x); [discriminate|]. exact IH.
Qed.

Lemma handle_open (d : Database.t) :
  Database.db d = true -> Database.handle d = (Ok tt, d).
Proof. intros H. unfold Database.handle. rewrite H. reflexivity. Qed.

Lemma handle_closed (d : Database.t) :
  Database.db d = false -> Database.handle d = (Throw "Database not initialized", d).
Proof. intros H. unfold Database.handle. rewrite H. reflexivity. Qed.

(** ** The jobs table *)

Lemma insertJob_open (d : Database.t) (jobData : JobData.t) (key ttl comp : string) :
  Database.db d = true ->
  JobData.jobId jobData = Some key ->
  JobData.title jobData = Some ttl ->
  JobData.company jobData = Some comp ->
  Database.insertJob jobData d =
    (Ok tt,
     Database.set_jobs (fun rows =>
       List.filter (fun r => negb (String.eqb (JobRow.job_id r) key)) rows
       ++ [Database.job_row key ttl comp jobData (Database.clock d)]) d).
Proof.
  intros Hdb Hk Ht Hc. unfold Database.insertJob, bind.
  rewrite (handle_open d Hdb), Hk, Ht, Hc. reflexivity.
Qed.

Lemma rows_of_job_insert (d : Database.t) (key : string) (row : JobRow.t) :
  JobRow.job_id row = key ->
  rows_of_job key
    (Database.set_jobs (fun rows =>
       List.filter (fun r => negb (String.eqb (JobRow.job_id r) key)) rows ++ [row]) d)
  = [row].
Proof.
  intros Hrow. unfold rows_of_job, Database.set_jobs. simpl.
  rewrite List.filter_app.
  rewrite (filter_negb_filter (fun r => String.eqb (JobRow.job_id r) key)).
  simpl. rewrite Hrow, String.eqb_refl. reflexivity.
Qed.

Lemma find_app_last {A} (p : A -> bool) (l : list A) (x : A) :
  p x = true -> exists y, find p (l ++ [x]) = Some y.
Proof.
  intros Hx. induction l as [|z l IH]; simpl.
  - rewrite Hx. eauto.
  - destruct (p z); eauto.
Qed.

Lemma get_job_open (d : Database.t) (key : string) :
  Database.db d = true ->
  Database.get_job key d =
    (Ok (find (fun r => String.eqb (JobRow.job_id r) key) (Database.jobs d)), d).
Proof.
  intros Hdb. unfold Database.get_job, bind. rewrite (handle_open d Hdb). reflexivity.
Qed.

Lemma processAndSaveJob_new (s : Sys.t) (jobData : JobData.t) (key ttl comp : string) :
  Database.db (Sys.store s) = true ->
  JobData.jobId jobData = Some key ->
  JobData.title jobData = Some ttl ->
  JobData.company jobData = Some comp ->
  rows_of_job key (Sys.store s) = [] ->
  JobScraper.processAndSaveJob jobData s =
    (Ok tt,
     Sys.set_store
       (Database.set_jobs (fun rows =>
          List.filter (fun r => negb (String.eqb (JobRow.job_id r) key)) rows
          ++ [Database.job_row key ttl comp jobData (Database.clock (Sys.store s))])
          (Sys.store s)) s).
Proof.
  intros Hdb Hk Ht Hc Hnone.
  unfold JobScraper.processAndSaveJob, try_catch, bind, database.
  rewrite Hk, (get_job_open _ key Hdb).
  assert (Hfind : find (fun r => String.eqb (JobRow.job_id r) key)
                    (Database.jobs (Sys.store s)) = None).
  { unfold rows_of_job in Hnone.
    destruct (find _ _) as [r|] eqn:E; [|reflexivity].
    apply find_some in E. destruct E as [Hin Hr].
    assert (Hmem : In r (List.filter (fun r => String.eqb (JobRow.job_id r) key)
                           (Database.jobs (Sys.store s)))).
    { apply filter_In. split; assumption. }
    rewrite Hnone in Hmem. destruct Hmem. }
  rewrite Hfind. destruct s as [d l n i tr]; simpl in *.
  rewrite (insertJob_open d jobData key ttl comp Hdb Hk Ht Hc). reflexivity.
Qed.

Lemma processAndSaveJob_known (s : Sys.t) (jobData : JobData.t) (key : string) (row : JobRow.t) :
  Database.db (Sys.store s) = true ->
  JobData.jobId jobData = Some key ->
  find (fun r => String.eqb (JobRow.job_id r) key) (Database.jobs (Sys.store s)) = Some row ->
  JobScraper.processAndSaveJob jobData s = (Ok tt, s).
Proof.
  intros Hdb Hk Hfind.
  unfold JobScraper.processAndSaveJob, try_catch, bind, database.
  rewrite Hk, (get_job_open _ key Hdb), Hfind.
  destruct s; reflexivity.
Qed.

(** C3, counterexample: the job of the scenario is scraped with match
    score 40 and, a second later, with match score 85; the store keeps one
    row and its score is still 40, not 85. *)
Lemma C3_rescrape_keeps_first_score :
  let s1 := snd (JobScraper.processAndSaveJob (job_123 40) (fresh empty_store)) in
  let s2 := snd (JobScraper.processAndSaveJob (job_123 85) (later 1000 s1)) in
  map JobRow.match_score (rows_of_job "123" (Sys.store s2)) = [Some 40]
  /\ map JobRow.match_score (rows_of_job "123" (Sys.store s2)) <> [Some 85].
Proof. split; [reflexivity | discriminate]. Qed.

(** C3, as amended: on an open store, two calls of [Database.insertJob]
    with the same [job_id] leave exactly one row for that key, made from
    the second call's data (with [is_applied] back to FALSE and
    [scraped_at] the time of the second call); two scrapes of the same
    [job_id] through [processAndSaveJob], on a store that did not hold the
    key, leave exactly one row, made from the first scrape's data. *)
Theorem C3_insert_last_wins_scrape_first_wins :
  forall (s : Sys.t) (first second : JobData.t) (key t1 c1 t2 c2 : string) (ms : Z),
    Database.db (Sys.store s) = true ->
    JobData.jobId first = Some key -> JobData.title first = Some t1 ->
    JobData.company first = Some c1 ->
    JobData.jobId second = Some key -> JobData.title second = Some t2 ->
    JobData.company second = Some c2 ->
    (let d1 := snd (Database.insertJob first (Sys.store s)) in
     let d2 := snd (Database.insertJob second (Database.elapse ms d1)) in
     rows_of_job key d2
     = [Database.job_row key t2 c2 second (Database.clock (Sys.store s) + ms)])
    /\
    (rows_of_job key (Sys.store s) = [] ->
     let s1 := snd (JobScraper.processAndSaveJob first s) in
     let s2 := snd (JobScraper.processAndSaveJob second (later ms s1)) in
     rows_of_job key (Sys.store s2)
     = [Database.job_row key t1 c1 first (Database.clock (Sys.store s))]).
Proof.
  intros s first second key t1 c1 t2 c2 ms Hdb Hk1 Ht1 Hc1 Hk2 Ht2 Hc2. split.
  - cbv zeta.
    rewrite (insertJob_open _ first key t1 c1 Hdb Hk1 Ht1 Hc1). cbn [snd].
    rewrite (insertJob_open _ second key t2 c2); try assumption.
    cbn [snd]. apply rows_of_job_insert. reflexivity.
  - intros Hnone. cbv zeta.
    rewrite (processAndSaveJob_new s first key t1 c1 Hdb Hk1 Ht1 Hc1 Hnone). cbn [snd].
    set (row := Database.job_row key t1 c1 first (Database.clock (Sys.store s))).
    destruct (find_app_last (fun r => String.eqb (JobRow.job_id r) key)
                (List.filter (fun r => negb (String.eqb (JobRow.job_id r) key))
                   (Database.jobs (Sys.store s))) row) as [y Hy].
    { apply String.eqb_refl. }
    rewrite (processAndSaveJob_known _ second key y); try assumption.
    destruct s as [d l n i tr]; simpl in *.
    apply (rows_of_job_insert d key row). reflexivity.
Qed.

(** C3, witness: the scenario's job, scores 40 then 85, one second apart. *)
Lemma C3_insert_last_wins_scrape_first_wins_witness :
  map JobRow.match_score
    (rows_of_job "123"
       (snd (Database.insertJob (job_123 85)
          (Database.elapse 1000 (snd (Database.insertJob (job_123 40) empty_store))))))
  = [Some 85]
  /\ map JobRow.match_score
       (rows_of_job "123"
          (Sys.store (snd (JobScraper.processAndSaveJob (job_123 85)
             (later 1000 (snd (JobScraper.processAndSaveJob (job_123 40) (fresh empty_store))))))))
     = [Some 40].
Proof.
  destruct (C3_insert_last_wins_scrape_first_wins (fresh empty_store)
              (job_123 40) (job_123 85) "123" "Engineer" "Acme" "Engineer" "Acme" 1000
              eq_refl eq_refl eq_refl eq_refl eq_refl eq_refl eq_refl) as [Hinsert Hscrape].
  split.
  - cbv zeta in Hinsert. simpl Sys.store in Hinsert. rewrite Hinsert. reflexivity.
  - cbv zeta in Hscrape. rewrite (Hscrape eq_refl). reflexivity.
Defined.

(** ** Applications *)

(** C4: the job of the scenario is in the store;
    [addManualApplication("123", {})] is called twice, one second apart.
    Both calls resolve, and the store holds two applications for the job
    (the job stays marked as applied).  The route that creates a manual
    application refuses the same second request with status 400. *)
Lemma C4_second_manual_application_is_stored :
  let r1 := ApplicationTracker.addManualApplication (Some "123") no_details
              (fresh store_with_job_123) in
  let r2 := ApplicationTracker.addManualApplication (Some "123") no_details
              (later 1000 (snd r1)) in
  fst r1 = Ok "manual_0"
  /\ fst r2 = Ok "manual_1000"
  /\ map AppRow.application_id (applications_of_job "123" (Sys.store (snd r2)))
     = [Some "manual_0"; Some "manual_1000"]
  /\ map JobRow.is_applied (rows_of_job "123" (Sys.store (snd r2))) = [true]
  /\ fst (Routes.postApplication (Some "123") None None None
            (Database.elapse 1000 (Sys.store (snd r1))))
     = Ok (Routes.mkResponse 400 "Application already exists for this job" None).
Proof. vm_compute. repeat split; reflexivity. Qed.

Lemma find_map_same {A} (p : A -> bool) (f : A -> A) (l : list A) :
  (forall x, p (f x) = p x) -> find p (map f l) = option_map f (find p l).
Proof.
  intros Hp. induction l as [|x l IH]; simpl; [reflexivity|].
  rewrite Hp. destruct (p x); [reflexivity | exact IH].
Qed.

Lemma same_key_eq (k : string) (o : option string) :
  Database.same_key k o = true -> o = Some k.
Proof.
  destruct o as [k'|]; simpl; [|discriminate].
  intros H. apply String.eqb_eq in H. congruence.
Qed.

(** One update: the row read back carries the new status and the old
    history with one entry appended. *)
Lemma updateApplicationStatus_step (s : Sys.t) (aid : string) (row : AppRow.t)
    (u : StatusUpdate.t) :
  Database.db (Sys.store s) = true ->
  stored_application aid s = Some row ->
  exists row',
    stored_application aid (snd (ApplicationTracker.updateApplicationStatus row u s)) = Some row'
    /\ AppRow.status row' = Some (StatusUpdate.status u)
    /\ ApplicationTracker.parse_history (AppRow.status_history row')
       = ApplicationTracker.parse_history (AppRow.status_history row)
         ++ [HistoryEntry.mk (StatusUpdate.status u) (StatusUpdate.lastChecked u)
               (AppRow.status row)]
    /\ Database.db (Sys.store (snd (ApplicationTracker.updateApplicationStatus row u s))) = true.
Proof.
  intros Hdb Hrow.
  assert (Haid : AppRow.application_id row = Some aid).
  { unfold stored_application in Hrow. apply find_some in Hrow.
    destruct Hrow as [_ Hk]. apply same_key_eq. exact Hk. }
  unfold ApplicationTracker.updateApplicationStatus, try_catch, bind, database, modify.
  rewrite (handle_open _ Hdb). cbn [fst snd].
  unfold stored_application. destruct s as [d l n i tr]. cbn [Sys.store Sys.set_store].
  unfold Database.set_applications. cbn [Database.applications Database.db].
  rewrite find_map_same.
  - unfold stored_application in Hrow. cbn [Sys.store] in Hrow. rewrite Hrow.
    cbn [option_map]. eexists. split; [reflexivity|].
    unfold ApplicationTracker.update_row. rewrite Haid.
    cbn [Database.same_key]. rewrite String.eqb_refl.
    cbn [AppRow.status AppRow.status_history ApplicationTracker.parse_history].
    repeat split. cbn [Sys.store] in Hdb. exact Hdb.
  - intros x. unfold ApplicationTracker.update_row. rewrite Haid.
    destruct (Database.same_key aid (AppRow.application_id x)) eqn:E; [|exact E].
    cbn [AppRow.application_id]. exact E.
Qed.

Lemma apply_updates_history (updates : list StatusUpdate.t) :
  forall (s : Sys.t) (aid : string) (row : AppRow.t),
    Database.db (Sys.store s) = true ->
    stored_application aid s = Some row ->
    history_of aid (apply_updates aid updates s)
    = ApplicationTracker.parse_history (AppRow.status_history row)
      ++ chain (AppRow.status row) updates.
Proof.
  induction updates as [|u rest IH]; intros s aid row Hdb Hrow.
  - simpl. unfold history_of. rewrite Hrow. rewrite app_nil_r. reflexivity.
  - simpl. rewrite Hrow.
    destruct (updateApplicationStatus_step s aid row u Hdb Hrow)
      as [row' [Hrow' [Hst [Hh Hdb']]]].
    rewrite (IH _ aid row' Hdb' Hrow'), Hh, Hst.
    rewrite <- app_assoc. reflexivity.
Qed.

Lemma chain_length (previous : option string) (updates : list StatusUpdate.t) :
  length (chain previous updates) = length updates.
Proof.
  revert previous. induction updates as [|u rest IH]; intros previous; simpl;
    [reflexivity | rewrite IH; reflexivity].
Qed.

Lemma chain_links (updates : list StatusUpdate.t) :
  forall (previous : option string) (i : nat) (e e' : HistoryEntry.t),
    chain previous updates !! i = Some e ->
    chain previous updates !! S i = Some e' ->
    HistoryEntry.previousStatus e' = Some (HistoryEntry.status e).
Proof.
  induction updates as [|u rest IH]; intros previous i e e' He He'.
  - discriminate.
  - destruct i as [|i].
    + simpl in He. injection He as <-.
      destruct rest as [|u' rest']; [discriminate|].
      simpl in He'. injection He' as <-. reflexivity.
    + simpl in He, He'. exact (IH _ i e e' He He').
Qed.

Lemma chain_firstn (updates : list StatusUpdate.t) :
  forall (previous : option string) (n : nat),
    chain previous (firstn n updates) = firstn n (chain previous updates).
Proof.
  induction updates as [|u rest IH]; intros previous n.
  - destruct n; reflexivity.
  - destruct n as [|n]; simpl; [reflexivity|]. rewrite IH. reflexivity.
Qed.

(** C9: an application whose history is empty receives [M] status
    updates in sequence, each made from the row as stored.  Its history
    then has [M] entries; after the first [n] updates the history was the
    first [n] entries of the final one (no later update changes or drops
    an entry); and every entry's [previousStatus] is the [status] of the
    entry before it. *)
Theorem C9_status_history_append_only_chain :
  forall (s : Sys.t) (aid : string) (row : AppRow.t) (updates : list StatusUpdate.t),
    Database.db (Sys.store s) = true ->
    stored_application aid s = Some row ->
    ApplicationTracker.parse_history (AppRow.status_history row) = [] ->
    let history := history_of aid (apply_updates aid updates s) in
    length history = length updates
    /\ (forall n : nat,
          history_of aid (apply_updates aid (firstn n updates) s) = firstn n history)
    /\ (forall (i : nat) (e e' : HistoryEntry.t),
          history !! i = Some e -> history !! S i = Some e' ->
          HistoryEntry.previousStatus e' = Some (HistoryEntry.status e)).
Proof.
  intros s aid row updates Hdb Hrow Hempty history.
  assert (Hh : history = chain (AppRow.status row) updates).
  { unfold history. rewrite (apply_updates_history updates s aid row Hdb Hrow), Hempty.
    reflexivity. }
  rewrite Hh. split; [apply chain_length|]. split.
  - intros n. rewrite (apply_updates_history _ s aid row Hdb Hrow), Hempty.
    apply chain_firstn.
  - intros i e e'. apply chain_links.
Qed.

(** C9, witness: the freshly inserted application A1 is updated to
    "Application viewed" and then to "Shortlisted". *)
Lemma C9_status_history_append_only_chain_witness :
  let history := history_of "A1" (apply_updates "A1" [viewed; shortlisted]
                                    (fresh store_with_application)) in
  length history = 2%nat
  /\ (forall n : nat,
        history_of "A1" (apply_updates "A1" (firstn n [viewed; shortlisted])
                           (fresh store_with_application)) = firstn n history)
  /\ (forall (i : nat) (e e' : HistoryEntry.t),
        history !! i = Some e -> history !! S i = Some e' ->
        HistoryEntry.previousStatus e' = Some (HistoryEntry.status e)).
Proof.
  apply (C9_status_history_append_only_chain (fresh store_with_application) "A1"
           (AppRow.mk "123" (Some "A1") (Some "Applied") (Some 0) 0 None None None)
           [viewed; shortlisted]); reflexivity.
Defined.

(** ** Frame rules: what a computation leaves alone *)

(** [m] never changes the view [f] of the state. *)
Definition preserves {S A X} (f : S -> X) (m : M S A) : Prop :=
  forall s, f (snd (m s)) = f s.

Lemma preserves_ret {S A X} (f : S -> X) (a : A) : preserves f (ret a).
Proof. intros s. reflexivity. Qed.

Lemma preserves_throw {S A X} (f : S -> X) (msg : string) : preserves f (@throw S A msg).
Proof. intros s. reflexivity. Qed.

Lemma preserves_get_state {S X} (f : S -> X) : preserves f (@get_state S).
Proof. intros s. reflexivity. Qed.

Lemma preserves_bind {S A B X} (f : S -> X) (m : M S A) (k : A -> M S B) :
  preserves f m -> (forall a, preserves f (k a)) -> preserves f (bind m k).
Proof.
  intros Hm Hk s. unfold bind. specialize (Hm s).
  destruct (m s) as [[a|e|] s']; cbn [snd] in *; try exact Hm.
  rewrite (Hk a s'). exact Hm.
Qed.

Lemma preserves_try_catch {S A X} (f : S -> X) (m : M S A) (h : string -> M S A) :
  preserves f m -> (forall e, preserves f (h e)) -> preserves f (try_catch m h).
Proof.
  intros Hm Hh s. unfold try_catch. specialize (Hm s).
  destruct (m s) as [[a|e|] s']; cbn [snd] in *; try exact Hm.
  rewrite (Hh e s'). exact Hm.
Qed.

Lemma preserves_modify {S X} (f : S -> X) (g : S -> S) :
  (forall s, f (g s) = f s) -> preserves f (modify g).
Proof. intros Hg s. apply Hg. Qed.

Lemma preserves_for_of {S A B X} (f : S -> X) (body : A -> B -> M S B) (xs : list A) :
  (forall x acc, preserves f (body x acc)) -> forall acc, preserves f (for_of xs acc body).
Proof.
  intros Hbody. induction xs as [|x xs IH]; intros acc; simpl.
  - apply preserves_ret.
  - apply preserves_bind; [apply Hbody | intros a; apply IH].
Qed.

(** Syntax-directed proof of a frame property: split binds, handlers and
    branches, and close the leaves with the hints of [frame]. *)
Create HintDb frame.

Ltac frame_step :=
  match goal with
  | |- preserves _ (bind _ _) => apply preserves_bind
  | |- preserves _ (try_catch _ _) => apply preserves_try_catch
  | |- preserves _ (ret _) => apply preserves_ret
  | |- preserves _ (throw _) => apply preserves_throw
  | |- preserves _ get_state => apply preserves_get_state
  | |- preserves _ (if ?b then _ else _) => destruct b
  | |- preserves _ (match ?x with _ => _ end) => destruct x
  | |- forall _, _ => intro
  end.

Ltac frame := repeat frame_step; auto with frame.

(** [m] always settles: its promise resolves or rejects. *)
Definition settles {S A} (m : M S A) : Prop := forall s, fst (m s) <> Hang.

(** [m] never rejects. *)
Definition never_throws {S A} (m : M S A) : Prop :=
  forall s e, fst (m s) <> Throw e.

Lemma settles_ret {S A} (a : A) : @settles S A (ret a).
Proof. intros s. discriminate. Qed.

Lemma settles_throw {S A} (msg : string) : @settles S A (throw msg).
Proof. intros s. discriminate. Qed.

Lemma settles_get_state {S} : settles (@get_state S).
Proof. intros s. discriminate. Qed.

Lemma settles_modify {S} (g : S -> S) : settles (modify g).
Proof. intros s. discriminate. Qed.

Lemma settles_bind {S A B} (m : M S A) (k : A -> M S B) :
  settles m -> (forall a, settles (k a)) -> settles (bind m k).
Proof.
  intros Hm Hk s. unfold bind. specialize (Hm s).
  destruct (m s) as [[a|e|] s']; cbn [fst] in *; try discriminate.
  - apply Hk.
  - destruct (Hm eq_refl).
Qed.

Lemma settles_try_catch {S A} (m : M S A) (h : string -> M S A) :
  settles m -> (forall e, settles (h e)) -> settles (try_catch m h).
Proof.
  intros Hm Hh s. unfold try_catch. specialize (Hm s).
  destruct (m s) as [[a|e|] s']; cbn [fst] in *; try discriminate.
  - apply Hh.
  - exact Hm.
Qed.

Lemma settles_database {A} (m : M Database.t A) : settles m -> settles (database m).
Proof.
  intros Hm s. unfold database. specialize (Hm (Sys.store s)).
  destruct (m (Sys.store s)). exact Hm.
Qed.

Lemma settles_for_of {S A B} (body : A -> B -> M S B) (xs : list A) :
  (forall x acc, settles (body x acc)) -> forall acc, settles (for_of xs acc body).
Proof.
  intros Hbody. induction xs as [|x xs IH]; intros acc; simpl.
  - apply settles_ret.
  - apply settles_bind; [apply Hbody | intros a; apply IH].
Qed.

Lemma never_throws_ret {S A} (a : A) : @never_throws S A (ret a).
Proof. intros s e. discriminate. Qed.

Lemma never_throws_try_catch {S A} (m : M S A) (h : string -> M S A) :
  (forall e, never_throws (h e)) -> never_throws (try_catch m h).
Proof.
  intros Hh s e. unfold try_catch.
  destruct (m s) as [[a|e'|] s']; cbn [fst]; try discriminate.
  apply Hh.
Qed.

Lemma never_throws_bind {S A B} (m : M S A) (k : A -> M S B) :
  never_throws m -> (forall a, never_throws (k a)) -> never_throws (bind m k).
Proof.
  intros Hm Hk s e. unfold bind. specialize (Hm s).
  destruct (m s) as [[a|e'|] s']; cbn [fst] in *; try discriminate.
  - apply Hk.
  - destruct (Hm e' eq_refl).
Qed.

Lemma never_throws_rethrow {S A} (m : M S A) :
  never_throws m -> never_throws (try_catch m (fun error => throw error)).
Proof.
  intros Hm s e. unfold try_catch. specialize (Hm s).
  destruct (m s) as [[a|e'|] s']; cbn [fst] in *; try discriminate.
  destruct (Hm e' eq_refl).
Qed.

Lemma never_throws_modify {S} (g : S -> S) : never_throws (modify g).
Proof. intros s e. discriminate. Qed.

Lemma never_throws_get_state {S} : never_throws (@get_state S).
Proof. intros s e. discriminate. Qed.

Lemma settled_ok {S A} (m : M S A) (s : S) :
  settles m -> never_throws m -> exists a, fst (m s) = Ok a.
Proof.
  intros Hs Ht. specialize (Hs s). specialize (Ht s).
  destruct (fst (m s)) as [a|e|]; [eauto | destruct (Ht e eq_refl) | destruct (Hs eq_refl)].
Qed.

Create HintDb settle.

Ltac settle_step :=
  match goal with
  | |- settles (bind _ _) => apply settles_bind
  | |- settles (try_catch _ _) => apply settles_try_catch
  | |- settles (ret _) => apply settles_ret
  | |- settles (throw _) => apply settles_throw
  | |- settles get_state => apply settles_get_state
  | |- settles (modify _) => apply settles_modify
  | |- settles (database _) => apply settles_database
  | |- settles (if ?b then _ else _) => destruct b
  | |- settles (match ?x with _ => _ end) => destruct x
  | |- forall _, _ => intro
  end.

Ltac settle := repeat settle_step; auto with settle.

Lemma handle_settles : settles Database.handle.
Proof. intros d. unfold Database.handle. destruct (Database.db d); discriminate. Qed.
#[export] Hint Resolve handle_settles : settle.

Lemma now_settles : settles Database.now.
Proof. intros d. discriminate. Qed.
#[export] Hint Resolve now_settles : settle.

Lemma insertJob_settles (j : JobData.t) : settles (Database.insertJob j).
Proof. unfold Database.insertJob. settle. Qed.
#[export] Hint Resolve insertJob_settles : settle.

Lemma insertApplication_settles (a : ApplicationData.t) : settles (Database.insertApplication a).
Proof. unfold Database.insertApplication. settle. Qed.
#[export] Hint Resolve insertApplication_settles : settle.

Lemma get_job_settles (key : string) : settles (Database.get_job key).
Proof. unfold Database.get_job. settle. Qed.
#[export] Hint Resolve get_job_settles : settle.

Lemma mark_applied_settles (key : string) : settles (Database.mark_applied key).
Proof. unfold Database.mark_applied. settle. Qed.
#[export] Hint Resolve mark_applied_settles : settle.

Lemma insert_log_settles (type status : string) (a b c : Z) (msg : option string) :
  settles (Database.insert_log type status a b c msg).
Proof. unfold Database.insert_log. settle. Qed.
#[export] Hint Resolve insert_log_settles : settle.

Lemma emit_settles (e : Event) : settles (emit e).
Proof. intros s. discriminate. Qed.
#[export] Hint Resolve emit_settles : settle.

Lemma humanLikeDelay_settles (who : string) (lo hi : Z) :
  settles (BrowserManager.humanLikeDelay who lo hi).
Proof. intros s. discriminate. Qed.
#[export] Hint Resolve humanLikeDelay_settles : settle.

Lemma page_action_settles (e : Event) (err : option string) : settles (page_action e err).
Proof. unfold page_action. settle. Qed.
#[export] Hint Resolve page_action_settles : settle.

(** *** The store is out of reach of the session lifecycle *)

Lemma emit_store (e : Event) : preserves Sys.store (emit e).
Proof. intros s. reflexivity. Qed.
#[export] Hint Resolve emit_store : frame.

Lemma set_isLoggedIn_store (b : bool) : preserves Sys.store (modify (Sys.set_isLoggedIn b)).
Proof. intros s. reflexivity. Qed.
#[export] Hint Resolve set_isLoggedIn_store : frame.

Lemma count_login_store : preserves Sys.store (modify Sys.count_login).
Proof. intros s. reflexivity. Qed.
#[export] Hint Resolve count_login_store : frame.

Lemma humanLikeDelay_store (who : string) (lo hi : Z) :
  preserves Sys.store (BrowserManager.humanLikeDelay who lo hi).
Proof. intros s. reflexivity. Qed.
#[export] Hint Resolve humanLikeDelay_store : frame.

Lemma page_action_store (e : Event) (err : option string) :
  preserves Sys.store (page_action e err).
Proof. unfold page_action. frame. Qed.
#[export] Hint Resolve page_action_store : frame.

Lemma await_operator_store (who : string) : preserves Sys.store (await_operator who).
Proof.
  intros s. unfold await_operator, bind, emit, modify, get_state. cbn.
  destruct (Sys.stdin s); reflexivity.
Qed.
#[export] Hint Resolve await_operator_store : frame.

Lemma handleCaptcha_store (env : Env.t) (c : bool) :
  preserves Sys.store (BrowserManager.handleCaptcha env c).
Proof. unfold BrowserManager.handleCaptcha. frame. Qed.
#[export] Hint Resolve handleCaptcha_store : frame.

Lemma close_store : preserves Sys.store BrowserManager.close.
Proof. unfold BrowserManager.close. frame. Qed.
#[export] Hint Resolve close_store : frame.

Lemma challenge_store (env : Env.t) (present : bool) (msg : string) :
  preserves Sys.store (LinkedInAuth.challenge env present msg).
Proof. unfold LinkedInAuth.challenge. frame. Qed.
#[export] Hint Resolve challenge_store : frame.

Lemma handleLoginChallenges_store (env : Env.t) (v : ChallengeView.t) :
  preserves Sys.store (LinkedInAuth.handleLoginChallenges env v).
Proof. unfold LinkedInAuth.handleLoginChallenges. frame. Qed.
#[export] Hint Resolve handleLoginChallenges_store : frame.

Lemma goto_login_store (retries failures : nat) (error : string) :
  preserves Sys.store (LinkedInAuth.goto_login retries failures error).
Proof.
  revert failures. induction retries as [|r IH]; intros failures; simpl; frame.
Qed.
#[export] Hint Resolve goto_login_store : frame.

Lemma login_store (env : Env.t) (w : LoginWorld.t) :
  preserves Sys.store (LinkedInAuth.login env w).
Proof. unfold LinkedInAuth.login. frame. Qed.
#[export] Hint Resolve login_store : frame.

Lemma attempt_store (env : Env.t) (site : Site.t) (rest : nat) :
  preserves Sys.store (LinkedInAuth.attempt env site rest).
Proof. unfold LinkedInAuth.attempt. frame. Qed.
#[export] Hint Resolve attempt_store : frame.

Lemma login_attempts_store (env : Env.t) (site : Site.t) (remaining : nat) :
  preserves Sys.store (LinkedInAuth.login_attempts env site remaining).
Proof. induction remaining as [|r IH]; simpl; frame. Qed.
#[export] Hint Resolve login_attempts_store : frame.

Lemma ensureLoggedIn_store (env : Env.t) (site : Site.t) :
  preserves Sys.store (LinkedInAuth.ensureLoggedIn env site).
Proof. unfold LinkedInAuth.ensureLoggedIn. frame. Qed.
#[export] Hint Resolve ensureLoggedIn_store : frame.

(** ** Auto-apply *)

Lemma database_run {A} (m : M Database.t A) (s : Sys.t) :
  database m s = (fst (m (Sys.store s)), Sys.set_store (snd (m (Sys.store s))) s).
Proof. unfold database. destruct (m (Sys.store s)). reflexivity. Qed.

Lemma set_store_same (s : Sys.t) : Sys.set_store (Sys.store s) s = s.
Proof. destruct s. reflexivity. Qed.

Lemma now_run (s : Sys.t) :
  database Database.now s = (Ok (Database.clock (Sys.store s)), s).
Proof. rewrite database_run. cbn. rewrite set_store_same. reflexivity. Qed.

Lemma getTodayApplicationsCount_run (s : Sys.t) :
  AutoApplicant.getTodayApplicationsCount s =
    (Ok (if Database.db (Sys.store s) then Z.of_nat (today_count (Sys.store s)) else 0), s).
Proof.
  unfold AutoApplicant.getTodayApplicationsCount, try_catch, bind.
  rewrite database_run.
  unfold Database.count_today_applications, bind, Database.handle.
  destruct (Database.db (Sys.store s)); cbn; rewrite set_store_same; reflexivity.
Qed.

Lemma insert_by_length {A} (first : A -> A -> bool) (x : A) (l : list A) :
  length (insert_by first x l) = S (length l).
Proof.
  induction l as [|y l IH]; simpl; [reflexivity|].
  destruct (first x y); simpl; [reflexivity | rewrite IH; reflexivity].
Qed.

Lemma order_by_length {A} (first : A -> A -> bool) (l : list A) :
  length (order_by first l) = length l.
Proof.
  induction l as [|x l IH]; simpl; [reflexivity|].
  rewrite insert_by_length, IH. reflexivity.
Qed.

Lemma limit_length {A} (n : Z) (l : list A) :
  0 <= n -> (length (limit n l) <= Z.to_nat n)%nat.
Proof.
  intros Hn. unfold limit. destruct (n <? 0) eqn:E; [lia|].
  rewrite length_firstn. lia.
Qed.

(** [getJobsToApply] only reads; it resolves with at most [LIMIT] rows,
    and with none when the store cannot be read. *)
Lemma getJobsToApply_run (filters : option ApplyFilters.t) (n : Z) (s : Sys.t) :
  exists jobs,
    AutoApplicant.getJobsToApply filters n s = (Ok jobs, s)
    /\ (0 <= n -> (length jobs <= Z.to_nat n)%nat)
    /\ (Database.db (Sys.store s) = false -> jobs = []).
Proof.
  unfold AutoApplicant.getJobsToApply, try_catch, bind.
  rewrite database_run. unfold Database.handle.
  destruct (Database.db (Sys.store s)) eqn:Hdb; cbn; rewrite set_store_same.
  - destruct (AutoApplicant.where_clause filters (Database.clock (Sys.store s))) as [keep|].
    + eexists. split; [reflexivity|]. split; [apply limit_length | discriminate].
    + exists []. split; [reflexivity|]. split; [simpl; lia | discriminate].
  - exists []. split; [reflexivity|]. split; [simpl; lia | reflexivity].
Qed.

Lemma insertApplication_grows (a : ApplicationData.t) (d : Database.t) :
  (length (Database.applications (snd (Database.insertApplication a d)))
   <= S (length (Database.applications d)))%nat.
Proof.
  unfold Database.insertApplication, bind, Database.handle.
  destruct (Database.db d); cbn; [|lia].
  destruct (ApplicationData.jobId a); cbn; [|lia].
  rewrite length_app. simpl.
  pose proof (List.filter_length_le
    (fun r => negb match ApplicationData.applicationId a with
                   | Some k => Database.same_key k (AppRow.application_id r)
                   | None => false
                   end) (Database.applications d)).
  lia.
Qed.

Lemma mark_applied_applications (key : string) :
  preserves Database.applications (Database.mark_applied key).
Proof.
  intros d. unfold Database.mark_applied, bind, Database.handle.
  destruct (Database.db d); reflexivity.
Qed.

Lemma recordApplication_grows (job : JobRow.t) (r : ApplyResult.t) (s : Sys.t) :
  (applications_stored (snd (AutoApplicant.recordApplication job r s))
   <= S (applications_stored s))%nat.
Proof.
  unfold AutoApplicant.recordApplication, try_catch, bind, applications_stored.
  rewrite now_run, database_run.
  set (a := ApplicationData.mk _ _ _ _ _ _).
  pose proof (insertApplication_grows a (Sys.store s)) as Hgrow.
  destruct (Database.insertApplication a (Sys.store s)) as [[[]|e|] d1]; cbn in *;
    try (destruct s; cbn in *; lia).
  rewrite database_run.
  pose proof (mark_applied_applications (JobRow.job_id job) d1) as Hmark.
  destruct s as [d l n i tr]; cbn in *.
  destruct (Database.mark_applied (JobRow.job_id job) d1) as [[[]|e|] d2]; cbn in *;
    rewrite Hmark; lia.
Qed.

(** One job of the loop: the block always resolves, stores at most one
    application and moves [appliedCount] by at most one. *)
Lemma apply_one_run (this : AutoApplicant.t) (site : Site.t) (job : JobRow.t)
    (c : AutoApplicant.Result) (s : Sys.t) :
  exists c' s',
    AutoApplicant.apply_one this site job c s = (Ok c', s')
    /\ (applications_stored s' <= S (applications_stored s))%nat
    /\ AutoApplicant.appliedCount c <= AutoApplicant.appliedCount c'
       <= AutoApplicant.appliedCount c + 1.
Proof.
  unfold AutoApplicant.apply_one, AutoApplicant.applyToJob, try_catch, bind, emit, modify, ret.
  cbn [fst snd].
  destruct (ApplyResult.success (Site.apply_result site job)).
  - pose proof (recordApplication_grows job (Site.apply_result site job)
                  (Sys.emit (EvApply (JobRow.job_id job)) s)) as Hgrow.
    destruct (AutoApplicant.recordApplication job (Site.apply_result site job)
                (Sys.emit (EvApply (JobRow.job_id job)) s)) as [[[]|e|] s1] eqn:E.
    + do 2 eexists. split; [reflexivity|].
      unfold applications_stored in *. destruct s, s1; cbn in *. lia.
    + do 2 eexists. split; [reflexivity|].
      unfold applications_stored in *. destruct s, s1; cbn in *. lia.
    + exfalso.
      assert (Hs : settles (AutoApplicant.recordApplication job (Site.apply_result site job))).
      { unfold AutoApplicant.recordApplication. settle. }
      apply (Hs (Sys.emit (EvApply (JobRow.job_id job)) s)). rewrite E. reflexivity.
  - do 2 eexists. split; [reflexivity|].
    unfold applications_stored. destruct s; cbn. lia.
Qed.

Lemma apply_loop_bound (this : AutoApplicant.t) (site : Site.t) (remaining : Z)
    (jobs : list JobRow.t) :
  forall (c : AutoApplicant.Result) (s : Sys.t),
  exists c' s',
    AutoApplicant.apply_loop this site remaining jobs c s = (Ok c', s')
    /\ (applications_stored s' <= applications_stored s + length jobs)%nat
    /\ AutoApplicant.appliedCount c <= AutoApplicant.appliedCount c'
       <= AutoApplicant.appliedCount c + Z.of_nat (length jobs).
Proof.
  induction jobs as [|job rest IH]; intros c s.
  - exists c, s. simpl. unfold ret. split; [reflexivity|]. lia.
  - destruct (apply_one_run this site job c s) as [c1 [s1 [Hone [Hrows Hcount]]]].
    cbn [AutoApplicant.apply_loop]. unfold bind. rewrite Hone.
    destruct (remaining <=? AutoApplicant.appliedCount c1).
    + exists c1, s1. split; [reflexivity|]. simpl length. lia.
    + destruct (IH c1 s1) as [c2 [s2 [Hloop [Hrows2 Hcount2]]]].
      exists c2, s2. split; [exact Hloop|]. simpl length. lia.
Qed.

Lemma insert_log_applications (type status : string) (a b c : Z) (msg : option string) :
  preserves Database.applications (Database.insert_log type status a b c msg).
Proof.
  intros d. unfold Database.insert_log, bind, Database.handle.
  destruct (Database.db d); reflexivity.
Qed.

Lemma logApplicationSession_run (type status : string) (a b t0 : Z) (msg : option string)
    (s : Sys.t) :
  exists s',
    AutoApplicant.logApplicationSession type status a b t0 msg s = (Ok tt, s')
    /\ applications_stored s' = applications_stored s.
Proof.
  unfold AutoApplicant.logApplicationSession, try_catch, bind.
  rewrite now_run, database_run.
  pose proof (insert_log_applications type status a b
                (Database.clock (Sys.store s) - t0) msg (Sys.store s)) as Hsame.
  destruct (Database.insert_log _ _ _ _ _ _ (Sys.store s)) as [[[]|e|] d1] eqn:E; cbn in *.
  - eexists. split; [reflexivity|].
    unfold applications_stored. destruct s; cbn in *. rewrite Hsame. reflexivity.
  - eexists. split; [reflexivity|].
    unfold applications_stored. destruct s; cbn in *. rewrite Hsame. reflexivity.
  - exfalso. apply (insert_log_settles type status a b
                      (Database.clock (Sys.store s) - t0) msg (Sys.store s)).
    rewrite E. reflexivity.
Qed.

(** C10: with [AUTO_APPLY_ENABLED] anything but the string 'true', the
    run resolves at once with all counters 0 and leaves the whole state
    as it was: no row of any table is written (no [scraping_logs] row
    either), the session is not used ([isLoggedIn], the count of logins
    and the trace of browser actions are unchanged). *)
Theorem C10_disabled_auto_apply_changes_nothing :
  forall (env : Env.t) (site : Site.t) (filters : option ApplyFilters.t) (s : Sys.t),
    Env.AUTO_APPLY_ENABLED env <> Some "true" ->
    AutoApplicant.autoApplyToJobs (AutoApplicant.constructor env) env site filters s
    = (Ok (AutoApplicant.mkResult 0 0 0), s).
Proof.
  intros env site filters s Hoff.
  unfold AutoApplicant.autoApplyToJobs, AutoApplicant.constructor.
  cbn [AutoApplicant.autoApplyEnabled].
  assert (Hflag : Env.equals (Env.AUTO_APPLY_ENABLED env) "true" = false).
  { unfold Env.equals. destruct (Env.AUTO_APPLY_ENABLED env) as [v|]; [|reflexivity].
    destruct (String.eqb v "true") eqn:E; [|reflexivity].
    apply String.eqb_eq in E. subst v. destruct (Hoff eq_refl). }
  rewrite Hflag. reflexivity.
Qed.

(** The part of [autoApplyToJobs] inside [try], after the daily count. *)
Lemma autoApply_after_count (this : AutoApplicant.t) (env : Env.t) (site : Site.t)
    (filters : option ApplyFilters.t) (t0 remaining : Z) (s : Sys.t) :
  0 < remaining ->
  let rest :=
    LinkedInAuth.ensureLoggedIn env site >>
    let* jobs := AutoApplicant.getJobsToApply filters remaining in
    let* c := AutoApplicant.apply_loop this site remaining jobs (AutoApplicant.mkResult 0 0 0) in
    AutoApplicant.logApplicationSession "auto_apply" "success"
      (AutoApplicant.appliedCount c) (AutoApplicant.errorsCount c) t0 None >>
    ret c in
  (applications_stored (snd (rest s)) <= applications_stored s + Z.to_nat remaining)%nat
  /\ (Database.db (Sys.store s) = false ->
      applications_stored (snd (rest s)) = applications_stored s)
  /\ (forall e, fst (rest s) <> Throw e)
  /\ (forall c, fst (rest s) = Ok c -> 0 <= AutoApplicant.appliedCount c <= remaining).
Proof.
  intros Hpos rest. unfold rest, bind.
  pose proof (ensureLoggedIn_store env site s) as Hstore.
  assert (Hnt : forall e, fst (LinkedInAuth.ensureLoggedIn env site s) <> Throw e).
  { intros e. apply (never_throws_try_catch _ _ (fun _ => never_throws_ret false)). }
  destruct (LinkedInAuth.ensureLoggedIn env site s) as [[b|e|] s1]; cbn [fst snd] in *.
  - destruct (getJobsToApply_run filters remaining s1) as [jobs [Hjobs [Hlen Hclosed]]].
    rewrite Hjobs.
    destruct (apply_loop_bound this site remaining jobs (AutoApplicant.mkResult 0 0 0) s1)
      as [c [s2 [Hloop [Hrows Hcount]]]].
    rewrite Hloop.
    destruct (logApplicationSession_run "auto_apply" "success"
                (AutoApplicant.appliedCount c) (AutoApplicant.errorsCount c) t0 None s2)
      as [s3 [Hlog Hsame]].
    rewrite Hlog. cbn [fst snd ret].
    assert (Hs1 : applications_stored s1 = applications_stored s).
    { unfold applications_stored. rewrite Hstore. reflexivity. }
    specialize (Hlen ltac:(lia)). cbn [AutoApplicant.appliedCount] in Hcount.
    split; [|split; [|split]].
    + lia.
    + intros Hdb. rewrite Hstore in Hclosed. rewrite (Hclosed Hdb) in Hloop.
      cbn in Hloop. injection Hloop as _ <-. lia.
    + discriminate.
    + intros c' Hc'. injection Hc' as <-. lia.
  - destruct (Hnt e eq_refl).
  - assert (Hs1 : applications_stored s1 = applications_stored s).
    { unfold applications_stored. rewrite Hstore. reflexivity. }
    repeat split; try discriminate; lia.
Qed.

(** C1: for every cap [N] and every number [k] of applications the store
    holds for today, one run of [autoApplyToJobs] adds at most [N - k]
    rows to [applications] and reports at most [N - k] applications,
    however many jobs are eligible; and when [k >= N] (on an initialised
    store) the run resolves at once with all counters 0 and changes
    nothing. *)
Theorem C1_daily_cap_enforced :
  forall (this : AutoApplicant.t) (env : Env.t) (site : Site.t)
         (filters : option ApplyFilters.t) (s : Sys.t),
    let N := AutoApplicant.maxApplicationsPerDay this in
    let k := Z.of_nat (today_count (Sys.store s)) in
    let run := AutoApplicant.autoApplyToJobs this env site filters s in
    Z.of_nat (applications_stored (snd run))
      <= Z.of_nat (applications_stored s) + Z.max 0 (N - k)
    /\ (forall c, fst run = Ok c -> 0 <= AutoApplicant.appliedCount c <= Z.max 0 (N - k))
    /\ (N <= k -> Database.db (Sys.store s) = true ->
        run = (Ok (AutoApplicant.mkResult 0 0 0), s)).
Proof.
  intros this env site filters s N k run.
  assert (Hrun : run = AutoApplicant.autoApplyToJobs this env site filters s) by reflexivity.
  clearbody run. unfold AutoApplicant.autoApplyToJobs in Hrun.
  destruct (AutoApplicant.autoApplyEnabled this); cbn [negb] in Hrun.
  2:{ rewrite Hrun. cbn [ret fst snd]. split; [lia|]. split; [|reflexivity].
      intros c Hc. injection Hc as <-. cbn. lia. }
  unfold bind at 1 in Hrun. rewrite now_run in Hrun.
  unfold try_catch, bind at 1 in Hrun. rewrite getTodayApplicationsCount_run in Hrun.
  fold N in Hrun. destruct (Database.db (Sys.store s)) eqn:Hdb.
  - fold k in Hrun. destruct (N <=? k) eqn:Hcap.
    + rewrite Hrun. cbn [ret fst snd]. apply Z.leb_le in Hcap.
      split; [lia|]. split; [|reflexivity].
      intros c Hc. injection Hc as <-. cbn. lia.
    + apply Z.leb_gt in Hcap.
      destruct (autoApply_after_count this env site filters
                  (Database.clock (Sys.store s)) (N - k) s ltac:(lia))
        as [Hrows [_ [Hnt Hcount]]].
      cbv zeta in Hrows, Hnt, Hcount.
      destruct ((LinkedInAuth.ensureLoggedIn env site >> _) s) as [[c|e|] s1] eqn:E;
        cbn [fst snd] in *; rewrite Hrun; cbn [fst snd].
      * split; [lia|]. split; [|lia].
        intros c' Hc'. injection Hc' as <-. specialize (Hcount c eq_refl). lia.
      * destruct (Hnt e eq_refl).
      * split; [lia|]. split; [discriminate | lia].
  - destruct (N <=? 0) eqn:Hcap.
    + rewrite Hrun. cbn [ret fst snd]. apply Z.leb_le in Hcap.
      split; [lia|]. split; [|discriminate].
      intros c Hc. injection Hc as <-. cbn. lia.
    + apply Z.leb_gt in Hcap.
      destruct (autoApply_after_count this env site filters
                  (Database.clock (Sys.store s)) (N - 0) s ltac:(lia))
        as [_ [Hrows [Hnt Hcount]]].
      cbv zeta in Hrows, Hnt, Hcount. specialize (Hrows Hdb).
      destruct ((LinkedInAuth.ensureLoggedIn env site >> _) s) as [[c|e|] s1] eqn:E;
        cbn [fst snd] in *; rewrite Hrun; cbn [fst snd].
      * split; [lia|]. split; [|discriminate].
        intros c' Hc'. injection Hc' as <-.
        (* nothing can be recorded, so nothing is counted *)
        revert E. unfold bind.
        destruct (LinkedInAuth.ensureLoggedIn env site s) as [[b|e|] s0] eqn:E0;
          try discriminate.
        destruct (getJobsToApply_run filters (N - 0) s0) as [jobs [Hjobs [_ Hclosed]]].
        rewrite Hjobs.
        pose proof (ensureLoggedIn_store env site s) as Hstore. rewrite E0 in Hstore.
        cbn [snd] in Hstore. rewrite Hstore in Hclosed. rewrite (Hclosed Hdb).
        cbn [AutoApplicant.apply_loop ret].
        destruct (AutoApplicant.logApplicationSession _ _ _ _ _ _ s0) as [[[]|?|] ?];
          try discriminate.
        intros Heq. injection Heq as <- _. cbn. lia.
      * destruct (Hnt e eq_refl).
      * split; [lia|]. split; [discriminate | discriminate].
Qed.

(** C10, witness: [AUTO_APPLY_ENABLED=false] on a store with five
    eligible jobs. *)
Lemma C10_disabled_auto_apply_changes_nothing_witness :
  AutoApplicant.autoApplyToJobs (AutoApplicant.constructor env_off) env_off friendly_site None
    (fresh five_jobs)
  = (Ok (AutoApplicant.mkResult 0 0 0), fresh five_jobs).
Proof.
  apply (C10_disabled_auto_apply_changes_nothing env_off friendly_site None (fresh five_jobs)).
  vm_compute. discriminate.
Defined.

(** C1, witness: the cap is 2, two applications are dated today and five
    jobs are eligible; the run returns at once with nothing applied. *)
Lemma C1_daily_cap_enforced_witness :
  AutoApplicant.autoApplyToJobs (AutoApplicant.constructor env_on) env_on friendly_site None
    (fresh five_jobs_two_applied)
  = (Ok (AutoApplicant.mkResult 0 0 0), fresh five_jobs_two_applied).
Proof.
  apply (proj2 (proj2 (C1_daily_cap_enforced (AutoApplicant.constructor env_on) env_on
                         friendly_site None (fresh five_jobs_two_applied)))).
  - vm_compute. discriminate.
  - reflexivity.
Defined.

(** With one application dated today and a cap of 2, the run applies to
    one of the five eligible jobs and stops. *)
Example auto_apply_one_left :
  let run := AutoApplicant.autoApplyToJobs (AutoApplicant.constructor env_on) env_on
               friendly_site None (fresh five_jobs_one_applied) in
  fst run = Ok (AutoApplicant.mkResult 1 0 0)
  /\ applications_stored (snd run) = 2%nat
  /\ today_count (Sys.store (snd run)) = 2%nat.
Proof. vm_compute. repeat split; reflexivity. Qed.

(** ** The audit trail *)

Lemma store_audit {A} (m : M Sys.t A) : preserves Sys.store m -> preserves audit m.
Proof. intros Hm s. unfold audit. rewrite (Hm s). reflexivity. Qed.

Lemma audit_database {A} (m : M Database.t A) :
  preserves audit_trail m -> preserves audit (database m).
Proof.
  intros Hm s. rewrite database_run. unfold audit. destruct s; cbn. apply Hm.
Qed.

Ltac audit_step :=
  match goal with
  | |- preserves audit (database _) => apply audit_database
  | |- preserves audit (for_of _ _ _) => apply preserves_for_of
  | |- preserves audit (LinkedInAuth.ensureLoggedIn _ _) =>
      apply store_audit, ensureLoggedIn_store
  | |- preserves audit (BrowserManager.humanLikeDelay _ _ _) =>
      apply store_audit, humanLikeDelay_store
  | |- preserves audit (page_action _ _) => apply store_audit, page_action_store
  | |- preserves audit (emit _) => apply store_audit, emit_store
  | |- preserves _ (modify _) => apply preserves_modify; intros []; reflexivity
  | _ => frame_step
  end.

Ltac audit_frame := repeat audit_step; auto with frame.

Lemma handle_audit : preserves audit_trail Database.handle.
Proof. intros d. unfold Database.handle. destruct (Database.db d); reflexivity. Qed.
#[export] Hint Resolve handle_audit : frame.

Lemma now_audit : preserves audit_trail Database.now.
Proof. intros d. reflexivity. Qed.
#[export] Hint Resolve now_audit : frame.

Lemma insertJob_audit (j : JobData.t) : preserves audit_trail (Database.insertJob j).
Proof. unfold Database.insertJob. audit_frame. Qed.
#[export] Hint Resolve insertJob_audit : frame.

Lemma insertApplication_audit (a : ApplicationData.t) :
  preserves audit_trail (Database.insertApplication a).
Proof. unfold Database.insertApplication. audit_frame. Qed.
#[export] Hint Resolve insertApplication_audit : frame.

Lemma get_job_audit (key : string) : preserves audit_trail (Database.get_job key).
Proof. unfold Database.get_job. audit_frame. Qed.
#[export] Hint Resolve get_job_audit : frame.

Lemma mark_applied_audit (key : string) : preserves audit_trail (Database.mark_applied key).
Proof. unfold Database.mark_applied. audit_frame. Qed.
#[export] Hint Resolve mark_applied_audit : frame.

Lemma count_today_audit : preserves audit_trail Database.count_today_applications.
Proof. unfold Database.count_today_applications. audit_frame. Qed.
#[export] Hint Resolve count_today_audit : frame.

Lemma touch_audit (aid : option string) : preserves audit_trail (ApplicationTracker.touch aid).
Proof. unfold ApplicationTracker.touch. audit_frame. Qed.
#[export] Hint Resolve touch_audit : frame.

Lemma all_applications_audit : preserves audit_trail ApplicationTracker.all_applications.
Proof. unfold ApplicationTracker.all_applications. audit_frame. Qed.
#[export] Hint Resolve all_applications_audit : frame.

Lemma processAndSaveJob_audit (j : JobData.t) : preserves audit (JobScraper.processAndSaveJob j).
Proof. unfold JobScraper.processAndSaveJob. audit_frame. Qed.
#[export] Hint Resolve processAndSaveJob_audit : frame.

Lemma navigateToJobs_audit (site : Site.t) : preserves audit (LinkedInAuth.navigateToJobs site).
Proof. unfold LinkedInAuth.navigateToJobs. audit_frame. Qed.
#[export] Hint Resolve navigateToJobs_audit : frame.

Lemma applySearchFilters_audit (site : Site.t) (f : SearchFilters.t) :
  preserves audit (JobScraper.applySearchFilters site f).
Proof. unfold JobScraper.applySearchFilters. audit_frame. Qed.
#[export] Hint Resolve applySearchFilters_audit : frame.

Lemma updateApplicationStatus_audit (a : AppRow.t) (u : StatusUpdate.t) :
  preserves audit (ApplicationTracker.updateApplicationStatus a u).
Proof. unfold ApplicationTracker.updateApplicationStatus. audit_frame. Qed.
#[export] Hint Resolve updateApplicationStatus_audit : frame.

Lemma findApplicationElement_audit (site : Site.t) (a : AppRow.t) :
  preserves audit (ApplicationTracker.findApplicationElement site a).
Proof. unfold ApplicationTracker.findApplicationElement. audit_frame. Qed.
#[export] Hint Resolve findApplicationElement_audit : frame.

Lemma checkApplicationStatus_audit (site : Site.t) (a : AppRow.t) :
  preserves audit (ApplicationTracker.checkApplicationStatus site a).
Proof. unfold ApplicationTracker.checkApplicationStatus. audit_frame. Qed.
#[export] Hint Resolve checkApplicationStatus_audit : frame.

Lemma navigateToApplicationsPage_audit (site : Site.t) :
  preserves audit (ApplicationTracker.navigateToApplicationsPage site).
Proof. unfold ApplicationTracker.navigateToApplicationsPage. audit_frame. Qed.
#[export] Hint Resolve navigateToApplicationsPage_audit : frame.

Lemma getTodayApplicationsCount_audit : preserves audit AutoApplicant.getTodayApplicationsCount.
Proof. unfold AutoApplicant.getTodayApplicationsCount. audit_frame. Qed.
#[export] Hint Resolve getTodayApplicationsCount_audit : frame.

Lemma getJobsToApply_audit (f : option ApplyFilters.t) (n : Z) :
  preserves audit (AutoApplicant.getJobsToApply f n).
Proof. unfold AutoApplicant.getJobsToApply. audit_frame. Qed.
#[export] Hint Resolve getJobsToApply_audit : frame.

Lemma recordApplication_audit (job : JobRow.t) (r : ApplyResult.t) :
  preserves audit (AutoApplicant.recordApplication job r).
Proof. unfold AutoApplicant.recordApplication. audit_frame. Qed.
#[export] Hint Resolve recordApplication_audit : frame.

Lemma apply_one_audit (this : AutoApplicant.t) (site : Site.t) (job : JobRow.t)
    (c : AutoApplicant.Result) :
  preserves audit (AutoApplicant.apply_one this site job c).
Proof. unfold AutoApplicant.apply_one, AutoApplicant.applyToJob. audit_frame. Qed.
#[export] Hint Resolve apply_one_audit : frame.

Lemma apply_loop_audit (this : AutoApplicant.t) (site : Site.t) (remaining : Z)
    (jobs : list JobRow.t) :
  forall c, preserves audit (AutoApplicant.apply_loop this site remaining jobs c).
Proof. induction jobs as [|job rest IH]; intros c; simpl; audit_frame. Qed.
#[export] Hint Resolve apply_loop_audit : frame.

(** The three session loggers share one body: on an initialised store it
    resolves and appends exactly one row; the handle is left as it was. *)
Lemma log_session_run (type status : string) (a b t0 : Z) (msg : option string) (s : Sys.t) :
  Database.db (Sys.store s) = true ->
  exists s',
    try_catch
      (let* t := database Database.now in
       database (Database.insert_log type status a b (t - t0) msg))
      (fun _ => ret tt) s = (Ok tt, s')
    /\ Database.db (Sys.store s') = true
    /\ one_more type status s s'.
Proof.
  intros Hdb. unfold try_catch, bind. rewrite now_run, database_run.
  unfold Database.insert_log, bind. rewrite (handle_open _ Hdb). cbn.
  eexists. split; [reflexivity|]. destruct s as [d l n i tr]; cbn in *.
  split; [exact Hdb|]. eexists. cbn. repeat split.
Qed.

(** The body of a logged run: when it resolves it has appended one
    "success" row; when it rejects it has appended nothing yet. *)
Definition logs_on_success (type : string) {A} (m : M Sys.t A) : Prop :=
  forall s, Database.db (Sys.store s) = true ->
    match m s with
    | (Ok _, s') => one_more type "success" s s'
    | (Throw _, s') => audit s' = audit s
    | (Hang, _) => True
    end.

Lemma logs_on_success_bind (type : string) {A B} (m : M Sys.t A) (k : A -> M Sys.t B) :
  preserves audit m -> (forall a, logs_on_success type (k a)) ->
  logs_on_success type (bind m k).
Proof.
  intros Hm Hk s Hdb. unfold bind. specialize (Hm s).
  destruct (m s) as [[a|e|] s1]; cbn [snd] in Hm; [|exact Hm|exact I].
  assert (Hdb1 : Database.db (Sys.store s1) = true).
  { unfold audit, audit_trail in Hm. injection Hm as Hd _. congruence. }
  specialize (Hk a s1 Hdb1).
  assert (Hlogs : Database.scraping_logs (Sys.store s1) = Database.scraping_logs (Sys.store s)).
  { unfold audit, audit_trail in Hm. injection Hm as _ Hl. exact Hl. }
  destruct (k a s1) as [[b|e|] s2]; [|congruence|exact I].
  destruct Hk as [row [Hrow Hfields]]. exists row. rewrite Hrow, Hlogs. tauto.
Qed.

Lemma logScrapingSession_run (type status : string) (a b t0 : Z) (msg : option string)
    (s : Sys.t) :
  Database.db (Sys.store s) = true ->
  exists s', JobScraper.logScrapingSession type status a b t0 msg s = (Ok tt, s')
             /\ one_more type status s s'.
Proof.
  intros Hdb. destruct (log_session_run type status a b t0 msg s Hdb) as [s' [H [_ Hone]]].
  exists s'. split; assumption.
Qed.

Lemma logTrackingSession_run (type status : string) (a b u t0 : Z) (msg : option string)
    (s : Sys.t) :
  Database.db (Sys.store s) = true ->
  exists s', ApplicationTracker.logTrackingSession type status a b u t0 msg s = (Ok tt, s')
             /\ one_more type status s s'.
Proof.
  intros Hdb. destruct (log_session_run type status a b t0 msg s Hdb) as [s' [H [_ Hone]]].
  exists s'. split; assumption.
Qed.

Lemma logApplicationSession_logged (type status : string) (a b t0 : Z) (msg : option string)
    (s : Sys.t) :
  Database.db (Sys.store s) = true ->
  exists s', AutoApplicant.logApplicationSession type status a b t0 msg s = (Ok tt, s')
             /\ one_more type status s s'.
Proof.
  intros Hdb. destruct (log_session_run type status a b t0 msg s Hdb) as [s' [H [_ Hone]]].
  exists s'. split; assumption.
Qed.

(** [try { body } catch (error) { log 'error'; throw error }] around such
    a body: whenever the run settles, exactly one row was appended, and
    its status tells how the run ended. *)
Lemma logged_run (type : string) {A} (body : M Sys.t A) (log_error : string -> M Sys.t unit)
    (s : Sys.t) :
  logs_on_success type body ->
  (forall e s1, Database.db (Sys.store s1) = true ->
     exists s2, log_error e s1 = (Ok tt, s2) /\ one_more type "error" s1 s2) ->
  Database.db (Sys.store s) = true ->
  match try_catch body (fun error => log_error error >> throw error) s with
  | (Ok _, s') => one_more type "success" s s'
  | (Throw _, s') => one_more type "error" s s'
  | (Hang, _) => True
  end.
Proof.
  intros Hbody Hlog Hdb. unfold try_catch. specialize (Hbody s Hdb).
  destruct (body s) as [[a|e|] s1]; [exact Hbody| |exact I].
  assert (Hdb1 : Database.db (Sys.store s1) = true).
  { unfold audit, audit_trail in Hbody. injection Hbody as Hd _. congruence. }
  unfold bind. destruct (Hlog e s1 Hdb1) as [s2 [Hrun Hone]]. rewrite Hrun.
  cbn [throw]. destruct Hone as [row [Hrow Hfields]]. exists row.
  unfold audit, audit_trail in Hbody. injection Hbody as _ Hl.
  rewrite Hrow, Hl. tauto.
Qed.

Lemma log_leaf (type : string) {A} (log_ok : M Sys.t unit) (result : A) :
  (forall s, Database.db (Sys.store s) = true ->
     exists s', log_ok s = (Ok tt, s') /\ one_more type "success" s s') ->
  logs_on_success type (log_ok >> ret result).
Proof.
  intros Hlog s Hdb. unfold bind. destruct (Hlog s Hdb) as [s1 [Hrun Hone]].
  rewrite Hrun. exact Hone.
Qed.

Lemma bind_now {A} (k : Z -> M Sys.t A) (s : Sys.t) :
  bind (database Database.now) k s = k (Database.clock (Sys.store s)) s.
Proof. unfold bind. rewrite now_run. reflexivity. Qed.

Lemma scrapeJobs_logged (env : Env.t) (site : Site.t) (sf : SearchFilters.t)
    (cf : option SearchFilters.t) (s : Sys.t) :
  Database.db (Sys.store s) = true ->
  match JobScraper.scrapeJobs env site sf cf s with
  | (Ok _, s') => one_more "job_scrape" "success" s s'
  | (Throw _, s') => one_more "job_scrape" "error" s s'
  | (Hang, _) => True
  end.
Proof.
  intros Hdb. unfold JobScraper.scrapeJobs. rewrite bind_now.
  apply (logged_run "job_scrape"); [| |exact Hdb].
  - repeat first
      [ apply log_leaf; intros; apply logScrapingSession_run; assumption
      | apply logs_on_success_bind;
        [first [solve [audit_frame] | intros ?; reflexivity] | intros] ].
  - intros. apply logScrapingSession_run. assumption.
Qed.

Lemma trackApplications_logged (env : Env.t) (site : Site.t) (s : Sys.t) :
  Database.db (Sys.store s) = true ->
  match ApplicationTracker.trackApplications env site s with
  | (Ok _, s') => one_more "application_check" "success" s s'
  | (Throw _, s') => one_more "application_check" "error" s s'
  | (Hang, _) => True
  end.
Proof.
  intros Hdb. unfold ApplicationTracker.trackApplications. rewrite bind_now.
  apply (logged_run "application_check"); [| |exact Hdb].
  - repeat first
      [ apply log_leaf; intros; apply logTrackingSession_run; assumption
      | apply logs_on_success_bind; [solve [audit_frame] | intros] ].
  - intros. apply logTrackingSession_run. assumption.
Qed.

Lemma try_catch_at {S A} (m m' : M S A) (h : string -> M S A) (s : S) :
  m s = m' s -> try_catch m h s = try_catch m' h s.
Proof. intros H. unfold try_catch. rewrite H. reflexivity. Qed.

Lemma autoApplyToJobs_logged (this : AutoApplicant.t) (env : Env.t) (site : Site.t)
    (filters : option ApplyFilters.t) (s : Sys.t) :
  Database.db (Sys.store s) = true ->
  let quiet :=
    negb (AutoApplicant.autoApplyEnabled this)
    || (AutoApplicant.maxApplicationsPerDay this <=? Z.of_nat (today_count (Sys.store s))) in
  match AutoApplicant.autoApplyToJobs this env site filters s with
  | (Ok c, s') =>
      if quiet then s' = s /\ c = AutoApplicant.mkResult 0 0 0
      else one_more "auto_apply" "success" s s'
  | (Throw _, s') => one_more "auto_apply" "error" s s'
  | (Hang, _) => True
  end.
Proof.
  intros Hdb quiet. unfold quiet, AutoApplicant.autoApplyToJobs.
  destruct (AutoApplicant.autoApplyEnabled this); cbn [negb orb]; [|split; reflexivity].
  rewrite bind_now.
  destruct (AutoApplicant.maxApplicationsPerDay this <=? Z.of_nat (today_count (Sys.store s)))
    eqn:Hcap.
  - unfold try_catch, bind. rewrite getTodayApplicationsCount_run, Hdb, Hcap.
    split; reflexivity.
  - set (remaining := AutoApplicant.maxApplicationsPerDay this
                      - Z.of_nat (today_count (Sys.store s))).
    set (rest :=
      LinkedInAuth.ensureLoggedIn env site >>
      let* jobs := AutoApplicant.getJobsToApply filters remaining in
      let* c := AutoApplicant.apply_loop this site remaining jobs (AutoApplicant.mkResult 0 0 0) in
      AutoApplicant.logApplicationSession "auto_apply" "success"
        (AutoApplicant.appliedCount c) (AutoApplicant.errorsCount c)
        (Database.clock (Sys.store s)) None >>
      ret c).
    rewrite (try_catch_at _ rest).
    2:{ unfold bind at 1. rewrite getTodayApplicationsCount_run, Hdb, Hcap. reflexivity. }
    pose proof (logged_run "auto_apply" rest
                  (fun error => AutoApplicant.logApplicationSession "auto_apply" "error" 0 0
                                  (Database.clock (Sys.store s)) (Some error)) s) as Hrun.
    cbv beta in Hrun.
    destruct (try_catch rest _ s) as [[c|e|] s'].
    + apply Hrun; [| |exact Hdb].
      * unfold rest.
        repeat first
          [ apply log_leaf; intros; apply logApplicationSession_logged; assumption
          | apply logs_on_success_bind; [solve [audit_frame] | intros] ].
      * intros. apply logApplicationSession_logged. assumption.
    + apply Hrun; [| |exact Hdb].
      * unfold rest.
        repeat first
          [ apply log_leaf; intros; apply logApplicationSession_logged; assumption
          | apply logs_on_success_bind; [solve [audit_frame] | intros] ].
      * intros. apply logApplicationSession_logged. assumption.
    + exact I.
Qed.

(** C8, counterexample: auto-apply is switched on, the cap is 2 and two
    applications are dated today.  The run completes (with all counters 0)
    and [scraping_logs] has no row for it; the same holds for a run with
    auto-apply switched off. *)
Lemma C8_capped_run_leaves_no_row :
  let capped := AutoApplicant.autoApplyToJobs (AutoApplicant.constructor env_on) env_on
                  friendly_site None (fresh five_jobs_two_applied) in
  let disabled := AutoApplicant.autoApplyToJobs (AutoApplicant.constructor env_off) env_off
                    friendly_site None (fresh five_jobs) in
  fst capped = Ok (AutoApplicant.mkResult 0 0 0)
  /\ Database.scraping_logs (Sys.store (snd capped)) = []
  /\ fst disabled = Ok (AutoApplicant.mkResult 0 0 0)
  /\ Database.scraping_logs (Sys.store (snd disabled)) = [].
Proof. vm_compute. repeat split; reflexivity. Qed.

(** C8, as amended: on an initialised store, every run of [scrapeJobs]
    and of [trackApplications] that settles, and every run of
    [autoApplyToJobs] that gets past its two early returns and settles,
    has appended exactly one row to [scraping_logs] by the time it
    resolves or rejects: status 'success' when it resolves, 'error' when it
    rejects.  A run of [autoApplyToJobs] with auto-apply off, or with the
    daily cap already reached, resolves with all counters 0 and writes
    nothing. *)
Theorem C8_one_row_per_logged_run :
  forall (env : Env.t) (site : Site.t) (s : Sys.t),
    Database.db (Sys.store s) = true ->
    (forall (searchFilters : SearchFilters.t) (customFilters : option SearchFilters.t),
       match JobScraper.scrapeJobs env site searchFilters customFilters s with
       | (Ok _, s') => one_more "job_scrape" "success" s s'
       | (Throw _, s') => one_more "job_scrape" "error" s s'
       | (Hang, _) => True
       end)
    /\ match ApplicationTracker.trackApplications env site s with
       | (Ok _, s') => one_more "application_check" "success" s s'
       | (Throw _, s') => one_more "application_check" "error" s s'
       | (Hang, _) => True
       end
    /\ (forall (this : AutoApplicant.t) (filters : option ApplyFilters.t),
          let quiet :=
            negb (AutoApplicant.autoApplyEnabled this)
            || (AutoApplicant.maxApplicationsPerDay this
                <=? Z.of_nat (today_count (Sys.store s))) in
          match AutoApplicant.autoApplyToJobs this env site filters s with
          | (Ok c, s') =>
              if quiet then s' = s /\ c = AutoApplicant.mkResult 0 0 0
              else one_more "auto_apply" "success" s s'
          | (Throw _, s') => one_more "auto_apply" "error" s s'
          | (Hang, _) => True
          end).
Proof.
  intros env site s Hdb. split; [|split].
  - intros sf cf. apply scrapeJobs_logged. exact Hdb.
  - apply trackApplications_logged. exact Hdb.
  - intros this filters. apply autoApplyToJobs_logged. exact Hdb.
Qed.

(** C8, witness: a scrape run on the store with five eligible jobs and
    one application dated today. *)
Lemma C8_one_row_per_logged_run_witness :
  match JobScraper.scrapeJobs env_on friendly_site (SearchFilters.mk [] [] [] (Some 50)) None
          (fresh five_jobs_one_applied) with
  | (Ok _, s') => one_more "job_scrape" "success" (fresh five_jobs_one_applied) s'
  | (Throw _, s') => one_more "job_scrape" "error" (fresh five_jobs_one_applied) s'
  | (Hang, _) => True
  end.
Proof.
  apply (proj1 (C8_one_row_per_logged_run env_on friendly_site (fresh five_jobs_one_applied)
                  eq_refl)).
Defined.

(** On that store an auto-apply run below the cap logs one 'success'
    row. *)
Example auto_apply_run_is_logged :
  map LogRow.status
    (Database.scraping_logs
       (Sys.store (snd (AutoApplicant.autoApplyToJobs (AutoApplicant.constructor env_on)
                          env_on friendly_site None (fresh five_jobs_one_applied)))))
  = ["success"].
Proof. vm_compute. reflexivity. Qed.

(** ** Login challenges *)

Lemma await_operator_never_throws (who : string) : never_throws (await_operator who).
Proof.
  intros s e. unfold await_operator, bind, emit, modify, get_state. cbn.
  destruct (Sys.stdin s); discriminate.
Qed.

Lemma humanLikeDelay_never_throws (who : string) (lo hi : Z) :
  never_throws (BrowserManager.humanLikeDelay who lo hi).
Proof. intros s e. discriminate. Qed.

Lemma challenge_attended (env : Env.t) (present : bool) (msg : string) :
  BrowserManager.operator_expected env = true ->
  never_throws (LinkedInAuth.challenge env present msg).
Proof.
  intros Hop. unfold LinkedInAuth.challenge. rewrite Hop.
  destruct present; [apply await_operator_never_throws | apply never_throws_ret].
Qed.

Lemma handleCaptcha_attended (env : Env.t) (present : bool) :
  BrowserManager.operator_expected env = true ->
  never_throws (BrowserManager.handleCaptcha env present).
Proof.
  intros Hop. unfold BrowserManager.handleCaptcha. rewrite Hop.
  apply never_throws_rethrow.
  destruct present; [apply await_operator_never_throws | apply never_throws_ret].
Qed.

Lemma handleLoginChallenges_attended (env : Env.t) (v : ChallengeView.t) :
  BrowserManager.operator_expected env = true ->
  never_throws (LinkedInAuth.handleLoginChallenges env v).
Proof.
  intros Hop. unfold LinkedInAuth.handleLoginChallenges.
  apply never_throws_rethrow.
  repeat (apply never_throws_bind; [|intros _]);
    auto using challenge_attended, handleCaptcha_attended, humanLikeDelay_never_throws.
Qed.

(** Nobody expected at the keyboard: the first challenge found rejects,
    after the opening delay and nothing else. *)
Lemma handleLoginChallenges_unattended (env : Env.t) (v : ChallengeView.t) (s : Sys.t) :
  ChallengeView.detected v = true ->
  BrowserManager.operator_expected env = false ->
  exists msg,
    LinkedInAuth.handleLoginChallenges env v s
    = (Throw msg, Sys.emit (EvDelay "handleLoginChallenges" 2000 3000) s)
    /\ is_challenge_error msg = true.
Proof.
  intros Hv Hop.
  unfold LinkedInAuth.handleLoginChallenges, LinkedInAuth.challenge,
    BrowserManager.handleCaptcha.
  rewrite Hop.
  destruct v as [a b c d e f]. unfold ChallengeView.detected in Hv. cbn in Hv |- *.
  destruct a, b, c, d, e, f; try discriminate Hv;
    (eexists; split; [reflexivity | reflexivity]).
Qed.

(** The operator is expected but types nothing: the handler is left
    waiting on stdin. *)
Lemma handleLoginChallenges_blocks (env : Env.t) (v : ChallengeView.t) (s : Sys.t) :
  ChallengeView.detected v = true ->
  BrowserManager.operator_expected env = true ->
  Sys.stdin s = O ->
  exists who,
    LinkedInAuth.handleLoginChallenges env v s
    = (Hang, Sys.emit (EvStdin who) (Sys.emit (EvDelay "handleLoginChallenges" 2000 3000) s)).
Proof.
  intros Hv Hop Hin.
  unfold LinkedInAuth.handleLoginChallenges, LinkedInAuth.challenge,
    BrowserManager.handleCaptcha.
  rewrite Hop.
  destruct v as [a b c d e f]. unfold ChallengeView.detected in Hv.
  destruct s as [st li lo inp tr]. cbn in Hin. subst inp. cbn in Hv |- *.
  destruct a, b, c, d, e, f; try discriminate Hv; (eexists; reflexivity).
Qed.

Lemma operator_waits_emit (e : Event) (s : Sys.t) :
  is_stdin e = false -> operator_waits (Sys.emit e s) = operator_waits s.
Proof.
  intros He. unfold operator_waits. destruct s as [st li lo inp tr]. cbn.
  rewrite List.filter_app. cbn. rewrite He. rewrite app_nil_r. reflexivity.
Qed.

(** [login()] passes the challenge error on (after a screenshot), again
    without a wait for the operator. *)
Lemma login_unattended_challenge (env : Env.t) (w : LoginWorld.t) (s : Sys.t) :
  reaches_challenges env w = true ->
  ChallengeView.detected (LoginWorld.challenges w) = true ->
  BrowserManager.operator_expected env = false ->
  exists msg,
    fst (LinkedInAuth.login env w s) = Throw msg
    /\ is_challenge_error msg = true
    /\ operator_waits (snd (LinkedInAuth.login env w s)) = operator_waits s
    /\ Sys.isLoggedIn (snd (LinkedInAuth.login env w s)) = Sys.isLoggedIn s.
Proof.
  intros Hreach Hv Hop. unfold reaches_challenges in Hreach.
  destruct w as [launch failures gerr already form v home verified]. cbn in Hreach, Hv.
  repeat rewrite andb_true_iff in Hreach.
  destruct Hreach as [[[[[Hmail Hpass] Hlaunch] Hfail] Halready] Hform].
  destruct launch; [discriminate|]. destruct already; [discriminate|].
  destruct form; [discriminate|].
  unfold LinkedInAuth.login. cbn [LoginWorld.launch_error LoginWorld.goto_failures
    LoginWorld.goto_error LoginWorld.already_in LoginWorld.form_error LoginWorld.challenges
    LoginWorld.home_error LoginWorld.verified].
  rewrite Hmail, Hpass. cbn [negb orb].
  destruct failures as [|[|[|n]]]; [| | |discriminate Hfail];
    unfold try_catch, bind, page_action, emit, modify, ret, throw,
      BrowserManager.humanLikeDelay;
    cbn -[LinkedInAuth.handleLoginChallenges];
    match goal with
    | |- context [LinkedInAuth.handleLoginChallenges env v ?st] =>
        destruct (handleLoginChallenges_unattended env v st Hv Hop) as [msg [Hrun Hmsg]];
        rewrite Hrun
    end;
    exists msg; cbn; (split; [reflexivity|]); (split; [exact Hmsg|]);
    (split; [|reflexivity]);
    unfold operator_waits; destruct s as [st li lo inp tr]; cbn;
    repeat (rewrite List.filter_app; cbn [List.filter is_stdin]);
    repeat rewrite app_nil_r; reflexivity.
Qed.

(** C5: a challenge is on the page (a verification code, a CAPTCHA, a
    phone or PIN check).  With [HEADLESS_MODE] set (to anything but
    'false'), [handleLoginChallenges] rejects after its opening delay of at
    most three seconds, without a wait for the operator, with one of the
    four challenge errors, and [login()] rejects with that error; none of
    the other errors of the login path is a challenge error.  With
    [HEADLESS_MODE] unset or 'false' the handler never rejects, and as long
    as the operator types nothing it stays blocked on stdin.  A browser
    launched headless ([HEADLESS_MODE === 'true']) is always in the first
    case. *)
Theorem C5_unattended_challenge_fails_fast :
  forall (env : Env.t) (v : ChallengeView.t) (s : Sys.t),
    ChallengeView.detected v = true ->
    (BrowserManager.operator_expected env = false ->
       (exists msg,
          LinkedInAuth.handleLoginChallenges env v s
          = (Throw msg, Sys.emit (EvDelay "handleLoginChallenges" 2000 3000) s)
          /\ is_challenge_error msg = true)
       /\ (forall w : LoginWorld.t,
             reaches_challenges env w = true -> LoginWorld.challenges w = v ->
             exists msg,
               fst (LinkedInAuth.login env w s) = Throw msg
               /\ is_challenge_error msg = true
               /\ operator_waits (snd (LinkedInAuth.login env w s)) = operator_waits s))
    /\ (BrowserManager.operator_expected env = true ->
          (forall msg, fst (LinkedInAuth.handleLoginChallenges env v s) <> Throw msg)
          /\ (Sys.stdin s = O ->
              exists who,
                LinkedInAuth.handleLoginChallenges env v s
                = (Hang, Sys.emit (EvStdin who)
                           (Sys.emit (EvDelay "handleLoginChallenges" 2000 3000) s))))
    /\ forallb (fun msg => negb (is_challenge_error msg)) other_login_errors = true
    /\ (BrowserManager.isHeadless env = true -> BrowserManager.operator_expected env = false).
Proof.
  intros env v s Hv. split; [|split; [|split]].
  - intros Hop. split.
    + apply handleLoginChallenges_unattended; assumption.
    + intros w Hreach Hw. subst v.
      destruct (login_unattended_challenge env w s Hreach Hv Hop)
        as [msg [Hthrow [Hmsg [Hwaits _]]]].
      exists msg. auto.
  - intros Hop. split.
    + intros msg. apply handleLoginChallenges_attended. exact Hop.
    + intros Hin. apply handleLoginChallenges_blocks; assumption.
  - reflexivity.
  - unfold BrowserManager.isHeadless, BrowserManager.operator_expected, Env.equals, Env.truthy.
    destruct (Env.HEADLESS_MODE env) as [mode|]; [|discriminate].
    intros Htrue. apply String.eqb_eq in Htrue. subst mode. reflexivity.
Qed.

(** C5, witness: a CAPTCHA with [HEADLESS_MODE=true]. *)
Lemma C5_unattended_challenge_fails_fast_witness :
  exists msg,
    LinkedInAuth.handleLoginChallenges env_on captcha_only (fresh empty_store)
    = (Throw msg, Sys.emit (EvDelay "handleLoginChallenges" 2000 3000) (fresh empty_store))
    /\ is_challenge_error msg = true.
Proof.
  apply (proj1 (C5_unattended_challenge_fails_fast env_on captcha_only (fresh empty_store)
                  eq_refl)).
  reflexivity.
Defined.

(** The same CAPTCHA: rejected at once when headless, waited for at the
    desk. *)
Example captcha_headless_and_at_the_desk :
  fst (LinkedInAuth.handleLoginChallenges env_on captcha_only (fresh empty_store))
  = Throw "CAPTCHA detected in headless mode - cannot proceed"
  /\ fst (LinkedInAuth.handleLoginChallenges env_desk captcha_only (fresh empty_store)) = Hang.
Proof. split; reflexivity. Qed.

(** ** The login retry loop *)

Section BlindViews.
(** A view of the state that the page, the operator and the login flag
    cannot move, nor any event other than a retry wait. *)
Context {X : Type} (f : Sys.t -> X).
Hypothesis f_emit : forall e s, is_retry_delay e = false -> f (Sys.emit e s) = f s.
Hypothesis f_stdin : forall n s, f (Sys.set_stdin n s) = f s.
Hypothesis f_flag : forall b s, f (Sys.set_isLoggedIn b s) = f s.

Lemma blind_emit (e : Event) : is_retry_delay e = false -> preserves f (emit e).
Proof using f_emit. intros He s. apply f_emit. exact He. Qed.

Lemma blind_delay (who : string) (lo hi : Z) :
  String.eqb who "ensureLoggedIn" = false ->
  preserves f (BrowserManager.humanLikeDelay who lo hi).
Proof using f_emit. intros Hwho. apply blind_emit. exact Hwho. Qed.

Lemma blind_flag (b : bool) : preserves f (modify (Sys.set_isLoggedIn b)).
Proof using f_flag. intros s. apply f_flag. Qed.

Lemma blind_await (who : string) : preserves f (await_operator who).
Proof using f_emit f_stdin.
  intros s. unfold await_operator, bind, emit, modify, get_state. cbn.
  destruct (Sys.stdin s); cbn; [|rewrite f_stdin]; apply f_emit; reflexivity.
Qed.

Ltac blind :=
  repeat first
    [ apply blind_delay; reflexivity
    | apply blind_emit; reflexivity
    | apply blind_flag
    | apply blind_await
    | frame_step ].

Lemma blind_page_action (e : Event) (err : option string) :
  is_retry_delay e = false -> preserves f (page_action e err).
Proof using f_emit.
  intros He. unfold page_action. apply preserves_bind; [apply blind_emit; exact He|].
  intros _. destruct err; [apply preserves_throw | apply preserves_ret].
Qed.

Lemma blind_handleLoginChallenges (env : Env.t) (v : ChallengeView.t) :
  preserves f (LinkedInAuth.handleLoginChallenges env v).
Proof using f_emit f_stdin.
  unfold LinkedInAuth.handleLoginChallenges, LinkedInAuth.challenge,
    BrowserManager.handleCaptcha.
  blind.
Qed.

Lemma blind_goto_login (retries failures : nat) (error : string) :
  preserves f (LinkedInAuth.goto_login retries failures error).
Proof using f_emit.
  revert failures. induction retries as [|r IH]; intros failures; simpl; blind.
  apply IH.
Qed.

(** [login()] after it has been counted. *)
Lemma blind_login (env : Env.t) (w : LoginWorld.t) (s : Sys.t) :
  f (snd (LinkedInAuth.login env w s)) = f (Sys.count_login s).
Proof using f_emit f_stdin f_flag.
  unfold LinkedInAuth.login, bind at 1, modify at 1.
  match goal with
  | |- f (snd (try_catch ?body ?h ?s0)) = _ =>
      assert (Hp : preserves f (try_catch body h)); [|exact (Hp s0)]
  end.
  blind; try (apply blind_page_action; reflexivity).
  - apply blind_goto_login.
  - apply blind_handleLoginChallenges.
Qed.

End BlindViews.

Lemma retry_delays_emit (e : Event) (s : Sys.t) :
  retry_delays (Sys.emit e s)
  = retry_delays s ++ (if is_retry_delay e then [e] else []).
Proof.
  unfold retry_delays. destruct s as [st li lo inp tr]. cbn.
  rewrite List.filter_app. cbn. destruct (is_retry_delay e); reflexivity.
Qed.

Lemma login_logins (env : Env.t) (w : LoginWorld.t) (s : Sys.t) :
  Sys.logins (snd (LinkedInAuth.login env w s)) = S (Sys.logins s).
Proof.
  rewrite (blind_login Sys.logins); [destruct s; reflexivity| | |];
    intros; destruct s0; reflexivity.
Qed.

Lemma login_retry_delays (env : Env.t) (w : LoginWorld.t) (s : Sys.t) :
  retry_delays (snd (LinkedInAuth.login env w s)) = retry_delays s.
Proof.
  rewrite (blind_login retry_delays).
  - destruct s; reflexivity.
  - intros e s0 He. rewrite retry_delays_emit, He. apply app_nil_r.
  - intros; destruct s0; reflexivity.
  - intros; destruct s0; reflexivity.
Qed.

(** A rejection leaves [isLoggedIn] as it was. *)
Definition flag_kept_on_throw {A} (m : M Sys.t A) : Prop :=
  forall s e, fst (m s) = Throw e -> Sys.isLoggedIn (snd (m s)) = Sys.isLoggedIn s.

Lemma flag_kept_bind {A B} (m : M Sys.t A) (k : A -> M Sys.t B) :
  preserves Sys.isLoggedIn m -> (forall a, flag_kept_on_throw (k a)) ->
  flag_kept_on_throw (bind m k).
Proof.
  intros Hm Hk s e. unfold bind. specialize (Hm s).
  destruct (m s) as [[a|e'|] s1]; cbn [fst snd] in *.
  - intros Hthrow. rewrite (Hk a s1 e Hthrow). exact Hm.
  - intros _. exact Hm.
  - discriminate.
Qed.

Lemma flag_kept_throw {A} (msg : string) : flag_kept_on_throw (@throw Sys.t A msg).
Proof. intros s e _. reflexivity. Qed.

Lemma flag_kept_quiet {A} (m : M Sys.t A) : never_throws m -> flag_kept_on_throw m.
Proof. intros Hm s e Hthrow. destruct (Hm s e Hthrow). Qed.

Lemma flag_emit (e : Event) : preserves Sys.isLoggedIn (emit e).
Proof. intros s. reflexivity. Qed.

Lemma flag_stdin (n : nat) (s : Sys.t) : Sys.isLoggedIn (Sys.set_stdin n s) = Sys.isLoggedIn s.
Proof. reflexivity. Qed.

Lemma flag_kept_try_catch {A} (m : M Sys.t A) (before : string -> M Sys.t unit) :
  flag_kept_on_throw m -> (forall e, preserves Sys.isLoggedIn (before e)) ->
  flag_kept_on_throw (try_catch m (fun error => before error >> throw error)).
Proof.
  intros Hm Hb s e. unfold try_catch. specialize (Hm s).
  destruct (m s) as [[a|e'|] s1]; cbn [fst snd] in *; try discriminate.
  intros _. unfold bind. specialize (Hb e' s1).
  destruct (before e' s1) as [[[]|e2|] s2]; cbn [fst snd throw] in *;
    rewrite Hb; apply (Hm e' eq_refl).
Qed.

Lemma login_flag_kept (env : Env.t) (w : LoginWorld.t) :
  flag_kept_on_throw (LinkedInAuth.login env w).
Proof.
  assert (Hemit : forall e s, is_retry_delay e = false ->
                    Sys.isLoggedIn (Sys.emit e s) = Sys.isLoggedIn s) by reflexivity.
  unfold LinkedInAuth.login.
  apply flag_kept_bind; [intros s; reflexivity|]. intros _.
  apply flag_kept_try_catch; [|intros; apply flag_emit].
  { destruct (negb _ || negb _); [apply flag_kept_throw|].
    apply flag_kept_bind; [apply (blind_page_action _ Hemit); reflexivity|]. intros _.
    apply flag_kept_bind; [apply (blind_goto_login _ Hemit)|]. intros _.
    apply flag_kept_bind; [apply (blind_delay _ Hemit); reflexivity|]. intros _.
    destruct (LoginWorld.already_in w).
    { apply flag_kept_quiet.
      apply never_throws_bind; [apply never_throws_modify | intros; apply never_throws_ret]. }
    destruct (LoginWorld.form_error w); [apply flag_kept_throw|].
    do 3 (apply flag_kept_bind; [apply (blind_delay _ Hemit); reflexivity|]; intros _).
    apply flag_kept_bind; [apply (blind_handleLoginChallenges _ Hemit flag_stdin)|]. intros _.
    apply flag_kept_bind; [apply (blind_page_action _ Hemit); reflexivity|]. intros _.
    apply flag_kept_bind; [apply (blind_delay _ Hemit); reflexivity|]. intros _.
    destruct (LoginWorld.verified w); [|apply flag_kept_throw].
    apply flag_kept_quiet.
    apply never_throws_bind; [apply never_throws_modify|]. intros _.
    apply never_throws_bind; [apply never_throws_modify | intros; apply never_throws_ret]. }
Qed.

Lemma logins_emit (e : Event) (s : Sys.t) : Sys.logins (Sys.emit e s) = Sys.logins s.
Proof. destruct s; reflexivity. Qed.

(** Every pass of the loop calls [login()] exactly once, and never
    rejects. *)
Lemma attempt_logins (env : Env.t) (site : Site.t) (rest : nat) (s : Sys.t) :
  Sys.logins (snd (LinkedInAuth.attempt env site rest s)) = S (Sys.logins s)
  /\ forall e, fst (LinkedInAuth.attempt env site rest s) <> Throw e.
Proof.
  unfold LinkedInAuth.attempt, bind, get_state, try_catch, BrowserManager.close,
    BrowserManager.humanLikeDelay, emit, modify, ret.
  pose proof (login_logins env (Site.login_world site (Sys.logins s)) s) as Hone.
  destruct (LinkedInAuth.login env (Site.login_world site (Sys.logins s)) s)
    as [[b|e|] s1]; cbn [fst snd] in *.
  - destruct (Sys.isLoggedIn s1); cbn; [split; [exact Hone | discriminate]|].
    destruct rest; cbn; rewrite ?logins_emit; (split; [exact Hone | discriminate]).
  - destruct rest; cbn; rewrite ?logins_emit; (split; [exact Hone | discriminate]).
  - split; [exact Hone | discriminate].
Qed.

Lemma login_attempts_bound (env : Env.t) (site : Site.t) (remaining : nat) :
  forall s,
    (Sys.logins (snd (LinkedInAuth.login_attempts env site remaining s))
     <= Sys.logins s + remaining)%nat
    /\ forall e, fst (LinkedInAuth.login_attempts env site remaining s) <> Throw e.
Proof.
  induction remaining as [|rest IH]; intros s.
  - cbn. split; [lia | discriminate].
  - cbn [LinkedInAuth.login_attempts]. unfold bind.
    destruct (attempt_logins env site rest s) as [Hone Hquiet].
    destruct (LinkedInAuth.attempt env site rest s) as [[[b|]|e|] s1];
      cbn [fst snd ret] in *.
    + split; [lia | discriminate].
    + destruct (IH s1) as [Hrest Hq]. split; [lia | exact Hq].
    + destruct (Hquiet e eq_refl).
    + split; [lia | discriminate].
Qed.

(** A pass whose login rejects: the wait that follows is the same
    whichever attempt it was, and there is none after the last. *)
Lemma attempt_rejected (env : Env.t) (site : Site.t) (rest : nat) (s : Sys.t) (e : string) :
  fst (LinkedInAuth.login env (Site.login_world site (Sys.logins s)) s) = Throw e ->
  exists s',
    LinkedInAuth.attempt env site rest s = (Ok None, s')
    /\ Sys.logins s' = S (Sys.logins s)
    /\ Sys.isLoggedIn s' = Sys.isLoggedIn s
    /\ retry_delays s'
       = retry_delays s
         ++ match rest with
            | O => []
            | S _ => [EvDelay "ensureLoggedIn" 10000 15000]
            end.
Proof.
  intros Hthrow.
  pose proof (login_logins env (Site.login_world site (Sys.logins s)) s) as Hone.
  pose proof (login_retry_delays env (Site.login_world site (Sys.logins s)) s) as Hdelays.
  pose proof (login_flag_kept env (Site.login_world site (Sys.logins s)) s e Hthrow) as Hflag.
  unfold LinkedInAuth.attempt, bind, get_state, try_catch, BrowserManager.close,
    BrowserManager.humanLikeDelay, emit, modify, ret.
  destruct (LinkedInAuth.login env (Site.login_world site (Sys.logins s)) s)
    as [[b|e'|] s1]; cbn [fst snd] in *; try discriminate.
  destruct rest; cbn.
  - eexists. split; [reflexivity|]. rewrite app_nil_r. auto.
  - eexists. split; [reflexivity|].
    rewrite !logins_emit. split; [exact Hone|]. split.
    + destruct s1; cbn in *. exact Hflag.
    + rewrite !retry_delays_emit. cbn. rewrite !app_nil_r, Hdelays. reflexivity.
Qed.

(** Every login rejects: the loop makes all its attempts, waits between
    them and gives up with [false]. *)
Lemma login_attempts_exhausted (env : Env.t) (site : Site.t) (remaining : nat) :
  (forall n s, exists e, fst (LinkedInAuth.login env (Site.login_world site n) s) = Throw e) ->
  forall s,
  exists s',
    LinkedInAuth.login_attempts env site remaining s = (Ok false, s')
    /\ Sys.logins s' = (Sys.logins s + remaining)%nat
    /\ Sys.isLoggedIn s' = Sys.isLoggedIn s
    /\ retry_delays s'
       = retry_delays s ++ repeat (EvDelay "ensureLoggedIn" 10000 15000) (remaining - 1).
Proof.
  intros Hfail. induction remaining as [|rest IH]; intros s.
  - exists s. cbn. rewrite app_nil_r. repeat split. lia.
  - destruct (Hfail (Sys.logins s) s) as [e He].
    destruct (attempt_rejected env site rest s e He) as [s1 [Hrun [Hlog [Hflag Hdel]]]].
    destruct (IH s1) as [s2 [Hrun2 [Hlog2 [Hflag2 Hdel2]]]].
    exists s2. cbn [LinkedInAuth.login_attempts]. unfold bind. rewrite Hrun.
    split; [exact Hrun2|]. split; [lia|]. split; [congruence|].
    rewrite Hdel2, Hdel, <- app_assoc. f_equal.
    destruct rest as [|r]; [reflexivity|].
    cbn. rewrite Nat.sub_0_r. reflexivity.
Qed.

Lemma ensureLoggedIn_exhausted (env : Env.t) (site : Site.t) (s : Sys.t) :
  (forall n s', exists e, fst (LinkedInAuth.login env (Site.login_world site n) s') = Throw e) ->
  Site.page_ready site = true ->
  Sys.isLoggedIn s && Site.session_alive site = false ->
  exists s',
    LinkedInAuth.ensureLoggedIn env site s = (Ok false, s')
    /\ Sys.logins s' = (Sys.logins s + 3)%nat
    /\ Sys.isLoggedIn s' = Sys.isLoggedIn s
    /\ Sys.store s' = Sys.store s
    /\ retry_delays s'
       = retry_delays s
         ++ [EvDelay "ensureLoggedIn" 10000 15000; EvDelay "ensureLoggedIn" 10000 15000].
Proof.
  intros Hfail Hready Hprobe.
  destruct (login_attempts_exhausted env site LinkedInAuth.maxAttempts Hfail s)
    as [s' [Hrun [Hlog [Hflag Hdel]]]].
  exists s'. unfold LinkedInAuth.ensureLoggedIn, try_catch, bind, get_state.
  rewrite Hready. cbn [negb]. rewrite Hprobe, Hrun.
  split; [reflexivity|]. split; [exact Hlog|]. split; [exact Hflag|]. split; [|exact Hdel].
  pose proof (login_attempts_store env site LinkedInAuth.maxAttempts s) as Hstore.
  rewrite Hrun in Hstore. exact Hstore.
Qed.

Lemma logScrapingSession_jobs (type status : string) (a b t0 : Z) (msg : option string) :
  preserves (fun s => Database.jobs (Sys.store s))
    (JobScraper.logScrapingSession type status a b t0 msg).
Proof.
  intros s. unfold JobScraper.logScrapingSession, try_catch, bind.
  rewrite now_run, database_run. unfold Database.insert_log, bind, Database.handle.
  destruct s as [d l n i tr]; cbn. destruct (Database.db d); reflexivity.
Qed.

(** After a failed [ensureLoggedIn] on a session that was never logged
    in, [scrapeJobs] stops at [navigateToJobs]. *)
Lemma scrapeJobs_not_logged_in (env : Env.t) (site : Site.t) (sf : SearchFilters.t)
    (cf : option SearchFilters.t) (s s1 : Sys.t) :
  LinkedInAuth.ensureLoggedIn env site s = (Ok false, s1) ->
  Sys.isLoggedIn s1 = false ->
  Sys.store s1 = Sys.store s ->
  fst (JobScraper.scrapeJobs env site sf cf s) = Throw "Not logged in to LinkedIn"
  /\ Database.jobs (Sys.store (snd (JobScraper.scrapeJobs env site sf cf s)))
     = Database.jobs (Sys.store s).
Proof.
  intros Hrun Hflag Hstore.
  assert (Heq : exists s2,
             JobScraper.scrapeJobs env site sf cf s = (Throw "Not logged in to LinkedIn", s2)
             /\ Database.jobs (Sys.store s2) = Database.jobs (Sys.store s)).
  { unfold JobScraper.scrapeJobs. rewrite bind_now.
    unfold try_catch at 1, bind at 1. rewrite Hrun.
    unfold bind at 1, LinkedInAuth.navigateToJobs, try_catch at 1, bind at 1, get_state.
    rewrite Hflag. cbn [negb throw].
    unfold bind.
    pose proof (logScrapingSession_jobs "job_scrape" "error" 0 0
                  (Database.clock (Sys.store s)) (Some "Not logged in to LinkedIn") s1) as Hjobs.
    destruct (JobScraper.logScrapingSession "job_scrape" "error" 0 0
                (Database.clock (Sys.store s)) (Some "Not logged in to LinkedIn") s1)
      as [[[]|e|] s2] eqn:E; cbn [fst snd throw] in *.
    - exists s2. split; [reflexivity|]. rewrite Hjobs, Hstore. reflexivity.
    - exfalso.
      assert (Hq : never_throws (JobScraper.logScrapingSession "job_scrape" "error" 0 0
                                   (Database.clock (Sys.store s))
                                   (Some "Not logged in to LinkedIn"))).
      { unfold JobScraper.logScrapingSession. apply never_throws_try_catch.
        intros _. apply never_throws_ret. }
      apply (Hq s1 e). rewrite E. reflexivity.
    - exfalso.
      assert (Hs : settles (JobScraper.logScrapingSession "job_scrape" "error" 0 0
                              (Database.clock (Sys.store s))
                              (Some "Not logged in to LinkedIn"))).
      { unfold JobScraper.logScrapingSession. settle. }
      apply (Hs s1). rewrite E. reflexivity. }
  destruct Heq as [s2 [Heq Hjobs]]. rewrite Heq. split; [reflexivity | exact Hjobs].
Qed.

(** C6, counterexample: the browser is headless and the site answers
    every login with a verification-code page.  [login()] rejects with the
    challenge error 'Email verification required', and [ensureLoggedIn]
    tries again all the same: three calls of [login()], the two waits
    between them drawn from the same range, then [false]. *)
Lemma C6_challenge_is_retried :
  let run := LinkedInAuth.ensureLoggedIn env_on challenging_site (fresh empty_store) in
  fst (LinkedInAuth.login env_on challenged_login (fresh empty_store))
  = Throw "Email verification required"
  /\ fst run = Ok false
  /\ Sys.logins (snd run) = 3%nat
  /\ retry_delays (snd run)
     = [EvDelay "ensureLoggedIn" 10000 15000; EvDelay "ensureLoggedIn" 10000 15000].
Proof. vm_compute. repeat split; reflexivity. Qed.

(** C6, as amended: a call of [ensureLoggedIn] calls [login()] at most 3
    times and never rejects.  When every login rejects, for whatever
    reason (a challenge in headless mode included), and no live session is
    found, it makes exactly 3 attempts, waits between them for a random
    time from the fixed range 10 to 15 seconds (the same after the first
    and after the second failure), and reports failure by returning
    [false]; [scrapeJobs], called on a session that was not logged in,
    then rejects with 'Not logged in to LinkedIn' before any scraping and
    leaves the jobs table as it was. *)
Theorem C6_login_retry_cap :
  forall (env : Env.t) (site : Site.t) (s : Sys.t),
    let run := LinkedInAuth.ensureLoggedIn env site s in
    (Sys.logins (snd run) <= Sys.logins s + 3)%nat
    /\ (forall e, fst run <> Throw e)
    /\ ((forall n s', exists e,
           fst (LinkedInAuth.login env (Site.login_world site n) s') = Throw e) ->
        Site.page_ready site = true ->
        Sys.isLoggedIn s && Site.session_alive site = false ->
        fst run = Ok false
        /\ Sys.logins (snd run) = (Sys.logins s + 3)%nat
        /\ retry_delays (snd run)
           = retry_delays s
             ++ [EvDelay "ensureLoggedIn" 10000 15000; EvDelay "ensureLoggedIn" 10000 15000]
        /\ (Sys.isLoggedIn s = false ->
            forall (searchFilters : SearchFilters.t) (customFilters : option SearchFilters.t),
              fst (JobScraper.scrapeJobs env site searchFilters customFilters s)
              = Throw "Not logged in to LinkedIn"
              /\ Database.jobs
                   (Sys.store (snd (JobScraper.scrapeJobs env site searchFilters customFilters s)))
                 = Database.jobs (Sys.store s))).
Proof.
  intros env site s run. split; [|split].
  - unfold run, LinkedInAuth.ensureLoggedIn, try_catch, bind, get_state.
    destruct (negb (Site.page_ready site)); [cbn; lia|].
    destruct (Sys.isLoggedIn s && Site.session_alive site); [cbn; lia|].
    destruct (login_attempts_bound env site LinkedInAuth.maxAttempts s) as [Hbound _].
    unfold LinkedInAuth.maxAttempts in *.
    destruct (LinkedInAuth.login_attempts env site 3 s) as [[b|e|] s1]; cbn in *; lia.
  - intros e. unfold run, LinkedInAuth.ensureLoggedIn.
    apply never_throws_try_catch. intros _. apply never_throws_ret.
  - intros Hfail Hready Hprobe.
    destruct (ensureLoggedIn_exhausted env site s Hfail Hready Hprobe)
      as [s1 [Hrun [Hlog [Hflag [Hstore Hdel]]]]].
    unfold run. rewrite Hrun. cbn [fst snd].
    split; [reflexivity|]. split; [exact Hlog|]. split; [exact Hdel|].
    intros Hout sf cf.
    apply (scrapeJobs_not_logged_in env site sf cf s s1 Hrun); [congruence | exact Hstore].
Qed.

(** C6, witness: the headless run against the site that always presents
    a verification-code page. *)
Lemma C6_login_retry_cap_witness :
  fst (LinkedInAuth.ensureLoggedIn env_on challenging_site (fresh empty_store)) = Ok false
  /\ Sys.logins (snd (LinkedInAuth.ensureLoggedIn env_on challenging_site (fresh empty_store)))
     = 3%nat
  /\ fst (JobScraper.scrapeJobs env_on challenging_site (SearchFilters.mk [] [] [] (Some 50))
            None (fresh empty_store))
     = Throw "Not logged in to LinkedIn".
Proof.
  destruct (C6_login_retry_cap env_on challenging_site (fresh empty_store))
    as [_ [_ Hexhausted]].
  destruct Hexhausted as [Hfalse [Hthree [_ Hscrape]]].
  - intros n s'. exists "Email verification required". reflexivity.
  - reflexivity.
  - reflexivity.
  - split; [exact Hfalse|]. split; [exact Hthree|].
    exact (proj1 (Hscrape eq_refl (SearchFilters.mk [] [] [] (Some 50)) None)).
Defined.

(** [trackApplications] has no such guard: after the same failed
    [ensureLoggedIn] it goes on to the applications page and checks the
    stored application. *)
Example tracking_goes_on_after_failed_login :
  let run := ApplicationTracker.trackApplications env_on challenging_site
               (fresh store_with_application) in
  fst run = Ok (ApplicationTracker.mkCounts 1 0 0)
  /\ Sys.isLoggedIn (snd run) = false
  /\ In (EvGoto "https://www.linkedin.com/my-items/saved-jobs/") (Sys.trace (snd run)).
Proof. vm_compute. repeat split; try reflexivity. tauto. Qed.

(** ** The listing loop *)

Lemma visit_appends (card : Card.t) (jobs : list JobData.t) (seen : gset string)
    (new : list JobData.t) :
  exists added,
    fst (fst (JobScraper.visit card (jobs, seen, new))) = jobs ++ added
    /\ snd (JobScraper.visit card (jobs, seen, new)) = new ++ added
    /\ (length added <= 1)%nat.
Proof.
  unfold JobScraper.visit. destruct card as [|jobId details].
  - exists []. cbn. rewrite !app_nil_r. auto.
  - destruct (bool_decide (jobId ∈ seen)).
    + exists []. cbn. rewrite !app_nil_r. auto.
    + destruct details as [jobData|].
      * destruct (JobScraper.valid (Some jobData)).
        -- exists [jobData]. cbn. auto.
        -- exists []. cbn. rewrite !app_nil_r. auto.
      * exists []. cbn. rewrite !app_nil_r. auto.
Qed.

Lemma scan_cards_appends (maxJobs : Z) (rest : list Card.t) :
  forall (i : Z) (jobs : list JobData.t) (seen : gset string) (new : list JobData.t),
    0 <= i ->
    Z.of_nat (length jobs) <= Z.max 0 maxJobs ->
    exists added,
      fst (fst (JobScraper.scan_cards maxJobs i rest (jobs, seen, new))) = jobs ++ added
      /\ snd (JobScraper.scan_cards maxJobs i rest (jobs, seen, new)) = new ++ added
      /\ Z.of_nat (length (jobs ++ added)) <= Z.max 0 maxJobs.
Proof.
  induction rest as [|card rest IH]; intros i jobs seen new Hi Hbound.
  - exists []. cbn. rewrite !app_nil_r. auto.
  - cbn [JobScraper.scan_cards fst].
    destruct (i <? maxJobs - Z.of_nat (length jobs)) eqn:Hgo.
    + apply Z.ltb_lt in Hgo.
      destruct (visit_appends card jobs seen new) as [added [Hjobs [Hnew Hone]]].
      destruct (JobScraper.visit card (jobs, seen, new)) as [[jobs1 seen1] new1].
      cbn [fst snd] in Hjobs, Hnew. subst jobs1 new1.
      destruct (IH (i + 1) (jobs ++ added) seen1 (new ++ added)) as [more [Hj [Hn Hb]]].
      * lia.
      * rewrite length_app. lia.
      * exists (added ++ more). rewrite Hj, Hn, <- !app_assoc.
        repeat split. rewrite <- app_assoc in Hb. exact Hb.
    + exists []. cbn. rewrite !app_nil_r. auto.
Qed.

(** The loop ends within the passes counted by [passes_left]. *)
Lemma listing_loop_terminates (views : nat -> BatchView.t) (maxJobs : Z) (fuel : nat) :
  forall st,
    (passes_left maxJobs st < fuel)%nat ->
    exists r, JobScraper.listing_loop fuel views maxJobs st = Some r.
Proof.
  induction fuel as [|fuel IH]; intros st Hfuel; [lia|].
  cbn [JobScraper.listing_loop].
  destruct (Z.of_nat (length (JobScraper.jobs st)) <? maxJobs) eqn:Hroom; cbn [andb];
    [|eauto].
  destruct (JobScraper.consecutiveNoNewJobs st <? JobScraper.maxConsecutiveNoNewJobs)%nat
    eqn:Hidle; [|eauto].
  apply Z.ltb_lt in Hroom. apply Nat.ltb_lt in Hidle.
  unfold JobScraper.maxConsecutiveNoNewJobs in *.
  unfold passes_left, found in Hfuel.
  destruct (BatchView.cards (views (JobScraper.batches st))) as [|card cards] eqn:Hcards.
  - destruct (BatchView.page_error (views (JobScraper.batches st))); [eauto|].
    apply IH. unfold passes_left, found. cbn. lia.
  - destruct (scan_cards_appends maxJobs (card :: cards) 0 (JobScraper.jobs st)
                (JobScraper.processedJobIds st) []) as [added [Hjobs [Hnew _]]];
      [lia | lia |].
    destruct (JobScraper.scan_cards maxJobs 0 (card :: cards)
                (JobScraper.jobs st, JobScraper.processedJobIds st, []))
      as [[jobs1 seen1] new1].
    cbn [fst snd] in Hjobs, Hnew. cbn [app] in Hnew. subst jobs1 new1.
    assert (Hnext : forall st1,
              st1 = JobScraper.mkListing (JobScraper.jobs st ++ added) seen1
                      match added with
                      | [] => S (JobScraper.consecutiveNoNewJobs st)
                      | _ :: _ => 0%nat
                      end (S (JobScraper.batches st)) ->
              exists r,
                (if (3 <=? JobScraper.consecutiveNoNewJobs st1)%nat
                 then Some (Ok st1)
                 else JobScraper.listing_loop fuel views maxJobs st1) = Some r).
    { intros st1 ->. cbn [JobScraper.consecutiveNoNewJobs].
      destruct (3 <=? _)%nat eqn:Hstop; [eauto|].
      apply IH. unfold passes_left, found. cbn [JobScraper.jobs JobScraper.consecutiveNoNewJobs].
      rewrite length_app. destruct added as [|a added]; cbn [length]; lia. }
    specialize (Hnext _ eq_refl). cbn [JobScraper.consecutiveNoNewJobs] in Hnext.
    destruct (Z.of_nat (length (JobScraper.jobs st ++ added)) <? maxJobs); [|exact Hnext].
    destruct (BatchView.page_error (views (JobScraper.batches st))); [eauto|].
    destruct (BatchView.next_button (views (JobScraper.batches st))); eauto.
Qed.

(** What holds of the loop variables at the top of every pass. *)
Definition loop_invariant (maxJobs : Z) (st : JobScraper.Listing) : Prop :=
  found st <= Z.max 0 maxJobs
  /\ (JobScraper.consecutiveNoNewJobs st <= 3)%nat
  /\ (JobScraper.consecutiveNoNewJobs st = 3%nat -> found st < maxJobs).

(** A normal end of the loop is one of the three stops, with at most
    [maxJobs] jobs. *)
Lemma listing_loop_stops (views : nat -> BatchView.t) (maxJobs : Z) (fuel : nat) :
  forall st st',
    loop_invariant maxJobs st ->
    JobScraper.listing_loop fuel views maxJobs st = Some (Ok st') ->
    stopped_because views maxJobs st' /\ found st' <= Z.max 0 maxJobs.
Proof.
  induction fuel as [|fuel IH]; intros st st' [Hbound [Hle Hidle3]] Hrun; [discriminate|].
  cbn [JobScraper.listing_loop] in Hrun.
  destruct (Z.of_nat (length (JobScraper.jobs st)) <? maxJobs) eqn:Hroom; cbn [andb] in Hrun.
  2:{ injection Hrun as <-. apply Z.ltb_ge in Hroom. split; [|exact Hbound].
      left. exact Hroom. }
  apply Z.ltb_lt in Hroom.
  destruct (JobScraper.consecutiveNoNewJobs st <? JobScraper.maxConsecutiveNoNewJobs)%nat
    eqn:Hidle.
  2:{ injection Hrun as <-. apply Nat.ltb_ge in Hidle.
      unfold JobScraper.maxConsecutiveNoNewJobs in Hidle. split; [|exact Hbound].
      right; left. split; [lia | exact Hroom]. }
  apply Nat.ltb_lt in Hidle. unfold JobScraper.maxConsecutiveNoNewJobs in *.
  destruct (BatchView.cards (views (JobScraper.batches st))) as [|card cards] eqn:Hcards.
  - destruct (BatchView.page_error (views (JobScraper.batches st))); [discriminate|].
    apply (IH _ _) in Hrun; [exact Hrun|].
    unfold loop_invariant, found. cbn. unfold found in *. repeat split; try lia.
  - destruct (scan_cards_appends maxJobs (card :: cards) 0 (JobScraper.jobs st)
                (JobScraper.processedJobIds st) []) as [added [Hjobs [Hnew Hcap]]];
      [lia | exact Hbound |].
    destruct (JobScraper.scan_cards maxJobs 0 (card :: cards)
                (JobScraper.jobs st, JobScraper.processedJobIds st, []))
      as [[jobs1 seen1] new1].
    cbn [fst snd] in Hjobs, Hnew. cbn [app] in Hnew. subst jobs1 new1.
    set (idle := match added with
                 | [] => S (JobScraper.consecutiveNoNewJobs st)
                 | _ :: _ => 0%nat
                 end) in *.
    set (st1 := JobScraper.mkListing (JobScraper.jobs st ++ added) seen1 idle
                  (S (JobScraper.batches st))) in *.
    assert (Hidle1 : (idle <= 3)%nat) by (unfold idle; destruct added; lia).
    assert (Hidle3' : idle = 3%nat -> found st1 < maxJobs).
    { unfold idle, st1, found. cbn. destruct added; [|discriminate].
      rewrite app_nil_r. intros _. exact Hroom. }
    assert (Hinv1 : loop_invariant maxJobs st1).
    { unfold loop_invariant. split; [exact Hcap|]. split; assumption. }
    assert (Hsafety : forall r,
              (if (3 <=? idle)%nat then Some (Ok st1)
               else JobScraper.listing_loop fuel views maxJobs st1) = Some (Ok r) ->
              stopped_because views maxJobs r /\ found r <= Z.max 0 maxJobs).
    { intros r Hr. destruct (3 <=? idle)%nat eqn:Hstop.
      - injection Hr as <-. apply Nat.leb_le in Hstop. split; [|exact Hcap].
        right; left. split; [cbn; lia | apply Hidle3'; lia].
      - apply (IH st1 r Hinv1 Hr). }
    destruct (Z.of_nat (length (JobScraper.jobs st ++ added)) <? maxJobs) eqn:Hroom1;
      [|apply Hsafety; exact Hrun].
    destruct (BatchView.page_error (views (JobScraper.batches st))); [discriminate|].
    destruct (BatchView.next_button (views (JobScraper.batches st))) eqn:Hbutton;
      try (apply Hsafety; exact Hrun).
    injection Hrun as <-. apply Z.ltb_lt in Hroom1. split; [|exact Hcap].
    destruct (Nat.eq_dec idle 3%nat) as [H3|H3].
    + right; left. split; [exact H3 | exact Hroom1].
    + right; right. split; [exact Hroom1|]. split; [cbn; lia|].
      exists (JobScraper.batches st). split; [reflexivity | exact Hbutton].
Qed.

(** C7, counterexample: the target is 50, the first result page shows one
    new job and a disabled Next button.  The loop ends after that single
    pass with 1 job: the target is not reached, no pass was without a new
    job, and no ceiling on passes is involved. *)
Lemma C7_stops_on_disabled_next_button :
  match JobScraper.listing_loop (JobScraper.enough_fuel 50) last_page 50 JobScraper.start with
  | Some (Ok st) =>
      length (JobScraper.jobs st) = 1%nat
      /\ JobScraper.consecutiveNoNewJobs st = 0%nat
      /\ JobScraper.batches st = 1%nat
  | _ => False
  end.
Proof. vm_compute. repeat split; reflexivity. Qed.

(** C7, as amended: for every target [maxJobs] and every page, the loop
    of [scrapeJobListings] ends within [3 * maxJobs + 4] passes (it
    resolves or rejects; it does not go on for ever).  When it resolves it
    returns at most [maxJobs] jobs and has stopped for one of three
    reasons: the number of jobs collected reached [maxJobs]; or 3 passes in
    a row added no new job (cards whose id was already seen are skipped),
    and then fewer than [maxJobs] jobs are returned; or the Next button was
    found disabled while fewer than [maxJobs] jobs were collected.  The
    loop has no ceiling on pages or scroll attempts of its own. *)
Theorem C7_listing_loop_terminates_and_stops :
  forall (views : nat -> BatchView.t) (maxJobs : Z),
    (exists r,
       JobScraper.listing_loop (JobScraper.enough_fuel maxJobs) views maxJobs JobScraper.start
       = Some r)
    /\ JobScraper.scrapeJobListings (PageObject views) maxJobs <> Hang
    /\ (forall st,
          JobScraper.listing_loop (JobScraper.enough_fuel maxJobs) views maxJobs JobScraper.start
          = Some (Ok st) ->
          JobScraper.scrapeJobListings (PageObject views) maxJobs = Ok (JobScraper.jobs st)
          /\ found st <= Z.max 0 maxJobs
          /\ stopped_because views maxJobs st).
Proof.
  intros views maxJobs.
  assert (Hterm : exists r,
            JobScraper.listing_loop (JobScraper.enough_fuel maxJobs) views maxJobs
              JobScraper.start = Some r).
  { apply listing_loop_terminates.
    unfold passes_left, found, JobScraper.enough_fuel, JobScraper.start. cbn.
    rewrite Z.sub_0_r. lia. }
  split; [exact Hterm|]. split.
  - unfold JobScraper.scrapeJobListings. destruct Hterm as [r Hr]. rewrite Hr.
    destruct r as [st|msg|]; try discriminate.
    exfalso. revert Hr. generalize (JobScraper.enough_fuel maxJobs), JobScraper.start.
    intros fuel. induction fuel as [|fuel IH]; intros st Hr; [discriminate|].
    cbn [JobScraper.listing_loop] in Hr.
    destruct (_ && _); [|discriminate].
    destruct (BatchView.cards _).
    + destruct (BatchView.page_error _); [discriminate | exact (IH _ Hr)].
    + destruct (JobScraper.scan_cards _ _ _ _) as [[jobs1 seen1] new1].
      destruct (_ <? maxJobs).
      * destruct (BatchView.page_error _); [discriminate|].
        destruct (BatchView.next_button _); try discriminate;
          (destruct (_ <=? _)%nat; [discriminate | exact (IH _ Hr)]).
      * destruct (_ <=? _)%nat; [discriminate | exact (IH _ Hr)].
  - intros st Hrun. split.
    + unfold JobScraper.scrapeJobListings. rewrite Hrun. reflexivity.
    + destruct (listing_loop_stops views maxJobs (JobScraper.enough_fuel maxJobs)
                  JobScraper.start st) as [Hwhy Hcap].
      * unfold loop_invariant, found, JobScraper.start. cbn. repeat split; lia.
      * exact Hrun.
      * split; assumption.
Qed.

(** C7, witness: the target is 50 and the result list keeps showing the
    same two cards. *)
Lemma C7_listing_loop_terminates_and_stops_witness :
  JobScraper.scrapeJobListings (PageObject stale_page) 50 = Ok (JobScraper.jobs stale_result)
  /\ found stale_result <= Z.max 0 50
  /\ stopped_because stale_page 50 stale_result.
Proof.
  apply (proj2 (proj2 (C7_listing_loop_terminates_and_stops stale_page 50))).
  vm_compute. reflexivity.
Defined.

(** On that list the loop collects the two jobs in its first pass, finds
    nothing new in the next three and stops with 2 of the 50 jobs. *)
Example three_idle_passes_stop_the_loop :
  length (JobScraper.jobs stale_result) = 2%nat
  /\ JobScraper.consecutiveNoNewJobs stale_result = 3%nat
  /\ JobScraper.batches stale_result = 4%nat.
Proof. vm_compute. repeat split; reflexivity. Qed.

(** [scrapeJobs] calls [scrapeJobListings(filters.maxJobs)]: the number
    lands in [page], the loop's first statement is a TypeError, and the run
    is logged with status 'error' whatever the site shows. *)
Example scrapeJobs_passes_the_target_as_page :
  let run := JobScraper.scrapeJobs env_on friendly_site (SearchFilters.mk [] [] [] (Some 50))
               None (fresh empty_store) in
  fst run = Throw "page.waitForSelector is not a function"
  /\ map LogRow.status (Database.scraping_logs (Sys.store (snd run))) = ["error"]
  /\ Sys.isLoggedIn (snd run) = true.
Proof. vm_compute. repeat split; reflexivity. Qed.

(** ** The scheduler *)

Lemma Task_eqb_refl (task : Task) : Task_eqb task task = true.
Proof. destruct task; reflexivity. Qed.

Lemma executing_launch (task other : Task) (s : Scheduler.t) :
  Scheduler.executing other (Scheduler.launch task s)
  = (Scheduler.executing other s + if Task_eqb other task then 1 else 0)%nat.
Proof.
  unfold Scheduler.executing, Scheduler.launch. cbn.
  rewrite List.filter_app, length_app. cbn.
  destruct (Task_eqb other task); reflexivity.
Qed.

(** C2, counterexample: the scheduler is started; the job-scraping timer
    fires, and fires again ten minutes later while the first run has not
    settled; likewise two manual triggers in a row.  Either way two
    executions of job scraping are in flight. *)
Lemma C2_second_firing_runs_alongside :
  Scheduler.executing JobScraping
    (Scheduler.run Scheduler.initial
       [Scheduler.Start 10 env_on; Scheduler.Fire "jobScraping" 10;
        Scheduler.Fire "jobScraping" 10]) = 2%nat
  /\ Scheduler.executing JobScraping
       (Scheduler.run Scheduler.initial
          [Scheduler.Trigger JobScraping; Scheduler.Trigger JobScraping]) = 2%nat.
Proof. split; vm_compute; reflexivity. Qed.

(** C2, as amended: the scheduler keeps no record of running executions
    and skips nothing on their account.  A manual trigger always starts a
    new execution of its task; so does the firing of a registered, started
    timer (for auto-apply only from 9 to 17 h); and [n] manual triggers of
    one task with no completion in between leave [n] more executions of
    that task in flight.  A firing starts nothing only when the timer is
    not registered or is paused, or, for auto-apply, outside those hours. *)
Theorem C2_no_single_flight_guard :
  forall (s : Scheduler.t) (task : Task),
    Scheduler.executing task (Scheduler.step s (Scheduler.Trigger task))
    = S (Scheduler.executing task s)
    /\ (forall n : nat,
          Scheduler.executing task (Scheduler.run s (repeat (Scheduler.Trigger task) n))
          = (Scheduler.executing task s + n)%nat)
    /\ (forall (name : string) (timer : Timer.t) (hour : Z),
          Scheduler.jobs s !! name = Some timer ->
          Timer.task timer = task ->
          Timer.started timer = true ->
          (task = AutoApplication -> 9 <= hour <= 17) ->
          Scheduler.executing task (Scheduler.step s (Scheduler.Fire name hour))
          = S (Scheduler.executing task s))
    /\ (forall (name : string) (hour : Z),
          Scheduler.jobs s !! name = None ->
          Scheduler.step s (Scheduler.Fire name hour) = s).
Proof.
  intros s task. split; [|split; [|split]].
  - cbn [Scheduler.step]. rewrite executing_launch, Task_eqb_refl. lia.
  - intros n. revert s. induction n as [|n IH]; intros s.
    + cbn [repeat Scheduler.run fold_left]. lia.
    + cbn [repeat]. unfold Scheduler.run in *. cbn [fold_left Scheduler.step].
      rewrite IH, executing_launch, Task_eqb_refl. lia.
  - intros name timer hour Hjob Htask Hstarted Hhours.
    cbn [Scheduler.step]. rewrite Hjob, Hstarted.
    unfold Scheduler.callback. rewrite Htask.
    destruct task; cbv beta iota; try (rewrite executing_launch; cbn; lia).
    specialize (Hhours eq_refl).
    replace ((9 <=? hour) && (hour <=? 17)) with true
      by (symmetry; apply andb_true_iff; split; apply Z.leb_le; lia).
    rewrite executing_launch. cbn. lia.
  - intros name hour Hnone. cbn [Scheduler.step]. rewrite Hnone. reflexivity.
Qed.

(** C2, witness: after [start()], the job-scraping timer fires while one
    job-scraping run is already in flight. *)
Lemma C2_no_single_flight_guard_witness :
  let s := Scheduler.run Scheduler.initial
             [Scheduler.Start 10 env_on; Scheduler.Trigger JobScraping] in
  Scheduler.executing JobScraping (Scheduler.step s (Scheduler.Fire "jobScraping" 10))
  = S (Scheduler.executing JobScraping s).
Proof.
  cbv zeta.
  apply (proj1 (proj2 (proj2 (C2_no_single_flight_guard
            (Scheduler.run Scheduler.initial
               [Scheduler.Start 10 env_on; Scheduler.Trigger JobScraping]) JobScraping)))
           "jobScraping" (Timer.mk (Scheduler.every 10) JobScraping true) 10).
  - vm_compute. reflexivity.
  - reflexivity.
  - reflexivity.
  - discriminate.
Defined.

(* ===================================================================== *)
(** * Further properties: selection, statistics, routes and housekeeping *)
(* ===================================================================== *)

(** ** Which jobs auto-apply picks *)





(** What [getJobsToApply] resolves with on a store it can read. *)
Lemma getJobsToApply_open (filters : option ApplyFilters.t) (n : Z) (s : Sys.t) :
  Database.db (Sys.store s) = true ->
  AutoApplicant.getJobsToApply filters n s =
    (Ok match AutoApplicant.where_clause filters (Database.clock (Sys.store s)) with
        | Some keep =>
            limit n (order_by AutoApplicant.best_first
                       (List.filter keep (Database.jobs (Sys.store s))))
        | None => []
        end, s).
Proof.
  intros Hdb. unfold AutoApplicant.getJobsToApply, try_catch, bind.
  rewrite database_run. unfold Database.handle. rewrite Hdb. cbn.
  rewrite set_store_same.
  destruct (AutoApplicant.where_clause filters (Database.clock (Sys.store s))); reflexivity.
Qed.

Lemma getJobsToApply_closed (filters : option ApplyFilters.t) (n : Z) (s : Sys.t) :
  Database.db (Sys.store s) = false ->
  AutoApplicant.getJobsToApply filters n s = (Ok [], s).
Proof.
  intros Hdb. unfold AutoApplicant.getJobsToApply, try_catch, bind.
  rewrite database_run. unfold Database.handle. rewrite Hdb. cbn.
  rewrite set_store_same. reflexivity.
Qed.





(** *** The order of the candidates *)







(** *** Filters with an empty list *)

Lemma where_clause_empty_list (f : ApplyFilters.t) (now : Z) :
  ApplyFilters.keywords f = Some [] \/ ApplyFilters.excludeCompanies f = Some [] ->
  AutoApplicant.where_clause (Some f) now = None.
Proof.
  unfold AutoApplicant.where_clause. intros [H|H]; rewrite H.
  - reflexivity.
  - destruct (ApplyFilters.keywords f) as [[|k ks]|]; reflexivity.
Qed.

Lemma getJobsToApply_empty_list (f : ApplyFilters.t) (n : Z) (s : Sys.t) :
  ApplyFilters.keywords f = Some [] \/ ApplyFilters.excludeCompanies f = Some [] ->
  AutoApplicant.getJobsToApply (Some f) n s = (Ok [], s).
Proof.
  intros Hf. destruct (Database.db (Sys.store s)) eqn:Hdb.
  - rewrite (getJobsToApply_open _ _ _ Hdb), (where_clause_empty_list f _ Hf). reflexivity.
  - apply getJobsToApply_closed, Hdb.
Qed.

Lemma insert_log_tables (type status : string) (a b c : Z) (msg : option string) :
  preserves (fun d => (Database.jobs d, Database.applications d))
    (Database.insert_log type status a b c msg).
Proof.
  intros d. unfold Database.insert_log, bind, Database.handle.
  destruct (Database.db d); reflexivity.
Qed.

Lemma logApplicationSession_tables (type status : string) (a b t0 : Z) (msg : option string)
    (s : Sys.t) :
  exists s',
    AutoApplicant.logApplicationSession type status a b t0 msg s = (Ok tt, s')
    /\ Database.jobs (Sys.store s') = Database.jobs (Sys.store s)
    /\ Database.applications (Sys.store s') = Database.applications (Sys.store s)
    /\ Sys.trace s' = Sys.trace s.
Proof.
  unfold AutoApplicant.logApplicationSession, try_catch, bind.
  rewrite now_run, database_run.
  pose proof (insert_log_tables type status a b
                (Database.clock (Sys.store s) - t0) msg (Sys.store s)) as Hsame.
  cbv beta in Hsame. injection Hsame as Hj Ha.
  destruct (Database.insert_log _ _ _ _ _ _ (Sys.store s)) as [[[]|e|] d1] eqn:E; cbn in *.
  - eexists. split; [reflexivity|]. destruct s; cbn in *. auto.
  - eexists. split; [reflexivity|]. destruct s; cbn in *. auto.
  - exfalso. apply (insert_log_settles type status a b
                      (Database.clock (Sys.store s) - t0) msg (Sys.store s)).
    rewrite E. reflexivity.
Qed.

Lemma ensureLoggedIn_never_throws (env : Env.t) (site : Site.t) :
  never_throws (LinkedInAuth.ensureLoggedIn env site).
Proof. apply never_throws_try_catch. intros e. apply never_throws_ret. Qed.

(** With [keywords: []] or [excludeCompanies: []] in the filters, the
    query text is not SQL, [getJobsToApply] swallows the error, and the run
    applies to nothing, whatever the store holds. *)
Theorem autoApplyToJobs_empty_filter_list :
  forall (this : AutoApplicant.t) (env : Env.t) (site : Site.t) (f : ApplyFilters.t)
         (s : Sys.t),
    ApplyFilters.keywords f = Some [] \/ ApplyFilters.excludeCompanies f = Some [] ->
    let run := AutoApplicant.autoApplyToJobs this env site (Some f) s in
    (forall c, fst run = Ok c -> c = AutoApplicant.mkResult 0 0 0)
    /\ Database.jobs (Sys.store (snd run)) = Database.jobs (Sys.store s)
    /\ Database.applications (Sys.store (snd run)) = Database.applications (Sys.store s).
Proof.
  intros this env site f s Hf run.
  assert (Hrun : run = AutoApplicant.autoApplyToJobs this env site (Some f) s) by reflexivity.
  clearbody run. unfold AutoApplicant.autoApplyToJobs in Hrun.
  destruct (AutoApplicant.autoApplyEnabled this); cbn [negb] in Hrun.
  2:{ rewrite Hrun. cbn. split; [|split]; try reflexivity. intros c Hc. congruence. }
  unfold bind at 1 in Hrun. rewrite now_run in Hrun.
  unfold try_catch, bind at 1 in Hrun. rewrite getTodayApplicationsCount_run in Hrun.
  destruct (AutoApplicant.maxApplicationsPerDay this <=? _).
  { rewrite Hrun. cbn. split; [|split]; try reflexivity. intros c Hc. congruence. }
  unfold bind at 1 in Hrun.
  pose proof (ensureLoggedIn_store env site s) as Hstore.
  pose proof (ensureLoggedIn_never_throws env site s) as Hnt.
  destruct (LinkedInAuth.ensureLoggedIn env site s) as [[b|e|] s1]; cbn [fst snd] in *.
  - unfold bind at 1 in Hrun. rewrite (getJobsToApply_empty_list f _ s1 Hf) in Hrun.
    cbn [AutoApplicant.apply_loop] in Hrun. unfold bind at 1, ret at 1 in Hrun.
    unfold bind in Hrun.
    destruct (logApplicationSession_tables "auto_apply" "success" 0 0
                (Database.clock (Sys.store s)) None s1) as [s2 [Hlog [Hj [Ha _]]]].
    cbn [AutoApplicant.appliedCount AutoApplicant.errorsCount] in Hrun.
    rewrite Hlog in Hrun. rewrite Hrun. cbn [fst snd ret].
    rewrite Hj, Ha, Hstore. split; [|split]; try reflexivity. intros c Hc. congruence.
  - destruct (Hnt e eq_refl).
  - rewrite Hrun. cbn [fst snd]. rewrite Hstore.
    split; [|split]; try reflexivity. intros c Hc. discriminate.
Qed.

Lemma autoApplyToJobs_empty_filter_list_witness :
  let run := AutoApplicant.autoApplyToJobs (AutoApplicant.constructor env_on) env_on
               friendly_site (Some (ApplyFilters.mk None (Some []) None)) (fresh five_jobs) in
  (forall c, fst run = Ok c -> c = AutoApplicant.mkResult 0 0 0)
  /\ Database.jobs (Sys.store (snd run)) = Database.jobs (Sys.store (fresh five_jobs))
  /\ Database.applications (Sys.store (snd run))
     = Database.applications (Sys.store (fresh five_jobs)).
Proof.
  apply (autoApplyToJobs_empty_filter_list (AutoApplicant.constructor env_on) env_on
           friendly_site (ApplyFilters.mk None (Some []) None) (fresh five_jobs)).
  left. reflexivity.
Defined.

(** *** A recorded application takes the job out of the candidates *)







(** ** Reading a resolved run backwards *)

Lemma bind_ok {S A B} (m : M S A) (k : A -> M S B) (s s' : S) (b : B) :
  bind m k s = (Ok b, s') -> exists a s1, m s = (Ok a, s1) /\ k a s1 = (Ok b, s').
Proof.
  unfold bind. destruct (m s) as [[a|e|] s1]; try discriminate. eauto.
Qed.

Lemma try_catch_ok {S A} (m : M S A) (h : string -> M S A) (s s' : S) (a : A) :
  (forall e s1 s2 a', h e s1 <> (Ok a', s2)) ->
  try_catch m h s = (Ok a, s') -> m s = (Ok a, s').
Proof.
  intros Hh. unfold try_catch. destruct (m s) as [[a0|e|] s1]; try discriminate.
  - trivial.
  - intros H. destruct (Hh _ _ _ _ H).
Qed.

Lemma then_throw_not_ok {S A} (m : M S unit) (e : string) (s s' : S) (a : A) :
  (m >> throw e) s <> (Ok a, s').
Proof. unfold bind, throw. destruct (m s) as [[[]|?|] ?]; discriminate. Qed.

Lemma for_of_invariant {S A B} (body : A -> B -> M S B) (I : nat -> B -> Prop)
    (xs : list A) :
  (forall x acc s acc' s' n, I n acc -> body x acc s = (Ok acc', s') -> I (Datatypes.S n) acc') ->
  forall n acc s acc' s',
    I n acc -> for_of xs acc body s = (Ok acc', s') -> I (n + length xs)%nat acc'.
Proof.
  intros Hbody. induction xs as [|x xs IH]; intros n acc s acc' s' Hi Hrun; simpl in *.
  - injection Hrun as <- _. rewrite Nat.add_0_r. exact Hi.
  - apply bind_ok in Hrun. destruct Hrun as [acc1 [s1 [H1 H2]]].
    replace (n + Datatypes.S (length xs))%nat with (Datatypes.S n + length xs)%nat by lia.
    eapply IH; [|exact H2]. eapply Hbody; eassumption.
Qed.

(** ** Application tracking: the counters and the tables *)

Lemma touch_tables (aid : option string) :
  preserves (fun d => (Database.jobs d, length (Database.applications d)))
    (ApplicationTracker.touch aid).
Proof.
  intros d. unfold ApplicationTracker.touch, bind, Database.handle, Database.now.
  destruct (Database.db d); cbn; [|reflexivity].
  rewrite length_map. reflexivity.
Qed.

Section StoreViews.
Context {X : Type} (v : Database.t -> X).

Lemma through_store {A} (m : M Sys.t A) : preserves Sys.store m -> preserves (through v) m.
Proof. intros Hm s. unfold through. rewrite (Hm s). reflexivity. Qed.

Lemma through_database {A} (m : M Database.t A) :
  preserves v m -> preserves (through v) (database m).
Proof.
  intros Hm s. rewrite database_run. unfold through. destruct s; cbn. apply Hm.
Qed.

End StoreViews.

Ltac view_step :=
  match goal with
  | |- preserves (through _) (database _) => apply through_database
  | |- preserves (through _) (for_of _ _ _) => apply preserves_for_of
  | |- preserves (through _) (LinkedInAuth.ensureLoggedIn _ _) =>
      apply through_store, ensureLoggedIn_store
  | |- preserves (through _) (BrowserManager.humanLikeDelay _ _ _) =>
      apply through_store, humanLikeDelay_store
  | |- preserves (through _) (page_action _ _) => apply through_store, page_action_store
  | |- preserves (through _) (emit _) => apply through_store, emit_store
  | |- preserves _ (modify _) => apply preserves_modify; intros []; reflexivity
  | _ => frame_step
  end.

Ltac view_frame := repeat view_step; auto with frame.

Lemma handle_rows : preserves tracked_rows Database.handle.
Proof. intros d. unfold Database.handle. destruct (Database.db d); reflexivity. Qed.
#[export] Hint Resolve handle_rows : frame.

Lemma now_rows : preserves tracked_rows Database.now.
Proof. intros d. reflexivity. Qed.
#[export] Hint Resolve now_rows : frame.

Lemma touch_rows (aid : option string) : preserves tracked_rows (ApplicationTracker.touch aid).
Proof.
  intros d. unfold ApplicationTracker.touch, bind, Database.handle, Database.now.
  destruct (Database.db d); cbn; [|reflexivity].
  unfold tracked_rows. cbn. rewrite length_map. reflexivity.
Qed.
#[export] Hint Resolve touch_rows : frame.

Lemma get_job_rows (key : string) : preserves tracked_rows (Database.get_job key).
Proof. unfold Database.get_job. view_frame. Qed.
#[export] Hint Resolve get_job_rows : frame.

Lemma insert_log_rows (type status : string) (a b c : Z) (msg : option string) :
  preserves tracked_rows (Database.insert_log type status a b c msg).
Proof. unfold Database.insert_log. view_frame. Qed.
#[export] Hint Resolve insert_log_rows : frame.

Lemma all_applications_rows : preserves tracked_rows ApplicationTracker.all_applications.
Proof. unfold ApplicationTracker.all_applications. view_frame. Qed.
#[export] Hint Resolve all_applications_rows : frame.

Lemma update_rows (g : AppRow.t -> AppRow.t) :
  preserves tracked_rows
    (Database.handle >> modify (Database.set_applications (map g))).
Proof.
  intros d. unfold bind, Database.handle.
  destruct (Database.db d); cbn; [|reflexivity].
  unfold tracked_rows. cbn. rewrite length_map. reflexivity.
Qed.

Lemma updateApplicationStatus_rows (a : AppRow.t) (u : StatusUpdate.t) :
  preserves (through tracked_rows) (ApplicationTracker.updateApplicationStatus a u).
Proof.
  unfold ApplicationTracker.updateApplicationStatus.
  apply preserves_try_catch; [|intros e; apply preserves_throw].
  apply through_database, update_rows.
Qed.
#[export] Hint Resolve updateApplicationStatus_rows : frame.

Lemma findApplicationElement_rows (site : Site.t) (a : AppRow.t) :
  preserves (through tracked_rows) (ApplicationTracker.findApplicationElement site a).
Proof. unfold ApplicationTracker.findApplicationElement. view_frame. Qed.
#[export] Hint Resolve findApplicationElement_rows : frame.

Lemma checkApplicationStatus_rows (site : Site.t) (a : AppRow.t) :
  preserves (through tracked_rows) (ApplicationTracker.checkApplicationStatus site a).
Proof. unfold ApplicationTracker.checkApplicationStatus. view_frame. Qed.
#[export] Hint Resolve checkApplicationStatus_rows : frame.

Lemma logTrackingSession_rows (type status : string) (a b u t0 : Z) (msg : option string) :
  preserves (through tracked_rows)
    (ApplicationTracker.logTrackingSession type status a b u t0 msg).
Proof. unfold ApplicationTracker.logTrackingSession. view_frame. Qed.
#[export] Hint Resolve logTrackingSession_rows : frame.

Lemma trackApplications_rows (env : Env.t) (site : Site.t) :
  preserves (through tracked_rows) (ApplicationTracker.trackApplications env site).
Proof.
  unfold ApplicationTracker.trackApplications, ApplicationTracker.navigateToApplicationsPage.
  view_frame.
Qed.

Lemma all_applications_run (s s' : Sys.t) (applications : list AppRow.t) :
  database ApplicationTracker.all_applications s = (Ok applications, s') ->
  length applications = length (Database.applications (Sys.store s)).
Proof.
  rewrite database_run. unfold ApplicationTracker.all_applications, bind, Database.handle.
  destruct (Database.db (Sys.store s)); cbn; [|discriminate].
  intros H. injection H as <- _. apply order_by_length.
Qed.

Lemma trackApplications_counted (env : Env.t) (site : Site.t) (s s' : Sys.t)
    (c : ApplicationTracker.Counts) :
  ApplicationTracker.trackApplications env site s = (Ok c, s') ->
  counted (length (Database.applications (Sys.store s))) c.
Proof.
  unfold ApplicationTracker.trackApplications. rewrite bind_now. intros Hrun.
  apply try_catch_ok in Hrun; [|intros; apply then_throw_not_ok].
  apply bind_ok in Hrun. destruct Hrun as [b [s1 [Hlogin Hrun]]].
  apply bind_ok in Hrun. destruct Hrun as [b' [s2 [Hnav Hrun]]].
  apply bind_ok in Hrun. destruct Hrun as [applications [s3 [Hall Hrun]]].
  apply bind_ok in Hrun. destruct Hrun as [c0 [s4 [Hloop Hrun]]].
  apply bind_ok in Hrun. destruct Hrun as [[] [s5 [_ Hret]]].
  injection Hret as -> _.
  assert (Hlen : length applications = length (Database.applications (Sys.store s))).
  { rewrite (all_applications_run _ _ _ Hall).
    pose proof (ensureLoggedIn_store env site s) as H1. rewrite Hlogin in H1.
    assert (H2 : preserves Sys.store (ApplicationTracker.navigateToApplicationsPage site)).
    { unfold ApplicationTracker.navigateToApplicationsPage. frame. }
    specialize (H2 s1). rewrite Hnav in H2. cbn [snd] in *. congruence. }
  rewrite <- Hlen.
  refine (for_of_invariant _ counted applications _ 0%nat _ _ _ _ _ Hloop).
  - clear. intros x acc t acc' t' n [Hsum [Hupd Herr]]. unfold try_catch.
    destruct (bind _ _ t) as [[c1|e|] t1] eqn:E; cbn [ret]; intros H;
      [|injection H as <- _|discriminate]; [injection H as <- _|].
    + apply bind_ok in E. destruct E as [statusUpdate [t2 [_ E]]].
      apply bind_ok in E. destruct E as [updated [t3 [Hupdated E]]].
      apply bind_ok in E. destruct E as [[] [t4 [_ E]]].
      injection E as <- _.
      assert (Hu : updated = ApplicationTracker.updatedCount acc
                   \/ updated = ApplicationTracker.updatedCount acc + 1).
      { destruct statusUpdate as [u|].
        - apply bind_ok in Hupdated. destruct Hupdated as [[] [t5 [_ Hu]]].
          injection Hu as <- _. right. reflexivity.
        - injection Hupdated as <- _. left. reflexivity. }
      unfold counted. cbn. lia.
    + unfold counted. cbn. lia.
  - unfold counted. cbn. lia.
Qed.

(** When [trackApplications] resolves, every stored application was
    either checked or counted as an error, no more applications were
    updated than checked, and the run has neither added nor removed an
    application nor touched a row of [jobs]. *)
Theorem trackApplications_accounts_for_every_application :
  forall (env : Env.t) (site : Site.t) (s : Sys.t),
    match ApplicationTracker.trackApplications env site s with
    | (Ok c, s') =>
        ApplicationTracker.checkedCount c + ApplicationTracker.errorsCount c
          = Z.of_nat (length (Database.applications (Sys.store s)))
        /\ 0 <= ApplicationTracker.updatedCount c <= ApplicationTracker.checkedCount c
        /\ 0 <= ApplicationTracker.errorsCount c
        /\ length (Database.applications (Sys.store s'))
           = length (Database.applications (Sys.store s))
        /\ Database.jobs (Sys.store s') = Database.jobs (Sys.store s)
    | (_, s') =>
        length (Database.applications (Sys.store s'))
          = length (Database.applications (Sys.store s))
        /\ Database.jobs (Sys.store s') = Database.jobs (Sys.store s)
    end.
Proof.
  intros env site s.
  pose proof (trackApplications_rows env site s) as Hrows.
  pose proof (trackApplications_counted env site s) as Hcount.
  destruct (ApplicationTracker.trackApplications env site s) as [[c|e|] s'];
    cbn [snd] in Hrows; unfold through, tracked_rows in Hrows; injection Hrows as Hj Ha.
  - destruct (Hcount s' c eq_refl) as [H1 [H2 H3]]. auto.
  - auto.
  - auto.
Qed.

(** ** A scrape run never gets past the listing stage *)

Lemma navigateToJobs_store (site : Site.t) : preserves Sys.store (LinkedInAuth.navigateToJobs site).
Proof. unfold LinkedInAuth.navigateToJobs. frame. Qed.

Lemma applySearchFilters_store (site : Site.t) (filters : SearchFilters.t) :
  preserves Sys.store (JobScraper.applySearchFilters site filters).
Proof. unfold JobScraper.applySearchFilters. frame. Qed.

(** A number or [undefined] in the place of the page: the loop is entered
    (0 < 100) and its first statement is a TypeError. *)
Lemma scrapeJobListings_without_page (filters : SearchFilters.t) :
  exists msg, JobScraper.scrapeJobListings (JobScraper.page_argument filters) 100 = Throw msg.
Proof.
  unfold JobScraper.page_argument.
  destruct (SearchFilters.maxJobs filters); cbn; eauto.
Qed.

Lemma logScrapingSession_tables (type status : string) (a b t0 : Z) (msg : option string)
    (s : Sys.t) :
  exists s',
    JobScraper.logScrapingSession type status a b t0 msg s = (Ok tt, s')
    /\ through job_and_application_rows s' = through job_and_application_rows s.
Proof.
  unfold JobScraper.logScrapingSession, try_catch, bind.
  rewrite now_run, database_run.
  pose proof (insert_log_tables type status a b
                (Database.clock (Sys.store s) - t0) msg (Sys.store s)) as Hsame.
  cbv beta in Hsame.
  destruct (Database.insert_log _ _ _ _ _ _ (Sys.store s)) as [[[]|e|] d1] eqn:E; cbn in *.
  - eexists. split; [reflexivity|]. destruct s; exact Hsame.
  - eexists. split; [reflexivity|]. destruct s; exact Hsame.
  - exfalso. apply (insert_log_settles type status a b
                      (Database.clock (Sys.store s) - t0) msg (Sys.store s)).
    rewrite E. reflexivity.
Qed.

(** [try { body } catch (error) { log; throw error }] around a body that
    cannot resolve and does not reach the store. *)
Lemma failing_run {A} (body : M Sys.t A) (log : string -> M Sys.t unit) (s : Sys.t) :
  (exists r s1, body s = (r, s1) /\ Sys.store s1 = Sys.store s /\ forall a, r <> Ok a) ->
  (forall e s1, exists s2,
     log e s1 = (Ok tt, s2)
     /\ through job_and_application_rows s2 = through job_and_application_rows s1) ->
  (forall a s', try_catch body (fun error => log error >> throw error) s <> (Ok a, s'))
  /\ through job_and_application_rows
       (snd (try_catch body (fun error => log error >> throw error) s))
     = through job_and_application_rows s.
Proof.
  intros [r [s1 [Hbody [Hstore Hr]]]] Hlog. unfold try_catch. rewrite Hbody.
  destruct r as [a|e|].
  - destruct (Hr a eq_refl).
  - unfold bind. destruct (Hlog e s1) as [s2 [-> Hsame]].
    cbn [throw snd]. split; [discriminate|].
    rewrite Hsame. unfold through. rewrite Hstore. reflexivity.
  - cbn [snd]. split; [discriminate|]. unfold through. rewrite Hstore. reflexivity.
Qed.

Lemma scrapeJobs_fails (env : Env.t) (site : Site.t) (searchFilters : SearchFilters.t)
    (customFilters : option SearchFilters.t) (s : Sys.t) :
  (forall jobs s', JobScraper.scrapeJobs env site searchFilters customFilters s <> (Ok jobs, s'))
  /\ through job_and_application_rows
       (snd (JobScraper.scrapeJobs env site searchFilters customFilters s))
     = through job_and_application_rows s.
Proof.
  unfold JobScraper.scrapeJobs. rewrite bind_now. cbv beta zeta.
  apply failing_run; [|intros; apply logScrapingSession_tables].
  unfold bind.
  pose proof (ensureLoggedIn_store env site s) as H1.
  destruct (LinkedInAuth.ensureLoggedIn env site s) as [[b|e|] s1]; cbn [snd] in H1;
    [|do 2 eexists; split; [reflexivity|]; split; [exact H1 | discriminate]..].
  pose proof (navigateToJobs_store site s1) as H2.
  destruct (LinkedInAuth.navigateToJobs site s1) as [[b'|e|] s2]; cbn [snd] in H2;
    [|do 2 eexists; split; [reflexivity|]; split; [congruence | discriminate]..].
  pose proof (applySearchFilters_store site (default searchFilters customFilters) s2) as H3.
  destruct (JobScraper.applySearchFilters site _ s2) as [[[]|e|] s3]; cbn [snd] in H3;
    [|do 2 eexists; split; [reflexivity|]; split; [congruence | discriminate]..].
  destruct (scrapeJobListings_without_page (default searchFilters customFilters)) as [msg ->].
  do 2 eexists. split; [reflexivity|]. split; [congruence | discriminate].
Qed.

(** [scrapeJobs] passes [filters.maxJobs] where [scrapeJobListings] expects
    the page, so no run of [scrapeJobs] resolves, whatever the site shows:
    it rejects or is still waiting at the login, and it leaves the rows of
    [jobs] and [applications] as they were. *)
Theorem scrapeJobs_never_resolves :
  forall (env : Env.t) (site : Site.t) (searchFilters : SearchFilters.t)
         (customFilters : option SearchFilters.t) (s : Sys.t),
    let run := JobScraper.scrapeJobs env site searchFilters customFilters s in
    (forall jobs, fst run <> Ok jobs)
    /\ Database.jobs (Sys.store (snd run)) = Database.jobs (Sys.store s)
    /\ Database.applications (Sys.store (snd run)) = Database.applications (Sys.store s).
Proof.
  intros env site searchFilters customFilters s run. unfold run.
  destruct (scrapeJobs_fails env site searchFilters customFilters s) as [Hno Hsame].
  unfold through, job_and_application_rows in Hsame. injection Hsame as Hj Ha.
  split; [|split; assumption].
  intros jobs Hjobs.
  destruct (JobScraper.scrapeJobs env site searchFilters customFilters s) as [r s'].
  cbn in Hjobs. subst r. apply (Hno jobs s' eq_refl).
Qed.

Lemma try_catch_run {S A} (m : M S A) (h : string -> M S A) (s : S) :
  try_catch m h s = match m s with
                    | (Throw e, s') => h e s'
                    | r => r
                    end.
Proof. reflexivity. Qed.

Lemma session_close_store : preserves Sys.store Session.close.
Proof. unfold Session.close. frame. Qed.

Lemma logScrapingSession_row (type status : string) (a b t0 : Z) (msg : option string)
    (s : Sys.t) :
  Database.db (Sys.store s) = true ->
  exists s',
    JobScraper.logScrapingSession type status a b t0 msg s = (Ok tt, s')
    /\ Database.scraping_logs (Sys.store s')
       = Database.scraping_logs (Sys.store s)
         ++ [LogRow.mk type status a b (Database.clock (Sys.store s) - t0)
               (Database.clock (Sys.store s)) (Database.clock (Sys.store s)) msg].
Proof.
  intros Hdb. unfold JobScraper.logScrapingSession, try_catch, bind.
  rewrite now_run, database_run.
  unfold Database.insert_log, bind. rewrite (handle_open _ Hdb). cbn.
  eexists. split; [reflexivity|]. destruct s; reflexivity.
Qed.

Lemma scrapeJobsWithFreshStart_body (env : Env.t) (site : Site.t)
    (filters : SearchFilters.t) (freshStart : bool) (t0 : Z) (s : Sys.t) :
  exists r s1,
    ((if freshStart then Session.close else ret tt) >>
     LinkedInAuth.ensureLoggedIn env site >>
     LinkedInAuth.navigateToJobs site >>
     JobScraper.applySearchFilters site filters >>
     let* scrapedJobs :=
       (fun s0 => (JobScraper.scrapeJobListings (JobScraper.page_argument filters) 100, s0)) in
     let* errorsCount :=
       for_of scrapedJobs 0 (fun job errorsCount =>
         try_catch (JobScraper.processAndSaveJob job >> ret errorsCount)
                   (fun _ => ret (errorsCount + 1))) in
     JobScraper.logScrapingSession "job_scrape" "success" (Z.of_nat (length scrapedJobs))
       errorsCount t0 None >>
     ret scrapedJobs) s = (r, s1)
    /\ Sys.store s1 = Sys.store s
    /\ forall jobs, r <> Ok jobs.
Proof.
  unfold bind.
  assert (H0 : exists s0, (if freshStart then Session.close else ret tt) s = (Ok tt, s0)
                          /\ Sys.store s0 = Sys.store s).
  { destruct freshStart; eexists; split; reflexivity. }
  destruct H0 as [s0 [-> H0]].
  pose proof (ensureLoggedIn_store env site s0) as H1.
  destruct (LinkedInAuth.ensureLoggedIn env site s0) as [[b|e|] s1]; cbn [snd] in H1;
    [|do 2 eexists; split; [reflexivity|]; split; [congruence | discriminate]..].
  pose proof (navigateToJobs_store site s1) as H2.
  destruct (LinkedInAuth.navigateToJobs site s1) as [[b'|e|] s2]; cbn [snd] in H2;
    [|do 2 eexists; split; [reflexivity|]; split; [congruence | discriminate]..].
  pose proof (applySearchFilters_store site filters s2) as H3.
  destruct (JobScraper.applySearchFilters site _ s2) as [[[]|e|] s3]; cbn [snd] in H3;
    [|do 2 eexists; split; [reflexivity|]; split; [congruence | discriminate]..].
  destruct (scrapeJobListings_without_page filters) as [msg ->].
  do 2 eexists. split; [reflexivity|]. split; [congruence | discriminate].
Qed.

(** The manual scrape ([POST /api/jobs/scrape] calls
    [scrapeJobsWithFreshStart]) has the same call of [scrapeJobListings]
    without the page: it never resolves and stores no job; when it rejects
    on an initialised store, the row it leaves in [scraping_logs] has
    status 'failed', 0 items, 1 error and no error message. *)
Theorem scrapeJobsWithFreshStart_never_resolves :
  forall (env : Env.t) (site : Site.t) (searchFilters : SearchFilters.t)
         (customFilters : option SearchFilters.t) (freshStart : bool) (s : Sys.t),
    match Session.scrapeJobsWithFreshStart env site searchFilters customFilters freshStart s with
    | (Ok _, _) => False
    | (Throw _, s') =>
        Database.jobs (Sys.store s') = Database.jobs (Sys.store s)
        /\ (Database.db (Sys.store s) = true ->
            exists duration t,
              Database.scraping_logs (Sys.store s')
              = Database.scraping_logs (Sys.store s)
                ++ [LogRow.mk "job_scrape" "failed" 0 1 duration t t None])
    | (Hang, s') => Sys.store s' = Sys.store s
    end.
Proof.
  intros env site searchFilters customFilters freshStart s.
  unfold Session.scrapeJobsWithFreshStart. rewrite bind_now. cbv beta zeta.
  rewrite try_catch_run.
  destruct (scrapeJobsWithFreshStart_body env site (default searchFilters customFilters)
              freshStart (Database.clock (Sys.store s)) s) as [r [s1 [-> [Hstore Hr]]]].
  destruct r as [jobs|e|].
  - destruct (Hr jobs eq_refl).
  - unfold bind.
    destruct (logScrapingSession_tables "job_scrape" "failed" 0 1
                (Database.clock (Sys.store s)) None s1) as [s2 [Hlog Hsame]].
    rewrite Hlog. cbn [throw].
    unfold through, job_and_application_rows in Hsame. injection Hsame as Hj _.
    split; [congruence|]. intros Hdb.
    assert (Hdb1 : Database.db (Sys.store s1) = true) by congruence.
    destruct (logScrapingSession_row "job_scrape" "failed" 0 1
                (Database.clock (Sys.store s)) None s1 Hdb1) as [s2' [Hlog' Hrow]].
    rewrite Hlog in Hlog'. injection Hlog' as <-.
    do 2 eexists. rewrite Hrow, Hstore. reflexivity.
  - exact Hstore.
Qed.

(** ** What a [true] from [ensureLoggedIn] means *)

Lemma attempt_true (env : Env.t) (site : Site.t) (rest : nat) (s s' : Sys.t) (b : bool) :
  LinkedInAuth.attempt env site rest s = (Ok (Some b), s') ->
  b = true /\ Sys.isLoggedIn s' = true.
Proof.
  unfold LinkedInAuth.attempt. unfold bind at 1, get_state at 1. rewrite try_catch_run.
  unfold bind at 1.
  destruct (LinkedInAuth.login env _ s) as [[r|e|] s1]; [| |discriminate].
  - unfold bind at 1, get_state at 1.
    destruct (Sys.isLoggedIn s1) eqn:Hflag.
    + cbn [ret]. intros H. injection H as <- <-. split; [reflexivity | exact Hflag].
    + unfold bind. destruct rest; cbn; discriminate.
  - unfold bind. destruct rest as [|rest]; cbn; discriminate.
Qed.

Lemma login_attempts_true (env : Env.t) (site : Site.t) (remaining : nat) :
  forall s s', LinkedInAuth.login_attempts env site remaining s = (Ok true, s') ->
               Sys.isLoggedIn s' = true.
Proof.
  induction remaining as [|rest IH]; intros s s'; simpl.
  - discriminate.
  - intros H. apply bind_ok in H. destruct H as [r [s1 [Hattempt Hrest]]].
    destruct r as [b|].
    + destruct (attempt_true _ _ _ _ _ _ Hattempt) as [_ Hflag].
      injection Hrest as _ <-. exact Hflag.
    + apply (IH _ _ Hrest).
Qed.

(** [ensureLoggedIn] resolves with [true] only in a state whose
    [isLoggedIn] flag is set, so the guard of [navigateToJobs] that follows
    it lets the run pass; and it never rejects. *)
Theorem ensureLoggedIn_true_means_logged_in :
  forall (env : Env.t) (site : Site.t) (s : Sys.t),
    match LinkedInAuth.ensureLoggedIn env site s with
    | (Ok true, s') => Sys.isLoggedIn s' = true
    | (Ok false, _) => True
    | (Throw _, _) => False
    | (Hang, _) => True
    end.
Proof.
  intros env site s.
  pose proof (ensureLoggedIn_never_throws env site s) as Hnt.
  destruct (LinkedInAuth.ensureLoggedIn env site s) as [[[|]|e|] s'] eqn:Hrun;
    [|exact I|destruct (Hnt e eq_refl)|exact I].
  unfold LinkedInAuth.ensureLoggedIn in Hrun. rewrite try_catch_run in Hrun.
  destruct (Site.page_ready site); cbn [negb] in Hrun; [|discriminate].
  destruct (bind _ _ s) as [[b|e|] s2] eqn:Hbody; try discriminate.
  injection Hrun as -> ->. rename Hbody into Hrun.
  apply bind_ok in Hrun. destruct Hrun as [s0 [s1 [Hget Hrun]]].
  injection Hget as <- <-.
  destruct (Sys.isLoggedIn s && Site.session_alive site) eqn:Halive.
  - injection Hrun as <-. apply andb_prop in Halive. tauto.
  - apply (login_attempts_true _ _ _ _ _ Hrun).
Qed.

(** ** The life cycle of the scheduler *)

Lemma executing_remove_one (task other : Task) (l : list Task) :
  (length (List.filter (Task_eqb other) (Scheduler.remove_one task l))
   <= length (List.filter (Task_eqb other) l))%nat.
Proof.
  induction l as [|x l IH]; simpl; [lia|].
  destruct (Task_eqb x task); simpl.
  - destruct (Task_eqb other x); simpl; lia.
  - destruct (Task_eqb other x); simpl; lia.
Qed.

(** Reachable states: a scheduler that is not running holds no timer. *)
Lemma stopped_holds_no_timer (inputs : list Scheduler.Input) :
  forall s,
    (Scheduler.isRunning s = false -> Scheduler.jobs s = ∅) ->
    Scheduler.isRunning (Scheduler.run s inputs) = false ->
    Scheduler.jobs (Scheduler.run s inputs) = ∅.
Proof.
  unfold Scheduler.run.
  induction inputs as [|i inputs IH]; intros s Hinv; simpl; [exact Hinv|].
  apply IH. destruct i; cbn [Scheduler.step].
  - unfold Scheduler.start. case_eq (Scheduler.isRunning s); intros E; [congruence|].
    destruct (Env.equals _ _); cbn; discriminate.
  - unfold Scheduler.stop. case_eq (Scheduler.isRunning s); intros E;
      [reflexivity | exact Hinv].
  - destruct (Scheduler.jobs s !! name) as [timer|]; [|exact Hinv].
    destruct (Timer.started timer); [|exact Hinv].
    unfold Scheduler.callback.
    destruct (Timer.task timer); try exact Hinv;
      try destruct ((9 <=? hour) && (hour <=? 17)); exact Hinv.
  - exact Hinv.
  - unfold Scheduler.pauseJob, Scheduler.set_started.
    destruct (Scheduler.jobs s !! name) eqn:E; [|exact Hinv].
    cbn. intros Hr. rewrite (Hinv Hr) in E. rewrite lookup_empty in E. discriminate.
  - unfold Scheduler.resumeJob, Scheduler.set_started.
    destruct (Scheduler.jobs s !! name) eqn:E; [|exact Hinv].
    cbn. intros Hr. rewrite (Hinv Hr) in E. rewrite lookup_empty in E. discriminate.
  - exact Hinv.
Qed.

Lemma quiet_step (s : Scheduler.t) (i : Scheduler.Input) :
  neither_start_nor_trigger i = true ->
  Scheduler.jobs s = ∅ -> Scheduler.isRunning s = false ->
  Scheduler.jobs (Scheduler.step s i) = ∅
  /\ Scheduler.isRunning (Scheduler.step s i) = false
  /\ forall task, (Scheduler.executing task (Scheduler.step s i)
                   <= Scheduler.executing task s)%nat.
Proof.
  intros Hi Hjobs Hrun. destruct i; try discriminate; cbn [Scheduler.step].
  - unfold Scheduler.stop. rewrite Hrun. auto.
  - rewrite Hjobs, lookup_empty. auto.
  - unfold Scheduler.pauseJob, Scheduler.set_started. rewrite Hjobs, lookup_empty. auto.
  - unfold Scheduler.resumeJob, Scheduler.set_started. rewrite Hjobs, lookup_empty. auto.
  - cbn. split; [exact Hjobs|]. split; [exact Hrun|].
    intros other. unfold Scheduler.executing. cbn. apply executing_remove_one.
Qed.

Lemma quiet_run (inputs : list Scheduler.Input) :
  forall s,
    forallb neither_start_nor_trigger inputs = true ->
    Scheduler.jobs s = ∅ -> Scheduler.isRunning s = false ->
    Scheduler.jobs (Scheduler.run s inputs) = ∅
    /\ Scheduler.isRunning (Scheduler.run s inputs) = false
    /\ forall task, (Scheduler.executing task (Scheduler.run s inputs)
                     <= Scheduler.executing task s)%nat.
Proof.
  unfold Scheduler.run.
  induction inputs as [|i inputs IH]; intros s Hall Hjobs Hrun; simpl in *.
  - auto.
  - apply andb_prop in Hall. destruct Hall as [Hi Hall].
    destruct (quiet_step s i Hi Hjobs Hrun) as [Hj [Hr Hle]].
    destruct (IH _ Hall Hj Hr) as [Hj' [Hr' Hle']].
    split; [exact Hj'|]. split; [exact Hr'|].
    intros task. specialize (Hle task). specialize (Hle' task). lia.
Qed.

(** After [stop()] the scheduler holds no timer and is not running, and
    it stays so: no firing of a schedule, [pauseJob], [resumeJob] or second
    [stop()] starts an execution; only [start()] or a manual trigger does.
    [stop()] itself cancels no execution that is in flight. *)
Theorem scheduler_stop_is_final :
  forall (before after : list Scheduler.Input),
    forallb neither_start_nor_trigger after = true ->
    let running := Scheduler.run Scheduler.initial before in
    let stopped := Scheduler.step running Scheduler.Stop in
    Scheduler.in_flight stopped = Scheduler.in_flight running
    /\ Scheduler.jobs (Scheduler.run stopped after) = ∅
    /\ Scheduler.isRunning (Scheduler.run stopped after) = false
    /\ forall task, (Scheduler.executing task (Scheduler.run stopped after)
                     <= Scheduler.executing task running)%nat.
Proof.
  intros before after Hafter running stopped.
  assert (Hflight : Scheduler.in_flight stopped = Scheduler.in_flight running).
  { unfold stopped. cbn [Scheduler.step]. unfold Scheduler.stop.
    destruct (Scheduler.isRunning running); reflexivity. }
  assert (Hstopped : Scheduler.jobs stopped = ∅ /\ Scheduler.isRunning stopped = false).
  { unfold stopped. cbn [Scheduler.step]. unfold Scheduler.stop.
    destruct (Scheduler.isRunning running) eqn:E; [split; reflexivity|].
    split; [|exact E].
    apply (stopped_holds_no_timer before Scheduler.initial); [reflexivity | exact E]. }
  destruct Hstopped as [Hj Hr].
  destruct (quiet_run after stopped Hafter Hj Hr) as [Hj' [Hr' Hle]].
  split; [exact Hflight|]. split; [exact Hj'|]. split; [exact Hr'|].
  intros task. specialize (Hle task). unfold Scheduler.executing in *.
  rewrite Hflight in Hle. exact Hle.
Qed.

Lemma scheduler_stop_is_final_witness :
  let running := Scheduler.run Scheduler.initial
                   [Scheduler.Start 10 env_on; Scheduler.Fire "jobScraping" 10] in
  let stopped := Scheduler.step running Scheduler.Stop in
  let after := [Scheduler.Fire "jobScraping" 10; Scheduler.Resume "jobScraping";
                Scheduler.Fire "dailyTasks" 2] in
  Scheduler.in_flight stopped = Scheduler.in_flight running
  /\ Scheduler.jobs (Scheduler.run stopped after) = ∅
  /\ Scheduler.isRunning (Scheduler.run stopped after) = false
  /\ forall task, (Scheduler.executing task (Scheduler.run stopped after)
                   <= Scheduler.executing task running)%nat.
Proof.
  apply (scheduler_stop_is_final
           [Scheduler.Start 10 env_on; Scheduler.Fire "jobScraping" 10]
           [Scheduler.Fire "jobScraping" 10; Scheduler.Resume "jobScraping";
            Scheduler.Fire "dailyTasks" 2]).
  reflexivity.
Defined.

(** *** Auto-apply is scheduled only on request *)

(** No timer runs auto-apply and no auto-apply execution is in flight. *)
Lemma schedule_other_task (name expression : string) (task : Task) (s : Scheduler.t) :
  task <> AutoApplication ->
  (forall n timer, Scheduler.jobs s !! n = Some timer -> Timer.task timer <> AutoApplication) ->
  forall n timer,
    Scheduler.jobs (Scheduler.schedule name expression task s) !! n = Some timer ->
    Timer.task timer <> AutoApplication.
Proof.
  intros Htask Hinv n timer. unfold Scheduler.schedule. cbn.
  intros H. apply lookup_insert_Some in H.
  destruct H as [[_ <-]|[_ H]]; [exact Htask | exact (Hinv n timer H)].
Qed.

Lemma set_started_other_task (b : bool) (name : string) (s : Scheduler.t) :
  (forall n timer, Scheduler.jobs s !! n = Some timer -> Timer.task timer <> AutoApplication) ->
  forall n timer,
    Scheduler.jobs (Scheduler.set_started b name s) !! n = Some timer ->
    Timer.task timer <> AutoApplication.
Proof.
  intros Hinv n timer. unfold Scheduler.set_started.
  destruct (Scheduler.jobs s !! name) as [old|] eqn:E; [|apply Hinv].
  cbn. intros H. apply lookup_insert_Some in H.
  destruct H as [[_ <-]|[_ H]]; [exact (Hinv name old E) | exact (Hinv n timer H)].
Qed.

Lemma set_started_in_flight (b : bool) (name : string) (s : Scheduler.t) :
  Scheduler.in_flight (Scheduler.set_started b name s) = Scheduler.in_flight s.
Proof.
  unfold Scheduler.set_started. destruct (Scheduler.jobs s !! name); reflexivity.
Qed.

Lemma auto_apply_step (s : Scheduler.t) (i : Scheduler.Input) :
  auto_apply_not_asked_for i = true ->
  (forall n timer, Scheduler.jobs s !! n = Some timer -> Timer.task timer <> AutoApplication) ->
  Scheduler.executing AutoApplication s = 0%nat ->
  (forall n timer, Scheduler.jobs (Scheduler.step s i) !! n = Some timer ->
                   Timer.task timer <> AutoApplication)
  /\ Scheduler.executing AutoApplication (Scheduler.step s i) = 0%nat.
Proof.
  intros Hi Hinv Hnone. destruct i; cbn [Scheduler.step auto_apply_not_asked_for] in *.
  - unfold Scheduler.start. destruct (Scheduler.isRunning s); [auto|].
    apply negb_true_iff in Hi. rewrite Hi. split; [|exact Hnone].
    unfold Scheduler.scheduleDailyTasks, Scheduler.scheduleCompanyScraping,
      Scheduler.scheduleApplicationTracking, Scheduler.scheduleJobScraping.
    repeat (apply schedule_other_task; [discriminate|]).
    exact Hinv.
  - unfold Scheduler.stop. destruct (Scheduler.isRunning s); [|auto].
    split; [|exact Hnone]. cbn. intros n timer H. rewrite lookup_empty in H. discriminate.
  - destruct (Scheduler.jobs s !! name) as [timer|] eqn:E; [|auto].
    destruct (Timer.started timer); [|auto].
    pose proof (Hinv name timer E) as Htask.
    unfold Scheduler.callback.
    destruct (Timer.task timer); try (destruct (Htask eq_refl));
      (split; [exact Hinv | rewrite executing_launch, Hnone; reflexivity]).
  - split; [exact Hinv|]. rewrite executing_launch, Hnone.
    apply negb_true_iff in Hi. destruct task; try reflexivity. discriminate.
  - split; [apply set_started_other_task, Hinv|].
    unfold Scheduler.executing, Scheduler.pauseJob in *.
    rewrite set_started_in_flight. exact Hnone.
  - split; [apply set_started_other_task, Hinv|].
    unfold Scheduler.executing, Scheduler.resumeJob in *.
    rewrite set_started_in_flight. exact Hnone.
  - split; [exact Hinv|]. unfold Scheduler.executing in *. cbn.
    pose proof (executing_remove_one task AutoApplication (Scheduler.in_flight s)). lia.
Qed.

(** Unless [start()] runs under [AUTO_APPLY_ENABLED=true] or
    [triggerAutoApplication()] is called, the scheduler never starts an
    auto-apply run, whatever fires and whenever. *)
Theorem scheduler_never_applies_unasked :
  forall inputs : list Scheduler.Input,
    forallb auto_apply_not_asked_for inputs = true ->
    Scheduler.executing AutoApplication (Scheduler.run Scheduler.initial inputs) = 0%nat
    /\ Scheduler.jobs (Scheduler.run Scheduler.initial inputs) !! "autoApplication" = None.
Proof.
  intros inputs Hall.
  assert (Hgen : forall s,
    (forall n timer, Scheduler.jobs s !! n = Some timer -> Timer.task timer <> AutoApplication) ->
    Scheduler.executing AutoApplication s = 0%nat ->
    Scheduler.jobs s !! "autoApplication" = None ->
    Scheduler.executing AutoApplication (Scheduler.run s inputs) = 0%nat
    /\ Scheduler.jobs (Scheduler.run s inputs) !! "autoApplication" = None).
  { unfold Scheduler.run. induction inputs as [|i inputs IH]; intros s Hinv Hnone Hkey; simpl.
    - auto.
    - simpl in Hall. apply andb_prop in Hall. destruct Hall as [Hi Hall].
      destruct (auto_apply_step s i Hi Hinv Hnone) as [Hinv' Hnone'].
      apply (IH Hall); [exact Hinv' | exact Hnone' |].
      clear IH Hall Hnone'. destruct i; cbn [Scheduler.step auto_apply_not_asked_for] in *.
      + unfold Scheduler.start. destruct (Scheduler.isRunning s); [exact Hkey|].
        apply negb_true_iff in Hi. rewrite Hi. cbn.
        rewrite !lookup_insert_ne by discriminate. exact Hkey.
      + unfold Scheduler.stop. destruct (Scheduler.isRunning s); [apply lookup_empty | exact Hkey].
      + destruct (Scheduler.jobs s !! name) as [timer|]; [|exact Hkey].
        destruct (Timer.started timer); [|exact Hkey].
        unfold Scheduler.callback.
        destruct (Timer.task timer); try exact Hkey.
        destruct ((9 <=? hour) && (hour <=? 17)); exact Hkey.
      + exact Hkey.
      + unfold Scheduler.pauseJob, Scheduler.set_started.
        destruct (Scheduler.jobs s !! name) as [timer|] eqn:E; [|exact Hkey].
        cbn. destruct (decide (name = "autoApplication")) as [->|Hne].
        * congruence.
        * rewrite lookup_insert_ne by exact Hne. exact Hkey.
      + unfold Scheduler.resumeJob, Scheduler.set_started.
        destruct (Scheduler.jobs s !! name) as [timer|] eqn:E; [|exact Hkey].
        cbn. destruct (decide (name = "autoApplication")) as [->|Hne].
        * congruence.
        * rewrite lookup_insert_ne by exact Hne. exact Hkey.
      + exact Hkey. }
  apply Hgen.
  - intros n timer H. cbn in H. rewrite lookup_empty in H. discriminate.
  - reflexivity.
  - apply lookup_empty.
Qed.

Lemma scheduler_never_applies_unasked_witness :
  let inputs := [Scheduler.Start 10 env_off; Scheduler.Fire "autoApplication" 10;
                 Scheduler.Resume "autoApplication"; Scheduler.Fire "autoApplication" 11;
                 Scheduler.Trigger JobScraping] in
  Scheduler.executing AutoApplication (Scheduler.run Scheduler.initial inputs) = 0%nat
  /\ Scheduler.jobs (Scheduler.run Scheduler.initial inputs) !! "autoApplication" = None.
Proof.
  apply (scheduler_never_applies_unasked
           [Scheduler.Start 10 env_off; Scheduler.Fire "autoApplication" 10;
            Scheduler.Resume "autoApplication"; Scheduler.Fire "autoApplication" 11;
            Scheduler.Trigger JobScraping]).
  reflexivity.
Defined.

(** *** Pausing and resuming a timer *)

(** [pauseJob] keeps a registered timer from starting anything when its
    schedule comes due, [resumeJob] undoes it exactly, and both leave the
    scheduler as it is when no timer has the name. *)
Theorem pause_and_resume_round_trip :
  forall (s : Scheduler.t) (name : string),
    match Scheduler.jobs s !! name with
    | Some timer =>
        (forall hour,
           Scheduler.step (Scheduler.pauseJob name s) (Scheduler.Fire name hour)
           = Scheduler.pauseJob name s)
        /\ Scheduler.jobs (Scheduler.resumeJob name (Scheduler.pauseJob name s))
           = <[name := Timer.mk (Timer.expression timer) (Timer.task timer) true]>
               (Scheduler.jobs s)
        /\ (Timer.started timer = true ->
            Scheduler.resumeJob name (Scheduler.pauseJob name s) = s)
    | None =>
        Scheduler.pauseJob name s = s /\ Scheduler.resumeJob name s = s
    end.
Proof.
  intros s name. unfold Scheduler.pauseJob, Scheduler.resumeJob.
  destruct (Scheduler.jobs s !! name) as [timer|] eqn:E.
  - assert (Hpaused : Scheduler.set_started false name s
                      = Scheduler.mk
                          (<[name := Timer.mk (Timer.expression timer) (Timer.task timer) false]>
                             (Scheduler.jobs s))
                          (Scheduler.isRunning s) (Scheduler.in_flight s)).
    { unfold Scheduler.set_started. rewrite E. reflexivity. }
    assert (Hresumed : Scheduler.set_started true name (Scheduler.set_started false name s)
                       = Scheduler.mk
                           (<[name := Timer.mk (Timer.expression timer) (Timer.task timer) true]>
                              (Scheduler.jobs s))
                           (Scheduler.isRunning s) (Scheduler.in_flight s)).
    { rewrite Hpaused. unfold Scheduler.set_started at 1. cbn.
      rewrite lookup_insert_eq. cbn. rewrite insert_insert_eq. reflexivity. }
    split; [|split].
    + intros hour. rewrite Hpaused. cbn. rewrite lookup_insert_eq. reflexivity.
    + rewrite Hresumed. reflexivity.
    + intros Hstarted. rewrite Hresumed. destruct s as [jobs running flight].
      cbn in *. f_equal. apply insert_id. rewrite E. destruct timer; cbn in *.
      rewrite Hstarted. reflexivity.
  - unfold Scheduler.set_started. rewrite E. split; reflexivity.
Qed.

(** [start()] on a running scheduler changes nothing, whatever the
    interval and the environment of the second call. *)
Theorem scheduler_start_is_idempotent :
  forall (s : Scheduler.t) (interval interval' : Z) (env env' : Env.t),
    Scheduler.isRunning (Scheduler.start interval env s) = true
    /\ Scheduler.start interval' env' (Scheduler.start interval env s)
       = Scheduler.start interval env s.
Proof.
  intros s interval interval' env env'.
  assert (Hrunning : Scheduler.isRunning (Scheduler.start interval env s) = true).
  { unfold Scheduler.start. destruct (Scheduler.isRunning s) eqn:E; [exact E|].
    destruct (Env.equals _ _); reflexivity. }
  split; [exact Hrunning|].
  unfold Scheduler.start at 1. rewrite Hrunning. reflexivity.
Qed.

(** ** Job ids *)

Lemma digits_all (s : string) : all_chars JobCard.is_digit (JobCard.digits s) = true.
Proof.
  induction s as [|c s IH]; simpl; [reflexivity|].
  destruct (JobCard.is_digit c) eqn:E; simpl; [rewrite E; exact IH | reflexivity].
Qed.

Lemma digits_run (d rest : string) :
  all_chars JobCard.is_digit d = true ->
  starts_with JobCard.is_digit rest = false ->
  JobCard.digits (d +:+ rest) = d.
Proof.
  intros Hd Hrest. induction d as [|c d IH]; simpl in *.
  - destruct rest as [|c rest]; simpl in *; [reflexivity|]. rewrite Hrest. reflexivity.
  - apply andb_prop in Hd. destruct Hd as [Hc Hd]. rewrite Hc, (IH Hd). reflexivity.
Qed.

Lemma match_job_view_digits (url id : string) :
  JobCard.match_job_view url = Some id ->
  id <> EmptyString /\ all_chars JobCard.is_digit id = true.
Proof.
  induction url as [|c url IH]; [discriminate|].
  cbn [JobCard.match_job_view].
  destruct (JobCard.strip_prefix "jobs/view/" (String c url)) as [after|]; [|exact IH].
  pose proof (digits_all after) as Hall.
  destruct (JobCard.digits after) as [|d ds]; [exact IH|].
  intros H. injection H as <-. split; [discriminate | exact Hall].
Qed.

Lemma append_inj_r (p a b : string) : p +:+ a = p +:+ b -> a = b.
Proof.
  induction p as [|c p IH]; simpl; [trivial|].
  intros H. injection H as H. exact (IH H).
Qed.

(** [generateJobId] on a URL that names a job view returns the job's
    number: a non-empty string of digits that does not depend on the
    title, the company or the time.  On any other URL the id ends in the
    time of the call, so the same card seen at two different milliseconds
    gets two different ids. *)
Theorem generateJobId_by_url_or_by_time :
  forall (url title company : string) (now : Z),
    match JobCard.match_job_view url with
    | Some id =>
        JobCard.generateJobId url title company now = id
        /\ id <> EmptyString
        /\ all_chars JobCard.is_digit id = true
        /\ forall title' company' now',
             JobCard.generateJobId url title' company' now' = id
    | None =>
        forall now', now' <> now ->
          JobCard.generateJobId url title company now'
          <> JobCard.generateJobId url title company now
    end.
Proof.
  intros url title company now. unfold JobCard.generateJobId.
  destruct (JobCard.match_job_view url) as [id|] eqn:E.
  - destruct (match_job_view_digits url id E) as [Hne Hall]. auto.
  - intros now' Hnow Heq. apply Hnow. cbv zeta in Heq.
    do 4 apply append_inj_r in Heq.
    apply (inj pretty) in Heq. exact Heq.
Qed.

Lemma strip_prefix_app (p s : string) : JobCard.strip_prefix p (p +:+ s) = Some s.
Proof.
  induction p as [|c p IH]; simpl; [reflexivity|].
  rewrite Ascii.eqb_refl. exact IH.
Qed.

Lemma match_job_view_skip (p s : string) :
  all_chars (fun c => negb (Ascii.eqb letter_j c)) p = true ->
  JobCard.match_job_view (p +:+ s) = JobCard.match_job_view s.
Proof.
  induction p as [|c p IH]; [reflexivity|].
  cbn [all_chars]. intros H. apply andb_prop in H. destruct H as [Hc Hp].
  apply negb_true_iff in Hc.
  change (String c p +:+ s) with (String c (p +:+ s)).
  cbn [JobCard.match_job_view JobCard.strip_prefix].
  change (Ascii.eqb _ c) with (Ascii.eqb letter_j c). rewrite Hc. exact (IH Hp).
Qed.

Lemma match_job_view_here (after : string) :
  JobCard.digits after <> EmptyString ->
  JobCard.match_job_view ("jobs/view/" +:+ after) = Some (JobCard.digits after).
Proof.
  intros Hd.
  change ("jobs/view/" +:+ after) with (String letter_j ("obs/view/" +:+ after)).
  cbn [JobCard.match_job_view].
  change (String letter_j ("obs/view/" +:+ after)) with ("jobs/view/" +:+ after).
  rewrite strip_prefix_app.
  destruct (JobCard.digits after); [destruct (Hd eq_refl) | reflexivity].
Qed.

(** The URL of a LinkedIn job page gives the number in it. *)
Theorem generateJobId_of_job_page :
  forall (id rest title company : string) (now : Z),
    id <> EmptyString ->
    all_chars JobCard.is_digit id = true ->
    starts_with JobCard.is_digit rest = false ->
    JobCard.generateJobId ("https://www.linkedin.com/jobs/view/" +:+ id +:+ rest)
      title company now = id.
Proof.
  intros id rest title company now Hne Hall Hrest. unfold JobCard.generateJobId.
  change ("https://www.linkedin.com/jobs/view/" +:+ id +:+ rest)
    with ("https://www.linkedin.com/" +:+ ("jobs/view/" +:+ (id +:+ rest))).
  rewrite match_job_view_skip by reflexivity.
  rewrite match_job_view_here; rewrite (digits_run id rest Hall Hrest);
    [reflexivity | exact Hne].
Qed.

Lemma generateJobId_of_job_page_witness :
  JobCard.generateJobId ("https://www.linkedin.com/jobs/view/" +:+ "3812345678" +:+ "/?refId=abc")
    "Engineer" "Acme" 1700000000000 = "3812345678".
Proof.
  apply (generateJobId_of_job_page "3812345678" "/?refId=abc" "Engineer" "Acme" 1700000000000).
  - discriminate.
  - reflexivity.
  - reflexivity.
Defined.

(** ** Matching keywords *)








(** ** Answers to form questions *)

(** Whatever a question says, the text typed into it is one of four
    fixed strings, chosen by the first group of words the question
    mentions, in this order and without regard to letter case: experience
    or years ('3'), authorized or visa, relocate or willing to move
    ('Yes'), salary or compensation ('60000'), notice or start date
    ('2 weeks'); 'Yes' otherwise and when the question cannot be read. *)
Theorem question_answers :
  forall innerText : option string,
    let mentions (a b : string) :=
      match innerText with
      | Some text => includes (lower text) a || includes (lower text) b
      | None => false
      end in
    Questions.getAnswerForQuestionType (Questions.identifyQuestionType innerText)
    = Questions.Text
        (if mentions "experience" "years" then "3"
         else if mentions "authorized" "visa" then "Yes"
         else if mentions "relocate" "willing to move" then "Yes"
         else if mentions "salary" "compensation" then "60000"
         else if mentions "notice" "start date" then "2 weeks"
         else "Yes").
Proof.
  intros [text|]; cbv zeta; [|reflexivity].
  unfold Questions.identifyQuestionType. cbv zeta.
  destruct (includes (lower text) "experience" || includes (lower text) "years");
    [reflexivity|].
  destruct (includes (lower text) "authorized" || includes (lower text) "visa");
    [reflexivity|].
  destruct (includes (lower text) "relocate" || includes (lower text) "willing to move");
    [reflexivity|].
  destruct (includes (lower text) "salary" || includes (lower text) "compensation");
    [reflexivity|].
  destruct (includes (lower text) "notice" || includes (lower text) "start date");
    reflexivity.
Qed.

(** ** Proxies *)

Lemma after_calls_index {Proxy} (n : nat) :
  forall this : Proxies.t Proxy,
    Proxies.proxies this <> [] ->
    (Proxies.currentProxyIndex this < length (Proxies.proxies this))%nat ->
    Proxies.proxies (Proxies.after_calls n this) = Proxies.proxies this
    /\ Proxies.currentProxyIndex (Proxies.after_calls n this)
       = ((Proxies.currentProxyIndex this + n) mod length (Proxies.proxies this))%nat.
Proof.
  induction n as [|n IH]; intros this Hne Hlt; simpl.
  - split; [reflexivity|]. rewrite Nat.add_0_r, Nat.mod_small by exact Hlt. reflexivity.
  - unfold Proxies.getRandomProxy.
    destruct (Proxies.proxies this) as [|p ps] eqn:E; [destruct (Hne eq_refl)|].
    cbn [snd].
    destruct (IH (Proxies.mk (p :: ps)
                    ((Proxies.currentProxyIndex this + 1) mod length (p :: ps)))) as [Hp Hi].
    + discriminate.
    + cbn [Proxies.proxies Proxies.currentProxyIndex]. apply Nat.mod_upper_bound. discriminate.
    + cbn [Proxies.proxies Proxies.currentProxyIndex] in *. split; [exact Hp|].
      rewrite Hi. rewrite Nat.Div0.add_mod_idemp_l. f_equal. lia.
Qed.

(** [getRandomProxy] is a round robin: on a browser manager with [n > 0]
    proxies, call number [k] (counted from 0) returns proxy [k mod n], so
    [n] calls in a row use every proxy once, in the order of [PROXY_LIST];
    without proxies every call returns [null]. *)
Theorem getRandomProxy_is_round_robin :
  forall (Proxy : Type) (loaded : list Proxy) (k : nat),
    fst (Proxies.getRandomProxy (Proxies.after_calls k (Proxies.constructor loaded)))
    = match loaded with
      | [] => None
      | _ :: _ => nth_error loaded (k mod length loaded)
      end.
Proof.
  intros Proxy loaded k. destruct loaded as [|p ps].
  - assert (H : Proxies.after_calls k (Proxies.constructor (@nil Proxy))
                = Proxies.constructor []).
    { induction k as [|k IH]; simpl; [reflexivity | exact IH]. }
    rewrite H. reflexivity.
  - destruct (after_calls_index k (Proxies.constructor (p :: ps))) as [Hp Hi].
    + discriminate.
    + cbn. lia.
    + unfold Proxies.getRandomProxy. rewrite Hp. cbn [Proxies.constructor Proxies.proxies fst].
      rewrite Hi. reflexivity.
Qed.

(** ** The routes and their handle *)

(** A router's own [Database] object starts without a handle.  Until
    one of the handlers that initialise it has run, [GET /:id],
    [PATCH /:id/apply], [DELETE /:id] on jobs and [DELETE /:id] and the
    manual [POST /] on applications answer 500 and leave the store alone;
    after [ensure_initialized] none of them answers 500. *)
Theorem routes_need_the_handle :
  forall (d : Database.t) (id : string) (applicationId notes status contact : option string),
    Database.db d = false ->
    Api.getJob id d = (Ok (Api.Sent 500 "Internal server error"), d)
    /\ Api.patchJobApply id applicationId notes d
       = (Ok (Api.Sent 500 "Internal server error"), d)
    /\ Api.deleteJob id d = (Ok (Api.Sent 500 "Internal server error"), d)
    /\ Api.deleteApplication id d = (Ok (Api.Sent 500 "Internal server error"), d)
    /\ Routes.postApplication (Some id) status notes contact d
       = (Ok (Routes.mkResponse
                (if String.eqb id EmptyString then 400 else 500)
                (if String.eqb id EmptyString then "Job ID is required"
                 else "Internal server error") None), d)
    /\ let d' := snd (Api.ensure_initialized d) in
       Database.db d' = true
       /\ Database.jobs d' = Database.jobs d
       /\ Database.applications d' = Database.applications d
       /\ fst (Api.getJob id d') <> Ok (Api.Sent 500 "Internal server error")
       /\ fst (Api.patchJobApply id applicationId notes d')
          <> Ok (Api.Sent 500 "Internal server error")
       /\ fst (Api.deleteJob id d') <> Ok (Api.Sent 500 "Internal server error")
       /\ fst (Api.deleteApplication id d') <> Ok (Api.Sent 500 "Internal server error").
Proof.
  intros d id applicationId notes status contact Hdb.
  unfold Api.getJob, Api.patchJobApply, Api.deleteJob, Api.deleteApplication,
    Routes.postApplication, Api.get_application, Database.get_job,
    Database.get_application_by_job, try_catch, bind, Database.handle, js_or, Env.truthy.
  rewrite Hdb. cbn.
  repeat (split; [reflexivity|]).
  split; [destruct (String.eqb id EmptyString); cbn; rewrite ?Hdb; reflexivity|].
  unfold Api.ensure_initialized, bind, get_state. rewrite Hdb. cbn.
  repeat (split; [reflexivity|]).
  split; [|split; [|split]].
  - destruct (find _ _); discriminate.
  - destruct (find _ _); discriminate.
  - destruct (find _ _); discriminate.
  - destruct (find _ _); discriminate.
Qed.

Lemma routes_need_the_handle_witness :
  Api.getJob "123" (Api.set_db false store_with_job_123)
  = (Ok (Api.Sent 500 "Internal server error"), Api.set_db false store_with_job_123)
  /\ fst (Api.getJob "123" (snd (Api.ensure_initialized (Api.set_db false store_with_job_123))))
     <> Ok (Api.Sent 500 "Internal server error").
Proof.
  pose proof (routes_need_the_handle (Api.set_db false store_with_job_123) "123"
                None None None None eq_refl) as H.
  split; [exact (proj1 H)|].
  exact (proj1 (proj2 (proj2 (proj2 (proj2 (proj2 (proj2 (proj2 (proj2 H))))))))).
Defined.

(** ** Deleting a job *)

Lemma filter_other_key {A} (key_of : A -> string) (key other : string) (l : list A) :
  other <> key ->
  List.filter (fun r => String.eqb (key_of r) other)
    (List.filter (fun r => negb (String.eqb (key_of r) key)) l)
  = List.filter (fun r => String.eqb (key_of r) other) l.
Proof.
  intros Hne. induction l as [|x l IH]; simpl; [reflexivity|].
  destruct (String.eqb (key_of x) key) eqn:E; simpl.
  - apply String.eqb_eq in E.
    destruct (String.eqb (key_of x) other) eqn:E'; [|exact IH].
    apply String.eqb_eq in E'. congruence.
  - rewrite IH. reflexivity.
Qed.

(** [DELETE /api/jobs/:id] on an initialised handle: an unknown id is
    answered 404 and nothing changes; otherwise the job's row and every
    application that refers to it are gone, and the rows of every other
    job are as they were. *)
Theorem deleteJob_cascades :
  forall (d : Database.t) (jobId : string),
    Database.db d = true ->
    match rows_of_job jobId d with
    | [] => Api.deleteJob jobId d = (Ok (Api.Sent 404 "Job not found"), d)
    | _ :: _ =>
        exists d',
          Api.deleteJob jobId d = (Ok (Api.Sent 200 "Job deleted successfully"), d')
          /\ rows_of_job jobId d' = []
          /\ applications_of_job jobId d' = []
          /\ forall other, other <> jobId ->
               rows_of_job other d' = rows_of_job other d
               /\ applications_of_job other d' = applications_of_job other d
    end.
Proof.
  intros d jobId Hdb.
  unfold Api.deleteJob, try_catch, bind. rewrite (get_job_open d jobId Hdb).
  unfold rows_of_job at 1.
  destruct (List.filter (fun r => String.eqb (JobRow.job_id r) jobId) (Database.jobs d))
    as [|row rows] eqn:Hrows.
  - destruct (find _ _) as [r|] eqn:Hfind; [|reflexivity].
    apply find_some in Hfind.
    assert (Hin : In r (List.filter (fun r => String.eqb (JobRow.job_id r) jobId)
                          (Database.jobs d))) by (apply filter_In; exact Hfind).
    rewrite Hrows in Hin. destruct Hin.
  - destruct (find _ _) as [r|] eqn:Hfind.
    + unfold Api.delete_applications_of_job, Api.delete_job, bind, Database.handle.
      rewrite Hdb. cbn. rewrite Hdb. cbn. eexists. split; [reflexivity|].
      unfold rows_of_job, applications_of_job. cbn.
      split; [apply filter_negb_filter with (p := fun r => String.eqb (JobRow.job_id r) jobId)|].
      split; [apply filter_negb_filter with (p := fun r => String.eqb (AppRow.job_id r) jobId)|].
      intros other Hne. split.
      * apply (filter_other_key JobRow.job_id jobId other _ Hne).
      * apply (filter_other_key AppRow.job_id jobId other _ Hne).
    + apply find_none_filter in Hfind. rewrite Hfind in Hrows. discriminate.
Qed.

Lemma deleteJob_cascades_witness :
  exists d',
    Api.deleteJob "123" store_with_application
    = (Ok (Api.Sent 200 "Job deleted successfully"), d')
    /\ rows_of_job "123" d' = []
    /\ applications_of_job "123" d' = []
    /\ forall other, other <> "123" ->
         rows_of_job other d' = rows_of_job other store_with_application
         /\ applications_of_job other d' = applications_of_job other store_with_application.
Proof.
  apply (deleteJob_cascades store_with_application "123"). reflexivity.
Defined.

(** ** Marking a job as applied by hand *)

Lemma set_applied_rows (b : bool) (key : string) (d : Database.t) :
  Database.db d = true ->
  exists d',
    Api.set_applied b key d = (Ok tt, d')
    /\ Database.db d' = true
    /\ Database.clock d' = Database.clock d
    /\ Database.applications d' = Database.applications d
    /\ (forall r, In r (rows_of_job key d') -> JobRow.is_applied r = b)
    /\ length (rows_of_job key d') = length (rows_of_job key d).
Proof.
  intros Hdb. unfold Api.set_applied, bind, Database.handle. rewrite Hdb. cbn.
  eexists. split; [reflexivity|]. unfold rows_of_job. cbn.
  repeat (split; [first [exact Hdb | reflexivity]|]). split.
  - intros r Hin. apply filter_In in Hin. destruct Hin as [Hin Hkey].
    apply in_map_iff in Hin. destruct Hin as [r0 [Hr0 _]].
    revert Hr0. destruct (String.eqb (JobRow.job_id r0) key) eqn:E; intros Hr0.
    + subst r. reflexivity.
    + subst r0. congruence.
  - induction (Database.jobs d) as [|x l IH]; simpl; [reflexivity|].
    destruct (String.eqb (JobRow.job_id x) key) eqn:E; simpl; rewrite E; simpl;
      rewrite IH; reflexivity.
Qed.

(** [PATCH /api/jobs/:id/apply] on an initialised handle: an unknown id is
    answered 404 and nothing changes; for a known job the answer is 200,
    the job is marked as applied and an application with status 'Applied'
    is stored for it, whether or not the job already had one. *)
Theorem patchJobApply_records :
  forall (d : Database.t) (jobId : string) (applicationId notes : option string),
    Database.db d = true ->
    match rows_of_job jobId d with
    | [] =>
        Api.patchJobApply jobId applicationId notes d
        = (Ok (Api.Sent 404 "Job not found"), d)
    | _ :: _ =>
        exists d' row,
          Api.patchJobApply jobId applicationId notes d
          = (Ok (Api.Sent 200 "Job marked as applied successfully"), d')
          /\ (forall r, In r (rows_of_job jobId d') -> JobRow.is_applied r = true)
          /\ length (rows_of_job jobId d') = length (rows_of_job jobId d)
          /\ In row (applications_of_job jobId d')
          /\ AppRow.status row = Some "Applied"
          /\ AppRow.application_id row
             = Some (default ("manual_" +:+ pretty (Database.clock d))
                       (js_or applicationId None))
    end.
Proof.
  intros d jobId applicationId notes Hdb.
  unfold Api.patchJobApply, try_catch, bind. rewrite (get_job_open d jobId Hdb).
  unfold rows_of_job at 1.
  destruct (List.filter (fun r => String.eqb (JobRow.job_id r) jobId) (Database.jobs d))
    as [|row rows] eqn:Hrows.
  - destruct (find _ _) as [r|] eqn:Hfind; [|reflexivity].
    apply find_some in Hfind.
    assert (Hin : In r (List.filter (fun r => String.eqb (JobRow.job_id r) jobId)
                          (Database.jobs d))) by (apply filter_In; exact Hfind).
    rewrite Hrows in Hin. destruct Hin.
  - destruct (find _ _) as [r|] eqn:Hfind.
    2:{ apply find_none_filter in Hfind. rewrite Hfind in Hrows. discriminate. }
    destruct (set_applied_rows true jobId d Hdb)
      as [d1 [Hset [Hdb1 [Hclock [Happs [Hmarked Hlen]]]]]].
    rewrite Hset. cbn [Database.now fst snd].
    unfold Database.insertApplication, bind, Database.handle. rewrite Hdb1.
    cbn [ApplicationData.jobId Database.now fst snd modify ret].
    eexists. eexists. split; [reflexivity|].
    unfold rows_of_job, applications_of_job in *. cbn.
    split; [exact Hmarked|]. split; [exact Hlen|].
    split; [|split].
    + apply filter_In. split; [apply in_or_app; right; left; reflexivity|].
      cbn. apply String.eqb_refl.
    + reflexivity.
    + cbn. rewrite Hclock. reflexivity.
Qed.

Lemma patchJobApply_records_witness :
  exists d' row,
    Api.patchJobApply "123" None None store_with_application
    = (Ok (Api.Sent 200 "Job marked as applied successfully"), d')
    /\ (forall r, In r (rows_of_job "123" d') -> JobRow.is_applied r = true)
    /\ length (rows_of_job "123" d') = length (rows_of_job "123" store_with_application)
    /\ In row (applications_of_job "123" d')
    /\ AppRow.status row = Some "Applied"
    /\ AppRow.application_id row
       = Some (default ("manual_" +:+ pretty (Database.clock store_with_application))
                 (js_or None None)).
Proof.
  apply (patchJobApply_records store_with_application "123" None None). reflexivity.
Defined.

(** ** Creating and deleting an application through the API *)

Lemma filter_filter_le {A} (p q : A -> bool) (l : list A) :
  (length (List.filter p (List.filter q l)) <= length (List.filter p l))%nat.
Proof.
  induction l as [|x l IH]; simpl; [lia|].
  destruct (q x); simpl; destruct (p x); simpl; lia.
Qed.

Lemma postApplication_created (jobId : option string) (status notes contact : option string)
    (d d' : Database.t) (r : Routes.Response) :
  Routes.postApplication jobId status notes contact d = (Ok r, d') ->
  Routes.code r = 201%nat ->
  exists key row,
    jobId = Some key
    /\ Database.db d = true
    /\ applications_of_job key d = []
    /\ AppRow.job_id row = key
    /\ AppRow.application_id row = Some ("manual_" +:+ pretty (Database.clock d))
    /\ Routes.applicationId r = Some ("manual_" +:+ pretty (Database.clock d))
    /\ Database.applications d'
       = List.filter (fun x => negb (Database.same_key
                                       ("manual_" +:+ pretty (Database.clock d))
                                       (AppRow.application_id x)))
           (Database.applications d) ++ [row]
    /\ Database.jobs d' = Database.jobs (snd (Database.mark_applied key d)).
Proof.
  unfold Routes.postApplication. rewrite try_catch_run.
  destruct (js_or jobId None) as [key|] eqn:Hkey.
  2:{ cbn. intros H. injection H as <- _. discriminate. }
  assert (HjobId : jobId = Some key).
  { unfold js_or in Hkey. destruct (Env.truthy jobId); congruence. }
  destruct (Database.db d) eqn:Hdb.
  2:{ unfold bind, Database.get_job, bind, Database.handle. rewrite Hdb. cbn.
      intros H. injection H as <- _. discriminate. }
  unfold bind at 1. rewrite (get_job_open d key Hdb).
  destruct (find _ (Database.jobs d)) as [job|].
  2:{ cbn. intros H. injection H as <- _. discriminate. }
  unfold bind at 1. unfold Database.get_application_by_job, bind at 1.
  rewrite (handle_open d Hdb). cbn [bind get_state ret].
  unfold bind at 1, get_state, ret at 1.
  destruct (find (fun r0 => String.eqb (AppRow.job_id r0) key) (Database.applications d))
    as [existing|] eqn:Hfind.
  { cbn. intros H. injection H as <- _. discriminate. }
  unfold bind, Database.now, Database.insertApplication, Database.mark_applied, bind,
    Database.handle.
  rewrite Hdb. cbn. rewrite Hdb. cbn.
  intros H Hcode. injection H as <- <-.
  do 2 eexists. split; [exact HjobId|]. split; [reflexivity|].
  split; [apply find_none_filter, Hfind|].
  cbn. repeat split; reflexivity.
Qed.

Lemma postApplication_other (jobId : option string) (status notes contact : option string)
    (d d' : Database.t) (r : Routes.Response) :
  Routes.postApplication jobId status notes contact d = (Ok r, d') ->
  Routes.code r <> 201%nat -> d' = d.
Proof.
  unfold Routes.postApplication. rewrite try_catch_run.
  destruct (js_or jobId None) as [key|] eqn:Hkey.
  2:{ cbn. intros H. injection H as _ <-. reflexivity. }
  destruct (Database.db d) eqn:Hdb.
  2:{ unfold bind, Database.get_job, bind, Database.handle. rewrite Hdb. cbn.
      intros H. injection H as _ <-. reflexivity. }
  unfold bind at 1. rewrite (get_job_open d key Hdb).
  destruct (find _ (Database.jobs d)) as [job|].
  2:{ cbn. intros H. injection H as _ <-. reflexivity. }
  unfold bind at 1. unfold Database.get_application_by_job, bind at 1.
  rewrite (handle_open d Hdb). cbn [bind get_state ret].
  unfold bind at 1, get_state, ret at 1.
  destruct (find (fun r0 => String.eqb (AppRow.job_id r0) key) (Database.applications d))
    as [existing|] eqn:Hfind.
  { cbn. intros H. injection H as _ <-. reflexivity. }
  unfold bind, Database.now, Database.insertApplication, Database.mark_applied, bind,
    Database.handle.
  rewrite Hdb. cbn. rewrite Hdb. cbn.
  intros H Hcode. injection H as <- _. destruct (Hcode eq_refl).
Qed.

Lemma postApplication_replies (jobId status notes contact : option string) (d : Database.t) :
  exists r d', Routes.postApplication jobId status notes contact d = (Ok r, d').
Proof.
  assert (Hs : settles (Routes.postApplication jobId status notes contact)).
  { unfold Routes.postApplication, Database.get_application_by_job. settle. }
  assert (Hn : never_throws (Routes.postApplication jobId status notes contact)).
  { apply never_throws_try_catch. intros e. apply never_throws_ret. }
  destruct (settled_ok _ d Hs Hn) as [r Hr].
  destruct (Routes.postApplication jobId status notes contact d) as [o d'].
  cbn in Hr. subst o. eauto.
Qed.

(** [POST /api/applications] keeps the rule "at most one application per
    job": if the store obeys it before the request it obeys it after,
    whatever the request and the answer. *)
Theorem postApplication_keeps_one_application_per_job :
  forall (d : Database.t) (jobId status notes contact : option string),
    one_application_per_job d ->
    one_application_per_job (snd (Routes.postApplication jobId status notes contact d)).
Proof.
  intros d jobId status notes contact Hone.
  destruct (Routes.postApplication jobId status notes contact d) as [[r|e|] d'] eqn:Hrun.
  - destruct (Nat.eq_dec (Routes.code r) 201%nat) as [Hcode|Hcode].
    + destruct (postApplication_created _ _ _ _ _ _ _ Hrun Hcode)
        as [key [row [_ [_ [Hnone [Hrow [_ [_ [Happs _]]]]]]]]].
      cbn [snd]. intros key'. unfold one_application_per_job, applications_of_job in *.
      rewrite Happs.
      rewrite List.filter_app, length_app. cbn [List.filter].
      pose proof (filter_filter_le (fun x => String.eqb (AppRow.job_id x) key')
                    (fun x => negb (Database.same_key
                                      ("manual_" +:+ pretty (Database.clock d))
                                      (AppRow.application_id x)))
                    (Database.applications d)) as Hle.
      rewrite Hrow. destruct (String.eqb key key') eqn:E.
      * apply String.eqb_eq in E. subst key'. rewrite Hnone in Hle. cbn in *. lia.
      * specialize (Hone key'). cbn. lia.
    + rewrite (postApplication_other _ _ _ _ _ _ _ Hrun Hcode). exact Hone.
  - destruct (postApplication_replies jobId status notes contact d) as [r [d0 H]].
    congruence.
  - destruct (postApplication_replies jobId status notes contact d) as [r [d0 H]].
    congruence.
Qed.

Lemma postApplication_keeps_one_application_per_job_witness :
  one_application_per_job
    (snd (Routes.postApplication (Some "123") None None None store_with_job_123)).
Proof.
  apply (postApplication_keeps_one_application_per_job store_with_job_123
           (Some "123") None None None).
  intros key. simpl. lia.
Defined.









(** ** Statistics *)

Lemma bump_total (key : option string) (groups : list (option string * nat)) :
  total_count (Stats.bump key groups) = S (total_count groups).
Proof.
  induction groups as [|[k n] groups IH]; simpl; [reflexivity|].
  destruct (bool_decide (k = key)); simpl; [lia | rewrite IH; lia].
Qed.

Lemma bump_keys (key : option string) (groups : list (option string * nat)) :
  (In key (map fst groups) /\ map fst (Stats.bump key groups) = map fst groups)
  \/ (~ In key (map fst groups) /\ map fst (Stats.bump key groups) = map fst groups ++ [key]).
Proof.
  induction groups as [|[k n] groups IH]; simpl.
  - right. tauto.
  - destruct (bool_decide (k = key)) eqn:E; simpl.
    + apply bool_decide_eq_true_1 in E. left. tauto.
    + apply bool_decide_eq_false_1 in E.
      destruct IH as [[Hin Heq]|[Hnot Heq]]; rewrite Heq; [left | right]; tauto.
Qed.

Lemma bump_count (key status : option string) (groups : list (option string * nat)) (n : nat) :
  List.NoDup (map fst groups) ->
  In (status, n) (Stats.bump key groups) ->
  if bool_decide (status = key)
  then (n = 1%nat /\ ~ In key (map fst groups)) \/ (exists m, n = S m /\ In (status, m) groups)
  else In (status, n) groups.
Proof.
  intros Hnd. induction groups as [|[k m] groups IH]; simpl.
  - intros [H|[]]. injection H as <- <-. rewrite bool_decide_eq_true_2 by reflexivity.
    left. tauto.
  - inversion Hnd as [|? ? Hk Hnd']; subst.
    destruct (bool_decide (k = key)) eqn:E; simpl.
    + apply bool_decide_eq_true_1 in E. subst k. intros [H|H].
      * injection H as <- <-. rewrite bool_decide_eq_true_2 by reflexivity.
        right. exists m. tauto.
      * destruct (bool_decide (status = key)) eqn:E'; [|tauto].
        apply bool_decide_eq_true_1 in E'. subst status.
        exfalso. apply Hk. change key with (fst (key, n)). apply in_map, H.
    + apply bool_decide_eq_false_1 in E. intros [H|H].
      * injection H as <- <-. rewrite bool_decide_eq_false_2 by exact E. tauto.
      * specialize (IH Hnd' H). destruct (bool_decide (status = key)); [|tauto].
        destruct IH as [[Hn Hnot]|[m' [Hn Hin]]]; [left | right; exists m'];
          intuition congruence.
Qed.

Lemma NoDup_snoc {A} (l : list A) (x : A) : List.NoDup l -> ~ In x l -> List.NoDup (l ++ [x]).
Proof.
  intros Hnd Hx. induction Hnd as [|y l Hy Hnd IH]; simpl.
  - constructor; [tauto | constructor].
  - constructor.
    + rewrite in_app_iff. simpl. intros [H|[H|[]]]; [tauto|]. subst. apply Hx. left. reflexivity.
    + apply IH. intros H. apply Hx. right. exact H.
Qed.

Lemma bump_has_key (key : option string) (groups : list (option string * nat)) :
  In key (map fst (Stats.bump key groups)).
Proof.
  destruct (bump_keys key groups) as [[Hin ->]|[_ ->]];
    [exact Hin | apply in_or_app; right; left; reflexivity].
Qed.

Lemma bump_keeps_keys (key k : option string) (groups : list (option string * nat)) :
  In k (map fst groups) -> In k (map fst (Stats.bump key groups)).
Proof.
  intros H. destruct (bump_keys key groups) as [[_ ->]|[_ ->]];
    [exact H | apply in_or_app; left; exact H].
Qed.

Lemma group_by_status_sound (rows : list AppRow.t) :
  forall groups seen,
    List.NoDup (map fst groups) ->
    total_count groups = length seen ->
    (forall r, In r seen -> In (AppRow.status r) (map fst groups)) ->
    (forall status n, In (status, n) groups ->
       (0 < n)%nat
       /\ n = length (List.filter (fun r => bool_decide (AppRow.status r = status)) seen)) ->
    let result := fold_left (fun groups r => Stats.bump (AppRow.status r) groups) rows groups in
    List.NoDup (map fst result)
    /\ total_count result = length (seen ++ rows)
    /\ forall status n, In (status, n) result ->
         (0 < n)%nat
         /\ n = length (List.filter (fun r => bool_decide (AppRow.status r = status))
                          (seen ++ rows)).
Proof.
  induction rows as [|r rows IH]; intros groups seen Hnd Htotal Hall Hcounts; simpl.
  - rewrite app_nil_r. auto.
  - replace (seen ++ r :: rows) with ((seen ++ [r]) ++ rows) by (rewrite <- app_assoc; reflexivity).
    apply IH.
    + destruct (bump_keys (AppRow.status r) groups) as [[_ ->]|[Hnot ->]];
        [exact Hnd | apply NoDup_snoc; assumption].
    + rewrite bump_total, length_app, Htotal. simpl. lia.
    + intros x Hx. apply in_app_or in Hx. destruct Hx as [Hx|[<-|[]]].
      * apply bump_keeps_keys, Hall, Hx.
      * apply bump_has_key.
    + intros status n Hin. pose proof (bump_count _ _ _ _ Hnd Hin) as Hb.
      rewrite List.filter_app, length_app. cbn [List.filter].
      destruct (bool_decide (status = AppRow.status r)) eqn:E.
      * apply bool_decide_eq_true_1 in E. subst status.
        rewrite bool_decide_eq_true_2 by reflexivity. cbn [length].
        destruct Hb as [[Hn Hnot]|[m [Hn Hm]]].
        -- split; [lia|]. subst n.
           assert (Hzero : List.filter (fun r0 => bool_decide (AppRow.status r0 = AppRow.status r))
                             seen = []).
           { destruct (List.filter _ seen) as [|x l] eqn:Hf; [reflexivity|].
             exfalso. apply Hnot.
             assert (Hx : In x (List.filter
                                  (fun r0 => bool_decide (AppRow.status r0 = AppRow.status r))
                                  seen)) by (rewrite Hf; left; reflexivity).
             apply filter_In in Hx. destruct Hx as [Hx Hs].
             apply bool_decide_eq_true_1 in Hs. rewrite <- Hs. apply Hall, Hx. }
           rewrite Hzero. reflexivity.
        -- destruct (Hcounts _ _ Hm) as [Hpos Hlen]. split; [lia|]. rewrite <- Hlen. lia.
      * apply bool_decide_eq_false_1 in E.
        rewrite bool_decide_eq_false_2 by congruence. cbn [length].
        destruct (Hcounts _ _ Hb) as [Hpos Hlen]. split; [exact Hpos | lia].
Qed.

(** [getJobStats] on an initialised store: the total is the number of
    rows of [jobs], the applied and today's jobs are among them, and the
    application statistics list every status that occurs exactly once,
    with the number of applications that have it, so that the counts add
    up to the number of applications.  Without a handle it rejects. *)
Theorem getJobStats_adds_up :
  forall d : Database.t,
    if Database.db d then
      exists stats,
        Stats.getJobStats d = (Ok stats, d)
        /\ Stats.totalJobs stats = length (Database.jobs d)
        /\ (Stats.appliedJobs stats <= Stats.totalJobs stats)%nat
        /\ (Stats.todayJobs stats <= Stats.totalJobs stats)%nat
        /\ List.NoDup (map fst (Stats.applicationStats stats))
        /\ total_count (Stats.applicationStats stats) = length (Database.applications d)
        /\ forall status n, In (status, n) (Stats.applicationStats stats) ->
             (0 < n)%nat /\ n = length (applications_with_status status d)
    else Stats.getJobStats d = (Throw "Database not initialized", d).
Proof.
  intros d. destruct (Database.db d) eqn:Hdb.
  - unfold Stats.getJobStats, Stats.count_jobs, bind.
    repeat (rewrite (handle_open d Hdb); cbn).
    eexists. split; [reflexivity|]. cbn.
    assert (Hsound := group_by_status_sound (Database.applications d) [] []
                        (List.NoDup_nil _) eq_refl
                        (fun r (H : In r []) => match H with end)
                        (fun status n (H : In (status, n) []) => match H with end)).
    cbv zeta in Hsound. cbn [app] in Hsound. destruct Hsound as [Hnd [Htotal Hcounts]].
    split; [|split; [|split; [|split; [|split]]]].
    + clear. induction (Database.jobs d) as [|x l IH]; simpl; [reflexivity | rewrite IH; reflexivity].
    + etransitivity; [apply List.filter_length_le|].
      clear. induction (Database.jobs d) as [|x l IH]; simpl; lia.
    + etransitivity; [apply List.filter_length_le|].
      clear. induction (Database.jobs d) as [|x l IH]; simpl; lia.
    + exact Hnd.
    + exact Htotal.
    + exact Hcounts.
  - unfold Stats.getJobStats, Stats.count_jobs, bind.
    rewrite (handle_closed d Hdb). reflexivity.
Qed.

(** ** The daily cleanup *)

Lemma last_five_suffix {A} (l : list A) :
  (length (Daily.last_five l) <= 5)%nat /\ exists dropped, l = dropped ++ Daily.last_five l.
Proof.
  unfold Daily.last_five. split.
  - rewrite length_skipn. lia.
  - exists (firstn (length l - 5) l). symmetry. apply firstn_skipn.
Qed.

Lemma with_history_twice (h1 h2 : list HistoryEntry.t) (r : AppRow.t) :
  Daily.with_history h2 (Daily.with_history h1 r) = Daily.with_history h2 r.
Proof. reflexivity. Qed.

Lemma Forall2_trimmed_refl (before l : list AppRow.t) : Forall2 (trimmed before) l l.
Proof. induction l; constructor; [left; reflexivity | assumption]. Qed.

Lemma set_history_trimmed (before current : list AppRow.t) (rows : list AppRow.t)
    (aid : option string) (history : list HistoryEntry.t) :
  In (Some (Stringified history)) (map AppRow.status_history before) ->
  Forall2 (trimmed before) rows current ->
  Forall2 (trimmed before) rows
    (map (Daily.set_history aid (Daily.last_five history)) current).
Proof.
  intros Hin Hall. induction Hall as [|r r' rows current Hr Hall IH]; simpl; constructor.
  - unfold Daily.set_history. destruct aid as [k|]; [|exact Hr].
    destruct (Database.same_key k (AppRow.application_id r')); [|exact Hr].
    right. exists history. split; [exact Hin|].
    destruct Hr as [->|[h1 [_ ->]]]; reflexivity.
  - exact IH.
Qed.

Lemma trim_step (before : list AppRow.t) (app : AppRow.t) (d : Database.t) :
  In app before ->
  Forall2 (trimmed before) before (Database.applications d) ->
  exists d1,
    try_catch
      (match AppRow.status_history app with
       | Some (Stringified history) =>
           let recentHistory := Daily.last_five history in
           Database.handle >>
           modify (Database.set_applications
                     (map (Daily.set_history (AppRow.application_id app) recentHistory)))
       | Some (Unparsable _) => throw "Unexpected token in JSON"
       | None => throw "Cannot read properties of null (reading 'slice')"
       end)
      (fun _ => ret tt) d = (Ok tt, d1)
    /\ Database.jobs d1 = Database.jobs d
    /\ Database.scraping_logs d1 = Database.scraping_logs d
    /\ Database.db d1 = Database.db d
    /\ Database.clock d1 = Database.clock d
    /\ Forall2 (trimmed before) before (Database.applications d1).
Proof.
  intros Hin Hall. rewrite try_catch_run.
  destruct (AppRow.status_history app) as [[history|raw]|] eqn:Hh.
  - cbv zeta. unfold bind, Database.handle.
    destruct (Database.db d) eqn:Hdb; cbn.
    + eexists. split; [reflexivity|]. cbn. repeat split; try assumption.
      apply set_history_trimmed; [|exact Hall].
      rewrite <- Hh. apply in_map, Hin.
    + exists d. repeat split; assumption.
  - exists d. cbn. repeat split; assumption.
  - exists d. cbn. repeat split; assumption.
Qed.

Lemma trim_loop (before : list AppRow.t) (old : list AppRow.t) :
  (forall app, In app old -> In app before) ->
  forall d,
    Forall2 (trimmed before) before (Database.applications d) ->
    exists d',
      for_of old tt (fun app _ =>
        try_catch
          (match AppRow.status_history app with
           | Some (Stringified history) =>
               let recentHistory := Daily.last_five history in
               Database.handle >>
               modify (Database.set_applications
                         (map (Daily.set_history (AppRow.application_id app) recentHistory)))
           | Some (Unparsable _) => throw "Unexpected token in JSON"
           | None => throw "Cannot read properties of null (reading 'slice')"
           end)
          (fun _ => ret tt)) d = (Ok tt, d')
      /\ Database.jobs d' = Database.jobs d
      /\ Database.scraping_logs d' = Database.scraping_logs d
      /\ Database.db d' = Database.db d
      /\ Database.clock d' = Database.clock d
      /\ Forall2 (trimmed before) before (Database.applications d').
Proof.
  induction old as [|app old IH]; intros Hold d Hall; cbn [for_of].
  - exists d. unfold ret. repeat split; try reflexivity. exact Hall.
  - unfold bind at 1.
    pose proof (trim_step before app d (Hold app (or_introl eq_refl)) Hall) as Hstep.
    cbv zeta in Hstep. destruct Hstep as [d1 [-> [Hj [Hl [Hdb [Hc Hall1]]]]]].
    destruct (IH (fun a Ha => Hold a (or_intror Ha)) d1 Hall1)
      as [d2 [Hrun [Hj2 [Hl2 [Hdb2 [Hc2 Hall2]]]]]].
    exists d2. split; [exact Hrun|]. repeat split; congruence.
Qed.

(** [cleanupOldData] always resolves.  It deletes exactly the jobs that
    are not applied to and were scraped more than 30 days ago, and the log
    rows older than 90 days; it deletes no application and changes none
    but for the history, which it leaves alone or cuts to the last five
    entries of a stored history.  Without a handle it changes nothing. *)
Theorem cleanupOldData_keeps_what_matters :
  forall (stale : AppRow.t -> bool) (d : Database.t),
    exists d',
      Daily.cleanupOldData stale d = (Ok tt, d')
      /\ (forall r, In r (Database.jobs d') <->
            In r (Database.jobs d)
            /\ (Database.db d = true ->
                JobRow.is_applied r = true
                \/ Daily.older_than 30 (Database.clock d) (JobRow.scraped_at r) = false))
      /\ (forall r, In r (Database.scraping_logs d') <->
            In r (Database.scraping_logs d)
            /\ (Database.db d = true ->
                Daily.older_than 90 (Database.clock d) (LogRow.started_at r) = false))
      /\ Forall2 (trimmed (Database.applications d))
           (Database.applications d) (Database.applications d')
      /\ (Database.db d = false -> d' = d).
Proof.
  intros stale d. unfold Daily.cleanupOldData. rewrite try_catch_run.
  unfold bind at 1, Database.now. 
  destruct (Database.db d) eqn:Hdb.
  - unfold bind at 1. unfold bind at 1. rewrite (handle_open d Hdb). cbn [modify].
    set (d1 := Database.set_jobs _ d).
    unfold bind at 1. unfold bind at 1.
    assert (Hdb1 : Database.db d1 = true) by exact Hdb.
    rewrite (handle_open d1 Hdb1). cbn [modify].
    set (d2 := Database.set_scraping_logs _ d1).
    unfold bind at 1. unfold bind at 1.
    assert (Hdb2 : Database.db d2 = true) by exact Hdb.
    rewrite (handle_open d2 Hdb2). unfold bind at 1, get_state, ret at 1.
    pose proof (trim_loop (Database.applications d)
                  (List.filter (fun r => stale r && Daily.has_history r)
                     (Database.applications d2))
                  (fun app H => proj1 (proj1 (filter_In _ _ _) H)) d2
                  (Forall2_trimmed_refl _ _)) as Hloop.
    cbv zeta in Hloop. cbv zeta.
    destruct Hloop as [d3 [-> [Hj [Hl [_ [_ Hall]]]]]].
    exists d3. split; [reflexivity|]. split; [|split; [|split; [exact Hall | discriminate]]].
    + intros r. rewrite Hj. unfold d2, d1. cbn. rewrite filter_In.
      split; intros [Hin Hkeep]; (split; [exact Hin|]).
      * intros _. apply negb_true_iff, andb_false_iff in Hkeep.
        destruct Hkeep as [Hk|Hk]; [right; exact Hk | left].
        apply negb_false_iff in Hk. exact Hk.
      * apply negb_true_iff, andb_false_iff.
        destruct (Hkeep eq_refl) as [Hk|Hk]; [right; rewrite Hk; reflexivity | left; exact Hk].
    + intros r. rewrite Hl. unfold d2, d1. cbn. rewrite filter_In.
      split; intros [Hin Hkeep]; (split; [exact Hin|]).
      * intros _. apply negb_true_iff in Hkeep. exact Hkeep.
      * apply negb_true_iff. exact (Hkeep eq_refl).
  - unfold bind at 1. unfold bind at 1. rewrite (handle_closed d Hdb).
    exists d. split; [reflexivity|].
    split; [|split; [|split; [apply Forall2_trimmed_refl | reflexivity]]].
    + intros r. split; [intros H; split; [exact H | discriminate] | tauto].
    + intros r. split; [intros H; split; [exact H | discriminate] | tauto].
Qed.

(** ** The settings routes *)

Lemma serve_without_handle (request : Settings.Request) (s : Settings.Store) :
  Settings.db s = false ->
  Settings.serve request s = (Ok (Settings.refused request), s).
Proof.
  intros Hdb.
  destruct request as [|key|[[|[k v] entries]|]|key [v|]|key];
    cbn [Settings.serve Settings.refused];
    unfold Settings.getSettings, Settings.getSetting, Settings.postSettings,
      Settings.putSetting, Settings.deleteSetting;
    cbn [for_of]; unfold Settings.replace_setting;
    rewrite try_catch_run; unfold bind, Settings.handle; rewrite ?Hdb; reflexivity.
Qed.

(** The settings router never opens its handle: from the store its
    module makes, every session of requests leaves the table as it was,
    and every request is answered 500, but for the two that fail
    validation first (400) and an update with no entry (200). *)
Theorem settings_routes_store_nothing :
  forall (requests : list Settings.Request) (clock : Z) (rows : gmap string (string * Z)),
    Settings.serve_all requests (Settings.constructor clock rows)
    = (Ok (map Settings.refused requests), Settings.constructor clock rows).
Proof.
  intros requests clock rows.
  induction requests as [|request rest IH]; [reflexivity|].
  cbn [Settings.serve_all map]. unfold bind at 1.
  rewrite (serve_without_handle request (Settings.constructor clock rows) eq_refl).
  unfold bind at 1. rewrite IH. reflexivity.
Qed.
